(** * wifidiag-openai-mcp-demo: the chat client and the tool provider

    A shallow embedding of [mcp_chatgpt_client.py] (the worker loop, the
    exchange with the completion backend, the tool broker, the input
    field and the set-up of the two connections) and of
    [wifi_diagnostics_mcp.py] ([run_command] and the diagnostic tools).

    A Python [str] is kept as the [string] of its UTF-8 bytes; a Python
    exception is seen through the handler that catches it, so only
    exceptions deriving from [Exception] are modelled
    ([KeyboardInterrupt], [SystemExit] and task cancellation are outside
    the model).  External libraries (subprocess, the OpenAI SDK, the MCP
    SDK, [json]) are parameters of the sections below. *)

From stdpp Require Import base gmap strings list.
From Stdlib Require Import ZArith Lia Ascii.

Set Warnings "-register-all".

Open Scope string_scope.
Open Scope list_scope.

(** ** The tool provider: [run_command] *)

Module WifiDiagnostics.

(** Values stored in the dictionary that [run_command] returns. *)
Inductive pyval :=
| PyBool (b : bool)
| PyStr (s : string).

(** What [subprocess.run(cmd, capture_output=True, text=True, shell=...,
    timeout=...)] does: it returns a [CompletedProcess], or raises
    [subprocess.TimeoutExpired], or raises another [Exception] [e], of
    which only [str(e)] is observed. *)
Inductive run_outcome :=
| CompletedProcess (returncode : Z) (stdout stderr : string)
| TimeoutExpired
| OtherException (str_e : string).

(** A Python computation that returns or raises. *)
Inductive py (A : Type) :=
| Returns (a : A)
| Raises (str_e : string).
Arguments Returns {A} a.
Arguments Raises {A} str_e.

(** [" ".join(cmd)] *)
Definition join_cmd (cmd : list string) : string := String.concat " " cmd.

Section RunCommand.

(** [subprocess.run]; the third argument is the [timeout] in seconds. *)
Variable subprocess_run : list string → bool → Z → run_outcome.

Definition run_command (cmd : list string) (shell : bool)
  : py (gmap string pyval) :=
  match subprocess_run cmd shell 30 with
  | CompletedProcess returncode stdout stderr =>
      Returns (<["success" := PyBool (returncode =? 0)%Z]>
               (<["stdout" := PyStr stdout]>
                (<["stderr" := PyStr stderr]>
                 (<["command" := PyStr (join_cmd cmd)]> ∅))))
  | TimeoutExpired =>
      Returns (<["success" := PyBool false]>
               (<["error" := PyStr "Command timed out"]>
                (<["command" := PyStr (join_cmd cmd)]> ∅)))
  | OtherException str_e =>
      Returns (<["success" := PyBool false]>
               (<["error" := PyStr str_e]>
                (<["command" := PyStr (join_cmd cmd)]> ∅)))
  end.

(** [run_powershell] *)
Definition run_powershell (script : string) : py (gmap string pyval) :=
  run_command ["powershell"; "-NoProfile"; "-Command"; script] false.

End RunCommand.

(** The subprocess finished before the timeout with exit status 0. *)
Definition completed_ok (o : run_outcome) : bool :=
  match o with
  | CompletedProcess returncode _ _ => (returncode =? 0)%Z
  | _ => false
  end.

(** The message of the exception that [subprocess.run] raised, if any. *)
Definition failure_of (o : run_outcome) : option string :=
  match o with
  | CompletedProcess _ _ _ => None
  | TimeoutExpired => Some "Command timed out"
  | OtherException str_e => Some str_e
  end.

End WifiDiagnostics.

(** ** The chat client *)

Module Client.

(** *** Data *)

(** Parsed JSON: tool arguments and parameter schemas.  A number is kept
    as its literal. *)
Inductive json :=
| JNull
| JBool (b : bool)
| JNumber (literal : string)
| JString (s : string)
| JArray (items : list json)
| JObject (members : list (string * json)).

(** An MCP tool descriptor; [inputSchema] is [None] when the attribute is
    absent. *)
Record tool := {
  tool_name : string;
  tool_description : option string;
  inputSchema : option json
}.

(** A tool declaration in the backend's function-calling format. *)
Record openai_tool := {
  ot_type : string;
  fn_name : string;
  fn_description : option string;
  fn_parameters : json
}.

(** One tool call of a completion response: [tool_call.id],
    [tool_call.function.name], [tool_call.function.arguments]. *)
Record tool_call := {
  tc_id : string;
  tc_name : string;
  tc_arguments : string
}.

(** [response.choices[0].message]; [tool_calls] being [None] is the
    empty list. *)
Record message := {
  msg_content : option string;
  msg_tool_calls : list tool_call
}.

(** An element of [chat_history]: the three dictionaries that
    [chat_with_gpt] builds, and the response message object that it
    appends as it is when the message carries tool calls. *)
Inductive entry :=
| UserEntry (content : string)
| AssistantEntry (content : option string)
| AssistantMessage (message_obj : message)
| ToolEntry (tool_call_id : string) (content : string).

(** The arguments of [chat.completions.create]; an argument that is not
    passed and one passed as [None] are both [None]. *)
Record request := {
  req_messages : list entry;
  req_tools : option (list openai_tool);
  req_tool_choice : option string
}.

(** A content part of a tool result: it has a [text] attribute, or it is
    shown through [str]. *)
Inductive content_part :=
| TextContent (text : string)
| OtherContent (str_content : string).

(** What leaves the process, in order. *)
Inductive effect :=
| EvCompletion (req : request)
| EvStdioClient
| EvInitialize
| EvCallTool (name : string) (arguments : json)
| EvSessionClose
| EvSleep.

(** The fields of [MCPChatGPTClient] that the worker reads and writes,
    the two queues as lists (head = oldest), and the effects so far. *)
Record client := {
  openai_client : bool;
  mcp_tools : list (string * tool);
  chat_history : list entry;
  message_queue : list string;
  response_queue : list (string * option string);
  trace : list effect
}.

Definition set_chat_history (h : list entry) (s : client) : client :=
  {| openai_client := openai_client s; mcp_tools := mcp_tools s;
     chat_history := h; message_queue := message_queue s;
     response_queue := response_queue s; trace := trace s |}.

Definition set_message_queue (q : list string) (s : client) : client :=
  {| openai_client := openai_client s; mcp_tools := mcp_tools s;
     chat_history := chat_history s; message_queue := q;
     response_queue := response_queue s; trace := trace s |}.

Definition set_response_queue (q : list (string * option string))
    (s : client) : client :=
  {| openai_client := openai_client s; mcp_tools := mcp_tools s;
     chat_history := chat_history s; message_queue := message_queue s;
     response_queue := q; trace := trace s |}.

Definition set_trace (t : list effect) (s : client) : client :=
  {| openai_client := openai_client s; mcp_tools := mcp_tools s;
     chat_history := chat_history s; message_queue := message_queue s;
     response_queue := response_queue s; trace := t |}.

(** *** Exceptions, external calls and the monad of the worker *)

(** [queue.Empty] has a handler of its own; of any other exception only
    [str(e)] is observed. *)
Inductive exn :=
| QueueEmpty
| Exception (str_e : string).

Definition str_exn (e : exn) : string :=
  match e with
  | QueueEmpty => ""
  | Exception str_e => str_e
  end.

(** An awaited external call returns, raises, or never completes. *)
Inductive ext (A : Type) :=
| Done (a : A)
| Fails (str_e : string)
| Stuck.
Arguments Done {A} a.
Arguments Fails {A} str_e.
Arguments Stuck {A}.

(** A step of the worker from a state: it returns, raises, or never
    completes; the state reached is kept in each case. *)
Inductive outcome (A : Type) :=
| Ret (a : A) (s : client)
| Raise (e : exn) (s : client)
| Hang (s : client).
Arguments Ret {A} a s.
Arguments Raise {A} e s.
Arguments Hang {A} s.

Definition M (A : Type) : Type := client → outcome A.

#[global] Instance M_ret : MRet M := λ A a s, Ret a s.

#[global] Instance M_bind : MBind M := λ A B f m s,
  match m s with
  | Ret a s' => f a s'
  | Raise e s' => Raise e s'
  | Hang s' => Hang s'
  end.

Definition gets {A} (f : client → A) : M A := λ s, Ret (f s) s.

Definition modify (f : client → client) : M unit := λ s, Ret () (f s).

Definition raise {A} (e : exn) : M A := λ s, Raise e s.

(** [try: body  except Exception as e: handler e] *)
Definition try_except {A} (body : M A) (handler : exn → M A) : M A :=
  λ s, match body s with
       | Raise e s' => handler e s'
       | o => o
       end.

(** [try: body  except queue.Empty: handler] *)
Definition try_except_queue_empty {A} (body : M A) (handler : M A) : M A :=
  λ s, match body s with
       | Raise QueueEmpty s' => handler s'
       | o => o
       end.

(** [async with ...: body]: [on_exit] runs when the body returns and
    when it raises. *)
Definition async_with {A} (body : M A) (on_exit : M unit) : M A :=
  λ s, match body s with
       | Ret a s' => (on_exit;; mret a) s'
       | Raise e s' => (on_exit;; raise e) s'
       | Hang s' => Hang s'
       end.

Definition await {A} (x : ext A) : M A :=
  match x with
  | Done a => mret a
  | Fails str_e => raise (Exception str_e)
  | Stuck => λ s, Hang s
  end.

Definition emit (ev : effect) : M unit :=
  modify (λ s, set_trace (trace s ++ [ev]) s).

Fixpoint for_each {A} (l : list A) (body : A → M unit) : M unit :=
  match l with
  | [] => mret ()
  | x :: l' => body x;; for_each l' body
  end.

(** *** Strings *)

(** The line feed, the separator of ["\n".join]. *)
Definition newline : string := String "010"%char "".

(** The UTF-8 bytes of U+1F527, the wrench that starts the tool
    notification. *)
Definition wrench : string :=
  String "240"%char (String "159"%char (String "148"%char (String "167"%char ""))).

(** The value of a byte. *)
Definition byte (c : ascii) : N := N_of_ascii c.

(** The characters that [str.strip] and [str.split] take for whitespace,
    those for which [str.isspace] holds, by the length of their UTF-8
    encoding.  One byte: U+0009 to U+000D, U+001C to U+001F and the space
    U+0020. *)
Definition space1 (a : ascii) : bool :=
  ((9 <=? byte a) && (byte a <=? 13) || (28 <=? byte a) && (byte a <=? 32))%N.

(** Two bytes: U+0085 and U+00A0, that is C2 85 and C2 A0. *)
Definition space2 (a b : ascii) : bool :=
  ((byte a =? 194) && ((byte b =? 133) || (byte b =? 160)))%N.

(** Three bytes: U+1680 (E1 9A 80); U+2000 to U+200A, U+2028, U+2029 and
    U+202F (E2 80 80 to E2 80 8A, E2 80 A8, E2 80 A9, E2 80 AF); U+205F
    (E2 81 9F); U+3000 (E3 80 80). *)
Definition space3 (a b c : ascii) : bool :=
  ((byte a =? 225) && (byte b =? 154) && (byte c =? 128)
   || (byte a =? 226) && (byte b =? 128)
      && ((128 <=? byte c) && (byte c <=? 138)
          || (byte c =? 168) || (byte c =? 169) || (byte c =? 175))
   || (byte a =? 226) && (byte b =? 129) && (byte c =? 159)
   || (byte a =? 227) && (byte b =? 128) && (byte c =? 128))%N.

(** What follows the whitespace character that [s] starts with, if it
    starts with one. *)
Definition space_prefix (s : string) : option string :=
  match s with
  | String a t =>
      if space1 a then Some t else
      match t with
      | String b t2 =>
          if space2 a b then Some t2 else
          match t2 with
          | String c t3 => if space3 a b c then Some t3 else None
          | EmptyString => None
          end
      | EmptyString => None
      end
  | EmptyString => None
  end.

(** [str.lstrip()]: whitespace characters are dropped from the front
    while there is one; [n] bounds their number. *)
Fixpoint lstrip_go (n : nat) (s : string) : string :=
  match n with
  | S n' =>
      match space_prefix s with
      | Some rest => lstrip_go n' rest
      | None => s
      end
  | 0 => s
  end.

Definition lstrip (s : string) : string := lstrip_go (String.length s) s.

(** The string holds whitespace characters only. *)
Definition blank (s : string) : bool := String.eqb (lstrip s) "".

(** [str.rstrip()]: the string is cut where only whitespace follows.  In
    UTF-8 no whitespace character starts inside another character, so
    that point is the end of the last character that is not whitespace. *)
Fixpoint rstrip (s : string) : string :=
  match s with
  | String a t => if blank s then EmptyString else String a (rstrip t)
  | EmptyString => EmptyString
  end.

(** [str.strip()] *)
Definition strip (s : string) : string := rstrip (lstrip s).

(** The shutdown sentinel. *)
Definition QUIT : string := "QUIT".

(** *** The worker *)

Definition is_stdio_client (ev : effect) : bool :=
  match ev with EvStdioClient => true | _ => false end.

(** The requests sent to the backend, oldest first. *)
Definition completions (t : list effect) : list request :=
  omap (λ ev, match ev with EvCompletion req => Some req | _ => None end) t.

(** The provider sessions attempted so far. *)
Definition sessions (t : list effect) : nat :=
  length (filter (λ ev, is_stdio_client ev = true) t).

(** The tool calls that reached the provider, oldest first. *)
Definition tool_requests (t : list effect) : list (string * json) :=
  omap (λ ev, match ev with
              | EvCallTool name arguments => Some (name, arguments)
              | _ => None
              end) t.

Definition append_history (e : entry) : M unit :=
  modify (λ s, set_chat_history (chat_history s ++ [e]) s).

(** [self.response_queue.put((sender, message))] *)
Definition response_put (sender : string) (text : option string) : M unit :=
  modify (λ s, set_response_queue (response_queue s ++ [(sender, text)]) s).

(** [self.message_queue.get_nowait()] *)
Definition get_nowait : M string :=
  λ s, match message_queue s with
       | message :: q => Ret message (set_message_queue q s)
       | [] => Raise QueueEmpty s
       end.

(** [await asyncio.sleep(0.1)] *)
Definition asyncio_sleep : M unit := emit EvSleep.

(** The parameter schema used when a descriptor has none:
    [{"type": "object", "properties": {}}]. *)
Definition empty_object_schema : json :=
  JObject [("type", JString "object"); ("properties", JObject [])].

(** [mcp_tools_to_openai_format] *)
Definition mcp_tools_to_openai_format (tools : list (string * tool))
  : list openai_tool :=
  map (λ '(name, t),
         {| ot_type := "function";
            fn_name := name;
            fn_description := tool_description t;
            fn_parameters := default empty_object_schema (inputSchema t) |})
      tools.

(** The text of one content part. *)
Definition part_text (c : content_part) : string :=
  match c with
  | TextContent text => text
  | OtherContent str_content => str_content
  end.

Definition no_output : string := "Tool executed successfully (no output)".

(** The result text of [execute_mcp_tool] when [call_tool] returned. *)
Definition format_result (content : list content_part) : string :=
  match content with
  | [] => no_output
  | _ => String.concat newline (map part_text content)
  end.

Definition tool_error (tool_name str_e : string) : string :=
  "Error executing tool " +:+ tool_name +:+ ": " +:+ str_e.

(** The text that the broker returns for an answer of the provider
    session (nothing is returned while the session is stuck). *)
Definition tool_text (tool_name : string) (r : ext (list content_part))
  : string :=
  match r with
  | Done content => format_result content
  | Fails str_e => tool_error tool_name str_e
  | Stuck => ""
  end.

Definition chat_error (str_e : string) : string :=
  "Error communicating with ChatGPT: " +:+ str_e.

Definition worker_error (str_e : string) : string :=
  "Worker error: " +:+ str_e.

Inductive loop_ctl := Continue | Break.

Inductive worker_status := Running | Exited.

Section Worker.

(** [chat.completions.create(...).choices[0].message]; the first
    argument counts the earlier completion calls. *)
Variable completion : nat → request → ext message.

(** The tool provider, per session (numbered from 0): entering
    [stdio_client] and [ClientSession], [session.initialize()] and
    [session.call_tool(name, arguments)]. *)
Variable connect : nat → ext unit.
Variable initialize : nat → ext unit.
Variable call_tool : nat → string → json → ext (list content_part).

(** [json.loads]: the parsed value, or [str(e)] of the error raised. *)
Variable json_loads : string → json + string.

(** [str] of parsed arguments, as the f-string shows them. *)
Variable str_json : json → string.

(** [self.openai_client.chat.completions.create(...)]; with no client
    the attribute access raises. *)
Definition completions_create (req : request) : M message :=
  connected ← gets openai_client;
  if connected : bool then
    n ← gets (λ s, length (completions (trace s)));
    emit (EvCompletion req);;
    await (completion n req)
  else raise (Exception "'NoneType' object has no attribute 'chat'").

Definition tool_notification (tool_name : string) (arguments : json)
  : string :=
  wrench +:+ " Calling tool: " +:+ tool_name +:+ " with "
    +:+ str_json arguments.

Definition execute_mcp_tool (tool_name : string) (arguments : json)
  : M string :=
  try_except
    (n ← gets (λ s, sessions (trace s));
     emit EvStdioClient;;
     await (connect n);;
     async_with
       (emit EvInitialize;;
        await (initialize n);;
        emit (EvCallTool tool_name arguments);;
        content ← await (call_tool n tool_name arguments);
        mret (format_result content))
       (emit EvSessionClose))
    (λ e, mret (tool_error tool_name (str_exn e))).

(** The body of the [for tool_call in message_obj.tool_calls] loop. *)
Definition resolve_tool_call (tc : tool_call) : M unit :=
  arguments ← match json_loads (tc_arguments tc) with
              | inl v => mret v
              | inr str_e => raise (Exception str_e)
              end;
  response_put "tool" (Some (tool_notification (tc_name tc) arguments));;
  tool_result ← execute_mcp_tool (tc_name tc) arguments;
  append_history (ToolEntry (tc_id tc) tool_result).

(** The follow-up completion call, after the tool calls: no [tools]
    and no [tool_choice] are passed. *)
Definition final_response : M unit :=
  history ← gets chat_history;
  final ← completions_create
    {| req_messages := history;
       req_tools := None;
       req_tool_choice := None |};
  append_history (AssistantEntry (msg_content final));;
  response_put "assistant" (msg_content final).

(** The request of the first completion call of an exchange. *)
Definition first_request (history : list entry)
    (tools : list (string * tool)) : request :=
  {| req_messages := history;
     req_tools := match tools with
                  | [] => None
                  | ts => Some (mcp_tools_to_openai_format ts)
                  end;
     req_tool_choice := match tools with
                        | [] => None
                        | _ => Some "auto"
                        end |}.

(** The [try] block of [chat_with_gpt]. *)
Definition chat_with_gpt_body (message : string) : M unit :=
  append_history (UserEntry message);;
  tools ← gets mcp_tools;
  history ← gets chat_history;
  message_obj ← completions_create (first_request history tools);
  match msg_tool_calls message_obj with
  | [] =>
      append_history (AssistantEntry (msg_content message_obj));;
      response_put "assistant" (msg_content message_obj)
  | tool_calls =>
      append_history (AssistantMessage message_obj);;
      for_each tool_calls resolve_tool_call;;
      final_response
  end.

Definition chat_with_gpt (message : string) : M unit :=
  try_except (chat_with_gpt_body message)
    (λ e, response_put "error" (Some (chat_error (str_exn e)))).

(** One turn of the [while True] loop of [async_worker]. *)
Definition worker_iteration : M loop_ctl :=
  try_except
    (ctl ← try_except_queue_empty
             (message ← get_nowait;
              if String.eqb message QUIT then mret Break
              else (chat_with_gpt message;; mret Continue))
             (mret Continue);
     match ctl with
     | Break => mret Break
     | Continue => asyncio_sleep;; mret Continue
     end)
    (λ e, response_put "error" (Some (worker_error (str_exn e)));;
          mret Continue).

(** [self.message_queue.put] by the interface thread: the messages
    that arrived since the worker last looked at the queue. *)
Definition enqueue (arrivals : list string) : M unit :=
  modify (λ s, set_message_queue (message_queue s ++ arrivals) s).

(** [async_worker] along a schedule: one turn of the loop per element,
    which lists the messages enqueued since the previous turn (during
    the previous exchange or the idle wait).  [Running] means the loop
    is still turning when the schedule ends. *)
Fixpoint async_worker (schedule : list (list string)) : M worker_status :=
  match schedule with
  | [] => mret Running
  | arrivals :: schedule' =>
      enqueue arrivals;;
      ctl ← worker_iteration;
      match ctl with
      | Break => mret Exited
      | Continue => async_worker schedule'
      end
  end.

(** What the provider session number [n] answers to a call: the
    first of [connect], [initialize] and [call_tool] that does not
    return decides. *)
Definition session_result (n : nat) (tool_name : string)
    (arguments : json) : ext (list content_part) :=
  match connect n with
  | Done _ =>
      match initialize n with
      | Done _ => call_tool n tool_name arguments
      | Fails str_e => Fails str_e
      | Stuck => Stuck
      end
  | Fails str_e => Fails str_e
  | Stuck => Stuck
  end.

(** The effects of that session. *)
Definition session_trace (n : nat) (tool_name : string)
    (arguments : json) : list effect :=
  match connect n with
  | Done _ =>
      match initialize n with
      | Done _ =>
          match call_tool n tool_name arguments with
          | Stuck => [EvStdioClient; EvInitialize;
                      EvCallTool tool_name arguments]
          | _ => [EvStdioClient; EvInitialize;
                  EvCallTool tool_name arguments; EvSessionClose]
          end
      | Fails _ => [EvStdioClient; EvInitialize; EvSessionClose]
      | Stuck => [EvStdioClient; EvInitialize]
      end
  | _ => [EvStdioClient]
  end.

(** Every call to the provider returns or raises. *)
Definition provider_responsive : Prop :=
  (∀ n, connect n ≠ Stuck)
  ∧ (∀ n, initialize n ≠ Stuck)
  ∧ (∀ n tool_name arguments, call_tool n tool_name arguments ≠ Stuck).

(** Every external call returns or raises. *)
Definition responsive : Prop :=
  (∀ n req, completion n req ≠ Stuck) ∧ provider_responsive.

(** Tool calls with their parsed arguments. *)
Definition parsed (call : tool_call * json) : Prop :=
  json_loads (tc_arguments call.1) = inl call.2.

(** The notification put on the outbound queue for each call. *)
Definition notifications (calls : list (tool_call * json))
  : list (string * option string) :=
  map (λ call, ("tool", Some (tool_notification (tc_name call.1) call.2)))
      calls.

(** The tool entries for a list of calls, when the sessions are numbered
    from [n]. *)
Fixpoint resolved_entries (n : nat) (calls : list (tool_call * json))
  : list entry :=
  match calls with
  | [] => []
  | call :: calls' =>
      ToolEntry (tc_id call.1)
        (tool_text (tc_name call.1)
           (session_result n (tc_name call.1) call.2))
      :: resolved_entries (S n) calls'
  end.

(** One full exchange and the idle wait after it, as the loop runs
    them for a message that is not the sentinel. *)
Definition exchange_then_sleep (message : string) : M unit :=
  chat_with_gpt message;; asyncio_sleep.

End Worker.

(** *** The interface thread: what it puts on the inbound queue *)

(** The input field and the chat window; a displayed line is kept as
    (sender, message), without its timestamp. *)
Record gui := {
  input_entry : string;
  chat_display : list (string * string)
}.

Definition display_message (message sender : string) (g : gui) : gui :=
  {| input_entry := input_entry g;
     chat_display := chat_display g ++ [(sender, message)] |}.

Definition not_connected : string :=
  "OpenAI API not connected. Please check your API key.".

(** [send_message_sync] *)
Definition send_message_sync (g : gui) (s : client) : gui * client :=
  let message := strip (input_entry g) in
  match message with
  | EmptyString => (g, s)
  | _ =>
      let g1 := display_message message "user"
                  {| input_entry := ""; chat_display := chat_display g |} in
      if openai_client s
      then (g1, set_message_queue (message_queue s ++ [message]) s)
      else (display_message not_connected "error" g1, s)
  end.

(** [on_closing], as far as the inbound queue goes. *)
Definition on_closing (s : client) : client :=
  set_message_queue (message_queue s ++ [QUIT]) s.

(** *** Observations on a state *)

(** The contents of the entries with role [user], oldest first. *)
Definition user_contents (h : list entry) : list string :=
  omap (λ e, match e with UserEntry content => Some content | _ => None end) h.

(** The entries with role [tool], oldest first. *)
Definition tool_entries (h : list entry) : list (string * string) :=
  omap (λ e, match e with
             | ToolEntry tool_call_id content => Some (tool_call_id, content)
             | _ => None
             end) h.

(** The texts of the outbound events of kind [error], oldest first. *)
Definition error_events (q : list (string * option string))
  : list (option string) :=
  omap (λ ev, if String.eqb (fst ev) "error" then Some (snd ev) else None) q.

(** [s'] is [s] with entries, events and effects appended, and nothing
    else changed. *)
Definition step_of (s s' : client) (dh : list entry)
    (dr : list (string * option string)) (dt : list effect) : Prop :=
  openai_client s' = openai_client s
  ∧ mcp_tools s' = mcp_tools s
  ∧ message_queue s' = message_queue s
  ∧ chat_history s' = chat_history s ++ dh
  ∧ response_queue s' = response_queue s ++ dr
  ∧ trace s' = trace s ++ dt.

(** The state an outcome stopped in. *)
Definition final_state {A} (o : outcome A) : client :=
  match o with
  | Ret _ s => s
  | Raise _ s => s
  | Hang s => s
  end.

Definition raised {A} (o : outcome A) : bool :=
  match o with Raise _ _ => true | _ => false end.

Definition hung {A} (o : outcome A) : bool :=
  match o with Hang _ => true | _ => false end.

(** The same outcome, in a state changed by [f]. *)
Definition map_state {A} (f : client → client) (o : outcome A) : outcome A :=
  match o with
  | Ret a s => Ret a (f s)
  | Raise e s => Raise e (f s)
  | Hang s => Hang (f s)
  end.

Definition set_mcp_tools (tools : list (string * tool)) (s : client)
  : client :=
  {| openai_client := openai_client s; mcp_tools := tools;
     chat_history := chat_history s; message_queue := message_queue s;
     response_queue := response_queue s; trace := trace s |}.

(** A computation that leaves the client record alone but for appending
    entries that are not user entries, events that are not error events,
    and effects. *)
Definition quiet {A} (m : M A) : Prop :=
  ∀ s, ∃ dh dr dt,
    step_of s (final_state (m s)) dh dr dt
    ∧ user_contents dh = [] ∧ error_events dr = [].

(** A computation that always returns or raises. *)
Definition live {A} (m : M A) : Prop := ∀ s, hung (m s) = false.

(** A computation that neither reads nor writes the inbound queue. *)
Definition queue_frame {A} (m : M A) : Prop :=
  ∀ q s, m (set_message_queue q s) = map_state (set_message_queue q) (m s).

(** *** Scripted collaborators, for closed examples *)

(** A parser that agrees with [json.loads] on the two argument strings
    of the examples: the empty object, and an unclosed brace. *)
Definition demo_json_loads (text : string) : json + string :=
  if String.eqb text "{}" then inl (JObject [])
  else inr "Expecting property name enclosed in double quotes: line 1 column 2 (char 1)".

(** [str] of the empty dictionary; other values do not occur. *)
Definition demo_str_json (v : json) : string :=
  match v with
  | JObject [] => "{}"
  | _ => "..."
  end.

(** A client that is connected to the backend, with nothing queued. *)
Definition fresh_client (tools : list (string * tool)) : client :=
  {| openai_client := true; mcp_tools := tools; chat_history := [];
     message_queue := []; response_queue := []; trace := [] |}.

Definition get_status_tool : tool :=
  {| tool_name := "get_status";
     tool_description := Some "Report the adapter status";
     inputSchema := None |}.

Definition get_status_call (arguments : string) : tool_call :=
  {| tc_id := "call_1"; tc_name := "get_status"; tc_arguments := arguments |}.

Definition wants_tool (arguments : string) : message :=
  {| msg_content := None; msg_tool_calls := [get_status_call arguments] |}.

Definition says (text : string) : message :=
  {| msg_content := Some text; msg_tool_calls := [] |}.

(** A backend that asks for one [get_status] call with the given argument
    string, then answers in plain text. *)
Definition demo_completion (arguments : string) (n : nat) (req : request)
  : ext message :=
  match n with
  | 0 => Done (wants_tool arguments)
  | _ => Done (says "fine")
  end.

(** A backend that answers every message in plain text. *)
Definition plain_completion (n : nat) (req : request) : ext message :=
  Done (says "fine").

(** A backend that never answers. *)
Definition silent_completion (n : nat) (req : request) : ext message := Stuck.

(** A backend that cannot be reached. *)
Definition failing_completion (n : nat) (req : request) : ext message :=
  Fails "Connection error.".

(** A provider step that always goes through. *)
Definition goes_through (n : nat) : ext unit := Done ().

(** A provider whose [call_tool] always ends the same way. *)
Definition answering (x : ext (list content_part)) (n : nat)
    (tool_name : string) (arguments : json) : ext (list content_part) := x.

(** The value returned, if the computation returned. *)
Definition returned {A} (o : outcome A) : option A :=
  match o with
  | Ret a _ => Some a
  | _ => None
  end.

End Client.

(** ** Setting the client up *)

Module Setup.

Import Client.

(** [d[k] = v] on a dictionary kept in insertion order: the value of an
    existing key is replaced in place, a new key goes to the end. *)
Fixpoint dict_set {V} (k : string) (v : V) (d : list (string * V))
  : list (string * V) :=
  match d with
  | [] => [(k, v)]
  | (k', v') :: d' =>
      if String.eqb k' k then (k', v) :: d'
      else (k', v') :: dict_set k v d'
  end.

(** [d.get(k)] *)
Fixpoint dict_get {V} (k : string) (d : list (string * V)) : option V :=
  match d with
  | [] => None
  | (k', v') :: d' => if String.eqb k' k then Some v' else dict_get k d'
  end.

(** [{tool.name: tool for tool in tools}] *)
Definition tools_by_name (tools : list tool) : list (string * tool) :=
  fold_left (λ d t, dict_set (tool_name t) t d) tools [].

(** The piece read so far, if there is one. *)
Definition piece (cur : string) : list string :=
  match cur with
  | EmptyString => []
  | _ => [cur]
  end.

(** [str.split()]: the maximal runs of characters that are not
    whitespace; [cur] is the run being read and [n] bounds the number of
    steps. *)
Fixpoint split_go (n : nat) (cur s : string) : list string :=
  match n, s with
  | S n', String a t =>
      match space_prefix s with
      | Some rest => piece cur ++ split_go n' EmptyString rest
      | None => split_go n' (cur +:+ String a EmptyString) t
      end
  | _, _ => piece cur
  end.

(** The pieces of [s] when the run [cur] has been read before it; the
    length of [s] is enough steps. *)
Definition split_from (cur s : string) : list string :=
  split_go (String.length s) cur s.

Definition split (s : string) : list string := split_from EmptyString s.

(** No whitespace character starts anywhere in [s]. *)
Fixpoint no_space (s : string) : bool :=
  match s with
  | String a t =>
      match space_prefix s with
      | Some _ => false
      | None => no_space t
      end
  | EmptyString => true
  end.

(** A piece of a split command: not empty, and free of whitespace. *)
Definition piece_ok (p : string) : Prop :=
  p ≠ EmptyString ∧ no_space p = true.

(** No whitespace character starts inside [cur], not even one that would
    end in [s]. *)
Definition unbroken (cur s : string) : Prop :=
  ∀ x y, cur = x +:+ y → y ≠ EmptyString → space_prefix (y +:+ s) = None.

(** The UTF-8 bytes of U+1F389 and of U+26A0 U+FE0F, which start the two
    final status messages. *)
Definition party : string :=
  String "240"%char (String "159"%char (String "142"%char (String "137"%char ""))).

Definition warning : string :=
  String "226"%char (String "154"%char (String "160"%char (String "239"%char (String "184"%char (String "143"%char ""))))).

(** The client with the two attributes that only the set-up writes. *)
Record setup := {
  su_client : client;
  status_queue : list string;
  mcp_server_params : option (string * list string)
}.

(** A set-up function returns or never completes. *)
Inductive finished (A : Type) :=
| Finished (result : A) (s : setup)
| Pending (s : setup).
Arguments Finished {A} result s.
Arguments Pending {A} s.

(** The state a set-up function stopped in. *)
Definition state_of {A} (f : finished A) : setup :=
  match f with
  | Finished _ s => s
  | Pending s => s
  end.

(** A step inside a [try] block of the set-up: it returns, raises (of
    the exception only [str(e)] is observed), or never completes. *)
Inductive stage (A : Type) :=
| Returned (a : A) (s : setup)
| Raised (str_e : string) (s : setup)
| Held (s : setup).
Arguments Returned {A} a s.
Arguments Raised {A} str_e s.
Arguments Held {A} s.

Definition Stage (A : Type) : Type := setup → stage A.

#[global] Instance Stage_ret : MRet Stage := λ A a s, Returned a s.

#[global] Instance Stage_bind : MBind Stage := λ A B f m s,
  match m s with
  | Returned a s' => f a s'
  | Raised str_e s' => Raised str_e s'
  | Held s' => Held s'
  end.

Definition update (f : setup → setup) : Stage unit := λ s, Returned () (f s).

Definition look {A} (f : setup → A) : Stage A := λ s, Returned (f s) s.

Definition fail_with {A} (str_e : string) : Stage A := λ s, Raised str_e s.

(** An awaited call of the MCP SDK. *)
Definition call {A} (x : ext A) : Stage A :=
  match x with
  | Done a => mret a
  | Fails str_e => fail_with str_e
  | Stuck => λ s, Held s
  end.

(** [async with cm: body], where [enter] and [leave] are what entering
    and leaving the context manager do.  Leaving runs when the body
    returned and when it raised; an exception raised on leaving replaces
    the one of the body.  The context managers of the MCP SDK do not
    swallow an exception of the body. *)
Definition entered {A} (enter leave : ext unit) (body : Stage A) : Stage A :=
  λ s, match enter with
       | Done _ =>
           match body s with
           | Returned a s' => (call leave;; mret a) s'
           | Raised str_e s' => (call leave;; fail_with str_e) s'
           | Held s' => Held s'
           end
       | Fails str_e => Raised str_e s
       | Stuck => Held s
       end.

Definition status_put (text : string) (s : setup) : setup :=
  {| su_client := su_client s;
     status_queue := status_queue s ++ [text];
     mcp_server_params := mcp_server_params s |}.

Definition set_client (c : client) (s : setup) : setup :=
  {| su_client := c; status_queue := status_queue s;
     mcp_server_params := mcp_server_params s |}.

Definition set_params (p : string * list string) (s : setup) : setup :=
  {| su_client := su_client s; status_queue := status_queue s;
     mcp_server_params := Some p |}.

Definition set_openai_client (b : bool) (c : client) : client :=
  {| openai_client := b; mcp_tools := mcp_tools c;
     chat_history := chat_history c; message_queue := message_queue c;
     response_queue := response_queue c; trace := trace c |}.

Definition mcp_failed (str_e : string) : string :=
  "MCP connection failed: " +:+ str_e.

Definition mcp_connected (names : list string) : string :=
  "MCP connected. Available tools: " +:+ String.concat ", " names.

Definition openai_failed (str_e : string) : string :=
  "OpenAI API connection failed: " +:+ str_e.

(** The provider as [initialize_mcp] meets it: what entering and leaving
    [stdio_client(...)] and [ClientSession(...)] do, and what
    [session.initialize()] and [session.list_tools()] answer. *)
Record provider := {
  stdio_client_enter : ext unit;
  session_enter : ext unit;
  session_initialize : ext unit;
  session_list_tools : ext (list tool);
  session_exit : ext unit;
  stdio_client_exit : ext unit
}.

(** The [try] block of [initialize_mcp]. *)
Definition initialize_mcp_try (p : provider) (server_command : list string)
  : Stage bool :=
  update (status_put "Connecting to MCP server...");;
  params ← match server_command with
           | [] => fail_with "list index out of range"
           | command :: args => mret (command, args)
           end;
  update (set_params params);;
  entered (stdio_client_enter p) (stdio_client_exit p)
    (entered (session_enter p) (session_exit p)
       (call (session_initialize p);;
        tools_result ← call (session_list_tools p);
        update (λ s, set_client
                       (set_mcp_tools (tools_by_name tools_result)
                          (su_client s)) s)));;
  names ← look (λ s, (mcp_tools (su_client s)).*1);
  update (status_put (mcp_connected names));;
  mret true.

(** [initialize_mcp] *)
Definition initialize_mcp (p : provider) (server_command : list string)
    (s : setup) : finished bool :=
  match initialize_mcp_try p server_command s with
  | Returned result s' => Finished result s'
  | Raised str_e s' => Finished false (status_put (mcp_failed str_e) s')
  | Held s' => Pending s'
  end.

(** [initialize_openai]; [construct] is [openai.OpenAI(api_key=...)] and
    [models_list] is the test call [models.list()]. *)
Definition initialize_openai (construct : string → ext unit)
    (models_list : ext unit) (api_key : string) (s : setup)
  : finished bool :=
  let s1 := status_put "Connecting to OpenAI API..." s in
  match construct api_key with
  | Fails str_e => Finished false (status_put (openai_failed str_e) s1)
  | Stuck => Pending s1
  | Done _ =>
      let s2 := set_client (set_openai_client true (su_client s1)) s1 in
      match models_list with
      | Fails str_e => Finished false (status_put (openai_failed str_e) s2)
      | Stuck => Pending s2
      | Done _ =>
          Finished true (status_put "OpenAI API connected successfully" s2)
      end
  end.

(** [init_mcp], the function that [get_mcp_command] runs in a thread of
    its own: the command is split on whitespace, the provider is
    contacted, and the outcome is reported on the status queue. *)
Definition init_mcp (p : provider) (server_command : string) (s : setup)
  : finished unit :=
  match initialize_mcp p (split server_command) s with
  | Finished true s' =>
      Finished ()
        (status_put
           (party +:+ " Ready! You can now chat with ChatGPT using MCP tools.")
           s')
  | Finished false s' =>
      Finished ()
        (status_put
           (warning +:+ " ChatGPT ready, but MCP tools unavailable") s')
  | Pending s' => Pending s'
  end.

(** [get_mcp_command]; [askstring] is what the dialog does: it returns
    the text entered, or [None] when it is dismissed.  The thread that is
    started is followed to its end. *)
Definition get_mcp_command (askstring : ext (option string)) (p : provider)
    (s : setup) : finished unit :=
  match askstring with
  | Done (Some server_command) =>
      if String.eqb server_command "" then
        Finished () (status_put (warning +:+ " ChatGPT ready (no MCP tools)") s)
      else init_mcp p server_command s
  | Done None =>
      Finished () (status_put (warning +:+ " ChatGPT ready (no MCP tools)") s)
  | Fails str_e => Finished () (status_put ("MCP setup error: " +:+ str_e) s)
  | Stuck => Pending s
  end.

(** A client that has not been set up, with empty status queue. *)
Definition fresh_setup : setup :=
  {| su_client :=
       {| openai_client := false; mcp_tools := []; chat_history := [];
          message_queue := []; response_queue := []; trace := [] |};
     status_queue := [];
     mcp_server_params := None |}.

(** A constructor of the backend client that accepts every key. *)
Definition any_key (api_key : string) : ext unit := Done ().

(** A provider whose session goes through and lists [tools], and which is
    left as [session_exit] says. *)
Definition listing_provider (tools : list tool) (session_exit : ext unit)
  : provider :=
  {| stdio_client_enter := Done (); session_enter := Done ();
     session_initialize := Done (); session_list_tools := Done tools;
     session_exit := session_exit; stdio_client_exit := Done () |}.

End Setup.

(** Bounds on what a computation of the worker sends out: at most [c]
    completion calls and at most [k] provider sessions, however it
    ends. *)
Module Bounds.

Import Client.

Definition effects_within (c k : nat) {A} (m : M A) : Prop :=
  ∀ s, ∃ dt,
    trace (final_state (m s)) = trace s ++ dt
    ∧ (length (completions dt) ≤ c)%nat
    ∧ (sessions dt ≤ k)%nat.

End Bounds.

(** ** The diagnostic tools of the provider *)

Module Diagnostics.

Import WifiDiagnostics.

(** *** Strings *)

(** [needle in s] *)
Fixpoint contains (needle s : string) : bool :=
  String.prefix needle s
  || match s with
     | String _ s' => contains needle s'
     | EmptyString => false
     end.

(** [s.split(sep)] for a separator of one character. *)
Fixpoint split_on (sep : ascii) (s : string) : list string :=
  match s with
  | EmptyString => [EmptyString]
  | String c s' =>
      if Ascii.eqb c sep then EmptyString :: split_on sep s'
      else match split_on sep s' with
           | piece :: pieces => String c piece :: pieces
           | [] => [String c EmptyString]
           end
  end.

(** [c in s] for one character. *)
Fixpoint has_char (c : ascii) (s : string) : bool :=
  match s with
  | EmptyString => false
  | String c' s' => Ascii.eqb c' c || has_char c s'
  end.

(** [str.lower] as a test for a word in ASCII letters sees it: the
    letters A to Z become a to z, and every other byte is left as it is.
    On a character outside ASCII Python gives characters outside ASCII
    again, but for U+0130, which becomes an i followed by U+0307, and
    U+212A, which becomes a k; neither makes the word [disconnected]
    appear or disappear. *)
Definition lower_char (c : ascii) : ascii :=
  let n := nat_of_ascii c in
  if ((65 <=? n) && (n <=? 90))%nat then ascii_of_nat (n + 32) else c.

Fixpoint lower (s : string) : string :=
  match s with
  | EmptyString => EmptyString
  | String c s' => String (lower_char c) (lower s')
  end.

Definition colon : ascii := ":"%char.

(** The double quote. *)
Definition dquote : string := String "034"%char "".

(** A script of several lines. *)
Definition script (lines : list string) : string :=
  String.concat Client.newline lines.

(** The PowerShell scripts, line by line as in the source. *)
Definition adapter_script : string :=
  script
    ["";
     "        Get-NetAdapter -Name '*Wi-Fi*', '*Wireless*' | ";
     "        Select-Object Name, Status, LinkSpeed, DriverVersion | ";
     "        ConvertTo-Json";
     "    "].

Definition connectivity_script : string :=
  script
    ["";
     "        $tests = @()";
     "        $tests += Test-NetConnection -ComputerName 8.8.8.8 -InformationLevel Detailed | ";
     "                  Select-Object ComputerName, PingSucceeded, NameResolutionSucceeded";
     "        $tests += Test-NetConnection -ComputerName google.com -Port 443 -InformationLevel Detailed |";
     "                  Select-Object ComputerName, TcpTestSucceeded";
     "        $tests | ConvertTo-Json";
     "    "].

Definition dhcp_script : string :=
  script
    ["";
     "        Get-NetIPConfiguration | Where-Object {$_.InterfaceAlias -like '*Wi-Fi*' -or $_.InterfaceAlias -like '*Wireless*'} | ";
     "        Select-Object InterfaceAlias, IPv4Address, IPv4DefaultGateway, DNSServer |";
     "        ConvertTo-Json";
     "    "].

Definition auth_events_script : string :=
  script
    ["";
     "        Get-WinEvent -FilterHashtable @{";
     "            LogName='Microsoft-Windows-WLAN-AutoConfig/Operational'";
     "            ID=8001,8002,8003,11001";
     "        } -MaxEvents 20 -ErrorAction SilentlyContinue |";
     "        Select-Object TimeCreated, Id, Message |";
     "        ConvertTo-Json";
     "    "].

Definition certificates_script : string :=
  script
    ["";
     "        $certs = @()";
     "        $certs += Get-ChildItem Cert:\LocalMachine\My | ";
     "                  Where-Object {$_.NotAfter -lt (Get-Date).AddDays(30)} |";
     "                  Select-Object Subject, NotAfter, Thumbprint";
     "        $certs += Get-ChildItem Cert:\CurrentUser\My | ";
     "                  Where-Object {$_.NotAfter -lt (Get-Date).AddDays(30)} |";
     "                  Select-Object Subject, NotAfter, Thumbprint";
     "        $certs | ConvertTo-Json";
     "    "].

Definition signal_script : string :=
  script
    ["";
     "        netsh wlan show interfaces | Select-String 'Signal' | ForEach-Object { $_.ToString().Trim() }";
     "    "].

Definition driver_script : string :=
  script
    ["";
     "        Get-NetAdapter -Name '*Wi-Fi*', '*Wireless*' | ";
     "        Get-NetAdapterAdvancedProperty |";
     "        Select-Object DisplayName, DisplayValue |";
     "        ConvertTo-Json";
     "    "].

Definition restart_adapter_script : string :=
  script
    ["";
     "        Get-NetAdapter -Name '*Wi-Fi*', '*Wireless*' | Restart-NetAdapter";
     "    "].

(** *** Commands *)

(** One call of [run_command]. *)
Record call := {
  call_cmd : list string;
  call_shell : bool
}.

(** A tool from the commands run so far: the value returned or the
    message of the exception raised, and the commands run. *)
Definition P (A : Type) : Type := list call → py A * list call.

#[global] Instance P_ret : MRet P := λ A a log, (Returns a, log).

#[global] Instance P_bind : MBind P := λ A B f m log,
  match m log with
  | (Returns a, log') => f a log'
  | (Raises str_e, log') => (Raises str_e, log')
  end.

Definition throw {A} (str_e : string) : P A := λ log, (Raises str_e, log).

(** [str(KeyError(key))] *)
Definition key_error (key : string) : string := "'" +:+ key +:+ "'".

Definition index_error : string := "list index out of range".

(** [d[key]] *)
Definition getitem (d : gmap string pyval) (key : string) : P pyval :=
  match d !! key with
  | Some v => mret v
  | None => throw (key_error key)
  end.

(** The truth value of a value. *)
Definition truthy (v : pyval) : bool :=
  match v with
  | PyBool b => b
  | PyStr s => negb (String.eqb s "")
  end.

(** A value used as a string, through the method [attr]. *)
Definition as_str (attr : string) (v : pyval) : P string :=
  match v with
  | PyStr s => mret s
  | PyBool _ => throw ("'bool' object has no attribute '" +:+ attr +:+ "'")
  end.

(** [d.get(key, "")] *)
Definition get_or_empty (d : gmap string pyval) (key : string) : pyval :=
  default (PyStr "") (d !! key).

Record wifi_status := {
  interfaces : gmap string pyval;
  profiles : gmap string pyval;
  adapters : gmap string pyval
}.

Record connection := {
  ipconfig : gmap string pyval;
  connectivity : gmap string pyval;
  dns : gmap string pyval;
  dhcp : gmap string pyval
}.

Record authentication := {
  auth_events : gmap string pyval;
  certificates : gmap string pyval;
  profile_details : option (list (string * gmap string pyval))
}.

Record environment := {
  available_networks : gmap string pyval;
  signal_strength : gmap string pyval;
  driver_settings : gmap string pyval
}.

(** The dictionary of [_fix_common_issues]; [ip_renewal] and [summary] are
    flattened. *)
Record fixes := {
  adapter_reset : gmap string pyval;
  dns_flush : gmap string pyval;
  ip_renewal_release : gmap string pyval;
  ip_renewal_renew : gmap string pyval;
  tcp_reset : gmap string pyval;
  winsock_reset : gmap string pyval;
  fixes_applied : list string;
  restart_required : bool
}.

(** The dictionary of [_generate_diagnostic_report]; [diagnostics] and
    [summary] are flattened, [system_info] is the empty dictionary. *)
Record report := {
  timestamp : string;
  wifi_report_generated : pyval;
  wifi_report_path : option string;
  diag_status : wifi_status;
  diag_connection : connection;
  diag_authentication : authentication;
  diag_environment : environment;
  issues_found : list string;
  total_issues : nat;
  summary_status : string
}.

(** The truth value of a parsed JSON value; whether a number is zero is
    left to [number_is_zero]. *)
Definition json_truthy (number_is_zero : string → bool) (v : Client.json)
  : bool :=
  match v with
  | Client.JNull => false
  | Client.JBool b => b
  | Client.JNumber literal => negb (number_is_zero literal)
  | Client.JString s => negb (String.eqb s "")
  | Client.JArray items => match items with [] => false | _ => true end
  | Client.JObject members => match members with [] => false | _ => true end
  end.

(** The standard output of a completed process. *)
Definition stdout_of (o : run_outcome) : option string :=
  match o with
  | CompletedProcess _ stdout _ => Some stdout
  | _ => None
  end.

(** A dictionary of [run_command] as far as [stdout] goes: the key is
    absent, or it holds a string. *)
Definition stdout_ok (d : gmap string pyval) : Prop :=
  d !! "stdout" = None ∨ ∃ text, d !! "stdout" = Some (PyStr text).

(** The standard output in a dictionary when it is there and not empty. *)
Definition shown_stdout (d : gmap string pyval) : option string :=
  match d !! "stdout" with
  | Some (PyStr text) => if String.eqb text "" then None else Some text
  | _ => None
  end.

(** A line of the profile listing that is taken for a profile but has no
    colon to split on. *)
Definition malformed (line : string) : Prop :=
  contains "All User Profile" line = true ∧ has_char colon line = false.

(** A profile name as extracted: no colon, no whitespace at either end. *)
Definition clean_name (name : string) : Prop :=
  has_char colon name = false
  ∧ Client.lstrip name = name ∧ Client.rstrip name = name.

(** [name] is what the authentication check takes from [line]: the text
    between the first colon of the line and the next one, or the end of
    the line, stripped. *)
Definition name_in (line name : string) : Prop :=
  ∃ before raw rest,
    line = before +:+ String colon (raw +:+ rest)
    ∧ has_char colon before = false
    ∧ has_char colon raw = false
    ∧ (rest = EmptyString ∨ ∃ rest', rest = String colon rest')
    ∧ name = Client.strip raw.

(** [c] is the small letter [p] or its capital. *)
Definition either_case (p c : ascii) : Prop :=
  c = p ∨ nat_of_ascii c + 32 = nat_of_ascii p.

(** [w] spells [word], which is in small letters, in any letter case. *)
Fixpoint spells (word w : string) : Prop :=
  match word, w with
  | EmptyString, EmptyString => True
  | String p word', String c w' => either_case p c ∧ spells word' w'
  | _, _ => False
  end.

(** [word] is made of the letters a to z. *)
Fixpoint small_letters (word : string) : bool :=
  match word with
  | EmptyString => true
  | String p word' =>
      (97 <=? nat_of_ascii p)%nat && (nat_of_ascii p <=? 122)%nat
      && small_letters word'
  end.

(** [word] occurs in [text], in any letter case. *)
Definition occurs_in_any_case (word text : string) : Prop :=
  ∃ before w after, text = before +:+ w +:+ after ∧ spells word w.

(** [word] occurs in [text]. *)
Definition occurs (word text : string) : Prop :=
  ∃ before after, text = before +:+ word +:+ after.

(** The parsed JSON values that Python takes for false: [None], [False],
    a zero, and the empty string, list and dictionary. *)
Definition falsy (number_is_zero : string → bool) (v : Client.json) : Prop :=
  v = Client.JNull ∨ v = Client.JBool false ∨ v = Client.JString ""
  ∨ v = Client.JArray [] ∨ v = Client.JObject []
  ∨ ∃ literal, v = Client.JNumber literal ∧ number_is_zero literal = true.

(** [if x: l.append(label)] *)
Definition append_if (b : bool) (label : string) (l : list string)
  : list string :=
  if b then l ++ [label] else l.

Section Tools.

(** [subprocess.run]; the first argument counts the earlier calls, the
    last is the [timeout] in seconds. *)
Variable subprocess_run : nat → list string → bool → Z → run_outcome.

(** [datetime.datetime.now().isoformat()] *)
Variable now_isoformat : string.

(** [os.environ] *)
Variable environ : gmap string string.

(** [str(Path(root) / part / ...)] *)
Variable path_str : string → list string → string.

(** [json.loads]: the parsed value, or [str(e)] of the error raised. *)
Variable json_loads : string → Client.json + string.

Variable number_is_zero : string → bool.

(** [run_command(cmd, shell)] as one more call. *)
Definition run (cmd : list string) (shell : bool) : P (gmap string pyval) :=
  λ log, (run_command (subprocess_run (length log)) cmd shell,
          log ++ [{| call_cmd := cmd; call_shell := shell |}]).

(** [run_powershell(script)] as one more call. *)
Definition powershell (text : string) : P (gmap string pyval) :=
  λ log, (run_powershell (subprocess_run (length log)) text,
          log ++ [{| call_cmd := ["powershell"; "-NoProfile"; "-Command";
                                  text];
                     call_shell := false |}]).

(** [_check_wifi_status] *)
Definition check_wifi_status : P wifi_status :=
  interfaces ← run ["netsh"; "wlan"; "show"; "interfaces"] false;
  current_profile ← run ["netsh"; "wlan"; "show"; "profiles"] false;
  adapter_info ← powershell adapter_script;
  mret {| interfaces := interfaces; profiles := current_profile;
          adapters := adapter_info |}.

(** [_diagnose_connection_issues] *)
Definition diagnose_connection_issues : P connection :=
  ipconfig ← run ["ipconfig"; "/all"] false;
  connectivity ← powershell connectivity_script;
  dns_test ← run ["nslookup"; "google.com"] false;
  dhcp_info ← powershell dhcp_script;
  mret {| ipconfig := ipconfig; connectivity := connectivity;
          dns := dns_test; dhcp := dhcp_info |}.

(** [line.split(":")[1].strip()] *)
Definition profile_name (line : string) : P string :=
  match split_on colon line with
  | _ :: name :: _ => mret (Client.strip name)
  | _ => throw index_error
  end.

(** The loop over the lines of the profile listing. *)
Fixpoint profile_names (lines : list string) : P (list string) :=
  match lines with
  | [] => mret []
  | line :: lines' =>
      if contains "All User Profile" line then
        name ← profile_name line;
        names ← profile_names lines';
        mret (name :: names)
      else profile_names lines'
  end.

Definition show_profile (name : string) : list string :=
  ["netsh"; "wlan"; "show"; "profile";
   "name=" +:+ dquote +:+ name +:+ dquote; "key=clear"].

(** The loop over the first profile names. *)
Fixpoint profile_details_of (names : list string)
    (details : list (string * gmap string pyval))
  : P (list (string * gmap string pyval)) :=
  match names with
  | [] => mret details
  | name :: names' =>
      detail ← run (show_profile name) false;
      profile_details_of names' (Setup.dict_set name detail details)
  end.

(** [_check_authentication_issues] *)
Definition check_authentication_issues : P authentication :=
  auth_events ← powershell auth_events_script;
  cert_check ← powershell certificates_script;
  profiles ← run ["netsh"; "wlan"; "show"; "profiles"] false;
  listed ← getitem profiles "success";
  if truthy listed then
    stdout ← getitem profiles "stdout";
    text ← as_str "split" stdout;
    names ← profile_names (split_on "010"%char text);
    details ← profile_details_of (take 5 names) [];
    mret {| auth_events := auth_events; certificates := cert_check;
            profile_details := Some details |}
  else
    mret {| auth_events := auth_events; certificates := cert_check;
            profile_details := None |}.

(** [_analyze_wifi_environment] *)
Definition analyze_wifi_environment : P environment :=
  networks ← run ["netsh"; "wlan"; "show"; "networks"; "mode=bssid"] false;
  signal_info ← powershell signal_script;
  driver_info ← powershell driver_script;
  mret {| available_networks := networks; signal_strength := signal_info;
          driver_settings := driver_info |}.

(** [_fix_common_issues] *)
Definition fix_common_issues : P fixes :=
  reset_adapter ← powershell restart_adapter_script;
  ok1 ← getitem reset_adapter "success";
  let fixes1 := append_if (truthy ok1) "Reset WiFi adapter" [] in
  dns_flush ← run ["ipconfig"; "/flushdns"] false;
  ok2 ← getitem dns_flush "success";
  let fixes2 := append_if (truthy ok2) "Flushed DNS cache" fixes1 in
  ip_release ← run ["ipconfig"; "/release"] false;
  ip_renew ← run ["ipconfig"; "/renew"] false;
  ok3 ← getitem ip_renew "success";
  let fixes3 := append_if (truthy ok3) "Renewed IP address" fixes2 in
  tcp_reset ← run ["netsh"; "int"; "ip"; "reset"] true;
  ok4 ← getitem tcp_reset "success";
  let fixes4 :=
    append_if (truthy ok4) "Reset TCP/IP stack (restart required)" fixes3 in
  winsock_reset ← run ["netsh"; "winsock"; "reset"] true;
  ok5 ← getitem winsock_reset "success";
  let fixes5 :=
    append_if (truthy ok5) "Reset Winsock (restart required)" fixes4 in
  mret {| adapter_reset := reset_adapter; dns_flush := dns_flush;
          ip_renewal_release := ip_release; ip_renewal_renew := ip_renew;
          tcp_reset := tcp_reset; winsock_reset := winsock_reset;
          fixes_applied := fixes5;
          restart_required :=
            contains "TCP/IP stack" (String.concat " " fixes5)
            || contains "Winsock" (String.concat " " fixes5) |}.

(** The test on the connectivity output in [_generate_diagnostic_report]:
    [Some true] when the first element of the parsed list has no true
    [PingSucceeded]; [None] when the block raised, which the bare
    [except] swallows.  The members of a parsed object have distinct
    keys. *)
Definition ping_failed (text : string) : option bool :=
  match json_loads text with
  | inr _ => None
  | inl (Client.JArray (first :: _)) =>
      match first with
      | Client.JObject members =>
          Some (negb (json_truthy number_is_zero
                        (default (Client.JBool false)
                           (Setup.dict_get "PingSucceeded" members))))
      | _ => None
      end
  | inl _ => Some false
  end.

(** [_generate_diagnostic_report] *)
Definition generate_diagnostic_report : P report :=
  wifi_report ← run ["netsh"; "wlan"; "show"; "wlanreport"] false;
  generated ← getitem wifi_report "success";
  report_path ←
    (if truthy generated then
       match environ !! "ProgramData" with
       | Some root =>
           mret (Some (path_str root ["Microsoft"; "Windows"; "WlanReport";
                                      "wlan-report-latest.html"]))
       | None => throw (key_error "ProgramData")
       end
     else mret None);
  status_data ← check_wifi_status;
  conn_data ← diagnose_connection_issues;
  auth_data ← check_authentication_issues;
  env_data ← analyze_wifi_environment;
  let stdout1 := get_or_empty (interfaces status_data) "stdout" in
  issues1 ←
    (if truthy stdout1 then
       text ← as_str "lower" stdout1;
       mret (append_if (contains "disconnected" (lower text))
               "WiFi adapter is disconnected" [])
     else mret []);
  let stdout2 := get_or_empty (connectivity conn_data) "stdout" in
  issues2 ←
    (if truthy stdout2 then
       text ← as_str "loads" stdout2;
       mret (append_if (default false (ping_failed text))
               "No internet connectivity detected" issues1)
     else mret issues1);
  let stdout3 := get_or_empty (auth_events auth_data) "stdout" in
  issues3 ←
    (if truthy stdout3 then
       text ← as_str "__contains__" stdout3;
       mret (append_if (contains "8002" text)
               "Authentication failures detected" issues2)
     else mret issues2);
  mret {| timestamp := now_isoformat;
          wifi_report_generated := generated;
          wifi_report_path := report_path;
          diag_status := status_data;
          diag_connection := conn_data;
          diag_authentication := auth_data;
          diag_environment := env_data;
          issues_found := issues3;
          total_issues := length issues3;
          summary_status :=
            match issues3 with
            | [] => "No major issues found"
            | _ => "Issues detected"
            end |}.

End Tools.

(** *** Scripted commands, for closed examples *)

(** Every command ends the same way. *)
Definition every_command (o : run_outcome) (n : nat) (cmd : list string)
    (shell : bool) (timeout : Z) : run_outcome := o.

(** Paths joined with backslashes. *)
Definition demo_path (root : string) (parts : list string) : string :=
  String.concat (String "092"%char "") (root :: parts).

(** A parser that rejects every text. *)
Definition no_json (text : string) : Client.json + string :=
  inr "Expecting value: line 1 column 1 (char 0)".

Definition never_zero (literal : string) : bool := false.

(** A machine whose adapter is disconnected: the interface command (the
    second command of the report) says so, the connectivity test (the
    sixth) prints a list of one empty object, the event query (the ninth)
    lists an event 8002, and every other command times out. *)
Definition disconnected_machine (n : nat) (cmd : list string) (shell : bool)
    (timeout : Z) : run_outcome :=
  match n with
  | 1 => CompletedProcess 0 "    State                  : Disconnected" ""
  | 5 => CompletedProcess 0 "[{}]" ""
  | 8 => CompletedProcess 0 "Id : 8002" ""
  | _ => TimeoutExpired
  end.

(** A parser that agrees with [json.loads] on the one text of the
    example. *)
Definition demo_loads (text : string) : Client.json + string :=
  if String.eqb text "[{}]" then inl (Client.JArray [Client.JObject []])
  else inr "Expecting value: line 1 column 1 (char 0)".

(** A listing of six profiles, the third of them a second time. *)
Definition six_profiles : string :=
  String.concat Client.newline
    ["Profiles on interface Wi-Fi:";
     "";
     "User profiles";
     "-------------";
     "    All User Profile     : HomeNet";
     "    All User Profile     : Office";
     "    All User Profile     : Cafe";
     "    All User Profile     : Cafe";
     "    All User Profile     : Library";
     "    All User Profile     : Airport"].

End Diagnostics.

Import Client.

(** * Facts *)

(** ** The monad *)

Lemma bind_ret_eq {A B} (m : M A) (f : A → M B) s a s' :
  m s = Ret a s' → (m ≫= f) s = f a s'.
Proof. intros H. unfold mbind, M_bind. by rewrite H. Qed.

Lemma bind_raise_eq {A B} (m : M A) (f : A → M B) s e s' :
  m s = Raise e s' → (m ≫= f) s = Raise e s'.
Proof. intros H. unfold mbind, M_bind. by rewrite H. Qed.

Lemma bind_hang_eq {A B} (m : M A) (f : A → M B) s s' :
  m s = Hang s' → (m ≫= f) s = Hang s'.
Proof. intros H. unfold mbind, M_bind. by rewrite H. Qed.

Lemma for_each_app {A} (l1 l2 : list A) (body : A → M unit) s :
  for_each (l1 ++ l2) body s = (for_each l1 body;; for_each l2 body) s.
Proof.
  revert s. induction l1 as [|x l1 IH]; intros s; [done|].
  cbn [for_each app]. unfold mbind, M_bind in *.
  destruct (body x s); [apply IH|done..].
Qed.

(** ** The tool broker *)

Section Broker.

Variable connect : nat → ext unit.
Variable initialize : nat → ext unit.
Variable call_tool : nat → string → json → ext (list content_part).

Local Abbreviation execute := (execute_mcp_tool connect initialize call_tool).
Local Abbreviation result_of := (session_result connect initialize call_tool).
Local Abbreviation trace_of := (session_trace connect initialize call_tool).

(** The broker as a function of what the provider session does. *)
Lemma execute_mcp_tool_eq tool_name arguments s :
  execute tool_name arguments s =
    let n := sessions (trace s) in
    let s' := set_trace (trace s ++ trace_of n tool_name arguments) s in
    match result_of n tool_name arguments with
    | Done content => Ret (format_result content) s'
    | Fails str_e => Ret (tool_error tool_name str_e) s'
    | Stuck => Hang s'
    end.
Proof.
  unfold execute_mcp_tool, session_result, session_trace, try_except,
    async_with, mbind, M_bind, gets, emit, modify, await, mret, M_ret, raise.
  cbn.
  destruct (connect (sessions (trace s))) as [[]| |]; cbn; [|done..].
  destruct (initialize (sessions (trace s))) as [[]| |]; cbn;
    [|by rewrite <- ?app_assoc..].
  destruct (call_tool (sessions (trace s)) tool_name arguments); cbn;
    by rewrite <- ?app_assoc.
Qed.

Lemma session_trace_starts n tool_name arguments :
  ∃ t, trace_of n tool_name arguments = EvStdioClient :: t.
Proof.
  unfold session_trace.
  destruct (connect n); [|eauto..].
  destruct (initialize n); [|eauto..].
  destruct (call_tool n tool_name arguments); eauto.
Qed.

Lemma execute_mcp_tool_not_raised tool_name arguments s :
  raised (execute tool_name arguments s) = false.
Proof.
  rewrite execute_mcp_tool_eq. cbn.
  by destruct (result_of _ _ _).
Qed.

End Broker.

(** ** Computations that only append *)

Lemma step_of_refl s : step_of s s [] [] [].
Proof. unfold step_of. by rewrite !app_nil_r. Qed.

Lemma step_of_trans s s' s'' dh dr dt dh' dr' dt' :
  step_of s s' dh dr dt → step_of s' s'' dh' dr' dt' →
  step_of s s'' (dh ++ dh') (dr ++ dr') (dt ++ dt').
Proof.
  unfold step_of. intros (?&?&?&?&?&?) (?&?&?&?&?&?).
  rewrite !app_assoc. repeat split; congruence.
Qed.

Lemma user_contents_app h h' :
  user_contents (h ++ h') = user_contents h ++ user_contents h'.
Proof. apply omap_app. Qed.

Lemma error_events_app q q' :
  error_events (q ++ q') = error_events q ++ error_events q'.
Proof. apply omap_app. Qed.

Create HintDb quiet.

Lemma quiet_ret {A} (a : A) : quiet (mret a : M A).
Proof. intros s. exists [], [], []. split; [apply step_of_refl|done]. Qed.

Lemma quiet_raise {A} e : quiet (raise e : M A).
Proof. intros s. exists [], [], []. split; [apply step_of_refl|done]. Qed.

Lemma quiet_gets {A} (f : client → A) : quiet (gets f).
Proof. intros s. exists [], [], []. split; [apply step_of_refl|done]. Qed.

Lemma quiet_await {A} (x : ext A) : quiet (await x).
Proof.
  intros s. exists [], [], [].
  split; [destruct x; apply step_of_refl|done].
Qed.

Lemma quiet_emit ev : quiet (emit ev).
Proof.
  intros s. exists [], [], [ev]. split; [|done].
  unfold step_of. cbn. by rewrite !app_nil_r.
Qed.

Lemma quiet_bind {A B} (m : M A) (f : A → M B) :
  quiet m → (∀ a, quiet (f a)) → quiet (m ≫= f).
Proof.
  intros Hm Hf s. unfold mbind, M_bind.
  destruct (Hm s) as (dh & dr & dt & Hs & Hu & He).
  destruct (m s) as [a s'| |]; [|by exists dh, dr, dt..].
  destruct (Hf a s') as (dh' & dr' & dt' & Hs' & Hu' & He').
  exists (dh ++ dh'), (dr ++ dr'), (dt ++ dt').
  split; [by eapply step_of_trans|].
  rewrite user_contents_app, error_events_app, Hu, Hu', He, He'. done.
Qed.

Lemma quiet_try_except {A} (body : M A) handler :
  quiet body → (∀ e, quiet (handler e)) → quiet (try_except body handler).
Proof.
  intros Hm Hf s. unfold try_except.
  destruct (Hm s) as (dh & dr & dt & Hs & Hu & He).
  destruct (body s) as [|e s'|]; [by exists dh, dr, dt| |by exists dh, dr, dt].
  destruct (Hf e s') as (dh' & dr' & dt' & Hs' & Hu' & He').
  exists (dh ++ dh'), (dr ++ dr'), (dt ++ dt').
  split; [by eapply step_of_trans|].
  rewrite user_contents_app, error_events_app, Hu, Hu', He, He'. done.
Qed.

Lemma quiet_async_with {A} (body : M A) on_exit :
  quiet body → quiet on_exit → quiet (async_with body on_exit).
Proof.
  intros Hm Hx s. unfold async_with.
  destruct (Hm s) as (dh & dr & dt & Hs & Hu & He).
  destruct (body s) as [a s'|e s'|]; [| |by exists dh, dr, dt].
  - destruct (quiet_bind on_exit (λ _, mret a) Hx (λ _, quiet_ret a) s')
      as (dh' & dr' & dt' & Hs' & Hu' & He').
    exists (dh ++ dh'), (dr ++ dr'), (dt ++ dt').
    split; [by eapply step_of_trans|].
    rewrite user_contents_app, error_events_app, Hu, Hu', He, He'. done.
  - destruct (quiet_bind on_exit (λ _, raise e) Hx (λ _, quiet_raise (A:=A) e) s')
      as (dh' & dr' & dt' & Hs' & Hu' & He').
    exists (dh ++ dh'), (dr ++ dr'), (dt ++ dt').
    split; [by eapply step_of_trans|].
    rewrite user_contents_app, error_events_app, Hu, Hu', He, He'. done.
Qed.

Lemma quiet_for_each {A} (l : list A) body :
  (∀ x, quiet (body x)) → quiet (for_each l body).
Proof.
  intros Hb. induction l as [|x l IH]; cbn [for_each].
  - apply quiet_ret.
  - apply quiet_bind; [apply Hb|done].
Qed.

Lemma quiet_append_history e :
  user_contents [e] = [] → quiet (append_history e).
Proof.
  intros He s. exists [e], [], []. split; [|done].
  unfold step_of. cbn. by rewrite !app_nil_r.
Qed.

Lemma quiet_response_put sender text :
  String.eqb sender "error" = false → quiet (response_put sender text).
Proof.
  intros He s. exists [], [(sender, text)], []. split.
  - unfold step_of. cbn. by rewrite !app_nil_r.
  - split; [done|]. unfold error_events. cbn. by rewrite He.
Qed.

#[local] Hint Resolve quiet_ret quiet_raise quiet_gets quiet_await quiet_emit
  quiet_bind quiet_try_except quiet_async_with quiet_for_each
  quiet_append_history quiet_response_put : quiet.

(** ** Computations that come back *)

Create HintDb live.

Lemma live_ret {A} (a : A) : live (mret a : M A).
Proof. done. Qed.

Lemma live_raise {A} e : live (raise e : M A).
Proof. done. Qed.

Lemma live_gets {A} (f : client → A) : live (gets f).
Proof. done. Qed.

Lemma live_modify f : live (modify f).
Proof. done. Qed.

Lemma live_await {A} (x : ext A) : x ≠ Stuck → live (await x).
Proof. intros Hx s. by destruct x. Qed.

Lemma live_bind {A B} (m : M A) (f : A → M B) :
  live m → (∀ a, live (f a)) → live (m ≫= f).
Proof.
  intros Hm Hf s. unfold mbind, M_bind. specialize (Hm s).
  destruct (m s); [apply Hf|done..].
Qed.

Lemma live_try_except {A} (body : M A) handler :
  live body → (∀ e, live (handler e)) → live (try_except body handler).
Proof.
  intros Hm Hf s. unfold try_except. specialize (Hm s).
  destruct (body s); [done|apply Hf|done].
Qed.

Lemma live_try_except_queue_empty {A} (body : M A) handler :
  live body → live handler → live (try_except_queue_empty body handler).
Proof.
  intros Hm Hf s. unfold try_except_queue_empty. specialize (Hm s).
  destruct (body s) as [|[|]|]; [done|apply Hf|done..].
Qed.

Lemma live_async_with {A} (body : M A) on_exit :
  live body → live on_exit → live (async_with body on_exit).
Proof.
  intros Hm Hx s. unfold async_with. specialize (Hm s).
  destruct (body s); [| |done]; apply live_bind; try done.
Qed.

Lemma live_for_each {A} (l : list A) body :
  (∀ x, live (body x)) → live (for_each l body).
Proof.
  intros Hb. induction l as [|x l IH]; cbn [for_each]; [done|].
  apply live_bind; [apply Hb|done].
Qed.

Lemma live_get_nowait : live get_nowait.
Proof. intros s. unfold get_nowait. by destruct (message_queue s). Qed.

#[local] Hint Resolve live_ret live_raise live_gets live_modify live_await
  live_bind live_try_except live_try_except_queue_empty live_async_with
  live_for_each live_get_nowait : live.

(** ** Computations that leave the inbound queue alone *)

Create HintDb frame.

Lemma frame_ret {A} (a : A) : queue_frame (mret a : M A).
Proof. done. Qed.

Lemma frame_raise {A} e : queue_frame (raise e : M A).
Proof. done. Qed.

Lemma frame_gets {A} (f : client → A) :
  (∀ q s, f (set_message_queue q s) = f s) → queue_frame (gets f).
Proof. intros Hf q s. unfold gets. cbn. by rewrite Hf. Qed.

Lemma frame_modify f :
  (∀ q s, f (set_message_queue q s) = set_message_queue q (f s)) →
  queue_frame (modify f).
Proof. intros Hf q s. unfold modify. cbn. by rewrite Hf. Qed.

Lemma frame_await {A} (x : ext A) : queue_frame (await x).
Proof. intros q s. by destruct x. Qed.

Lemma frame_bind {A B} (m : M A) (f : A → M B) :
  queue_frame m → (∀ a, queue_frame (f a)) → queue_frame (m ≫= f).
Proof.
  intros Hm Hf q s. unfold mbind, M_bind. rewrite Hm.
  destruct (m s); cbn; [apply Hf|done..].
Qed.

Lemma frame_try_except {A} (body : M A) handler :
  queue_frame body → (∀ e, queue_frame (handler e)) →
  queue_frame (try_except body handler).
Proof.
  intros Hm Hf q s. unfold try_except. rewrite Hm.
  destruct (body s); cbn; [done|apply Hf|done].
Qed.

Lemma frame_async_with {A} (body : M A) on_exit :
  queue_frame body → queue_frame on_exit →
  queue_frame (async_with body on_exit).
Proof.
  intros Hm Hx q s. unfold async_with. rewrite Hm.
  destruct (body s); cbn; [| |done].
  - by apply frame_bind.
  - by apply frame_bind.
Qed.

Lemma frame_for_each {A} (l : list A) body :
  (∀ x, queue_frame (body x)) → queue_frame (for_each l body).
Proof.
  intros Hb. induction l as [|x l IH]; cbn [for_each]; [done|].
  apply frame_bind; [apply Hb|done].
Qed.

Lemma frame_emit ev : queue_frame (emit ev).
Proof. by apply frame_modify. Qed.

Lemma frame_append_history e : queue_frame (append_history e).
Proof. by apply frame_modify. Qed.

Lemma frame_response_put sender text : queue_frame (response_put sender text).
Proof. by apply frame_modify. Qed.

#[local] Hint Resolve frame_ret frame_raise frame_await frame_bind
  frame_try_except frame_async_with frame_for_each frame_emit
  frame_append_history frame_response_put : frame.

(** ** The exchange *)

Section Exchange.

Variable completion : nat → request → ext message.
Variable connect : nat → ext unit.
Variable initialize : nat → ext unit.
Variable call_tool : nat → string → json → ext (list content_part).
Variable json_loads : string → json + string.
Variable str_json : json → string.

Local Abbreviation create := (completions_create completion).
Local Abbreviation execute := (execute_mcp_tool connect initialize call_tool).
Local Abbreviation resolve :=
  (resolve_tool_call connect initialize call_tool json_loads str_json).
Local Abbreviation follow_up := (final_response completion).
Local Abbreviation body :=
  (chat_with_gpt_body completion connect initialize call_tool json_loads
     str_json).
Local Abbreviation chat :=
  (chat_with_gpt completion connect initialize call_tool json_loads str_json).
Local Abbreviation iteration :=
  (worker_iteration completion connect initialize call_tool json_loads
     str_json).
Local Abbreviation worker :=
  (async_worker completion connect initialize call_tool json_loads str_json).
Local Abbreviation all_respond :=
  (responsive completion connect initialize call_tool).

Lemma quiet_create req : quiet (create req).
Proof.
  unfold completions_create. apply quiet_bind; [apply quiet_gets|].
  intros []; eauto 10 with quiet.
Qed.

Lemma quiet_execute tool_name arguments : quiet (execute tool_name arguments).
Proof. unfold execute_mcp_tool. eauto 20 with quiet. Qed.

Lemma quiet_resolve tc : quiet (resolve tc).
Proof.
  unfold resolve_tool_call. apply quiet_bind.
  - destruct (json_loads _); auto with quiet.
  - intros arguments. apply quiet_bind; [by apply quiet_response_put|].
    intros _. apply quiet_bind; [apply quiet_execute|].
    intros r. by apply quiet_append_history.
Qed.

Lemma quiet_follow_up : quiet follow_up.
Proof.
  unfold final_response. apply quiet_bind; [apply quiet_gets|].
  intros h. apply quiet_bind; [apply quiet_create|].
  intros final. apply quiet_bind; [by apply quiet_append_history|].
  intros _. by apply quiet_response_put.
Qed.

(** What follows the user entry in the [try] block. *)
Lemma body_after_user message s :
  ∃ rest : M unit, quiet rest
    ∧ body message s
      = rest (set_chat_history (chat_history s ++ [UserEntry message]) s).
Proof.
  eexists. split; [|unfold chat_with_gpt_body; reflexivity].
  apply quiet_bind; [apply quiet_gets|]. intros tools.
  apply quiet_bind; [apply quiet_gets|]. intros h.
  apply quiet_bind; [apply quiet_create|]. intros message_obj.
  destruct (msg_tool_calls message_obj).
  - apply quiet_bind; [by apply quiet_append_history|].
    intros _. by apply quiet_response_put.
  - apply quiet_bind; [by apply quiet_append_history|].
    intros _. apply quiet_bind; [|intros _; apply quiet_follow_up].
    apply quiet_for_each. apply quiet_resolve.
Qed.

(** The [try] block appends the user entry, then no other user entry and
    no error event. *)
Lemma body_delta message s :
  ∃ dh dr dt,
    step_of s (final_state (body message s)) (UserEntry message :: dh) dr dt
    ∧ user_contents dh = [] ∧ error_events dr = [].
Proof.
  destruct (body_after_user message s) as (rest & Hq & ->).
  destruct (Hq (set_chat_history (chat_history s ++ [UserEntry message]) s))
    as (dh & dr & dt & Hs & Hu & He).
  exists dh, dr, dt. split; [|done].
  destruct Hs as (?&?&?&Hh&?&?). unfold step_of.
  rewrite Hh. cbn. by rewrite <- app_assoc.
Qed.

(** The exchange: the user entry first, no other user entry, and the
    inbound queue untouched, however it ends. *)
Lemma chat_delta message s :
  ∃ dh dr dt,
    step_of s (final_state (chat message s)) (UserEntry message :: dh) dr dt
    ∧ user_contents dh = [].
Proof.
  destruct (body_delta message s) as (dh & dr & dt & Hs & Hu & He).
  unfold chat_with_gpt, try_except.
  destruct (body message s) as [[] s'|e s'|s']; [by exists dh, dr, dt| |by exists dh, dr, dt].
  cbn in *. eexists dh, (dr ++ [_]), dt. split; [|done].
  destruct Hs as (?&?&?&?&Hr&?). unfold step_of. cbn.
  rewrite Hr. by rewrite <- app_assoc.
Qed.

Lemma chat_not_raised message s : raised (chat message s) = false.
Proof.
  unfold chat_with_gpt, try_except. by destruct (body message s).
Qed.

Lemma live_create req : all_respond → live (create req).
Proof.
  intros (Hc & _). unfold completions_create.
  apply live_bind; [apply live_gets|]. intros []; [|apply live_raise].
  apply live_bind; [apply live_gets|]. intros n.
  apply live_bind; [apply live_modify|]. intros _. by apply live_await.
Qed.

Lemma live_execute tool_name arguments :
  all_respond → live (execute tool_name arguments).
Proof.
  intros (_ & Hc & Hi & Ht). unfold execute_mcp_tool.
  apply live_try_except; [|intros; apply live_ret].
  apply live_bind; [apply live_gets|]. intros n.
  apply live_bind; [apply live_modify|]. intros _.
  apply live_bind; [by apply live_await|]. intros _.
  apply live_async_with; [|apply live_modify].
  apply live_bind; [apply live_modify|]. intros _.
  apply live_bind; [by apply live_await|]. intros _.
  apply live_bind; [apply live_modify|]. intros _.
  apply live_bind; [by apply live_await|]. intros c. apply live_ret.
Qed.

Lemma live_follow_up : all_respond → live follow_up.
Proof.
  intros Hr. unfold final_response.
  apply live_bind; [apply live_gets|]. intros h.
  apply live_bind; [by apply live_create|]. intros final.
  apply live_bind; [apply live_modify|]. intros _. apply live_modify.
Qed.

Lemma live_resolve tc : all_respond → live (resolve tc).
Proof.
  intros Hr. unfold resolve_tool_call. apply live_bind.
  - destruct (json_loads _); auto with live.
  - intros arguments. apply live_bind; [apply live_modify|]. intros _.
    apply live_bind; [by apply live_execute|]. intros r. apply live_modify.
Qed.

Lemma live_chat message : all_respond → live (chat message).
Proof.
  intros Hr. unfold chat_with_gpt.
  apply live_try_except; [|intros; apply live_modify].
  unfold chat_with_gpt_body.
  apply live_bind; [apply live_modify|]. intros _.
  apply live_bind; [apply live_gets|]. intros tools.
  apply live_bind; [apply live_gets|]. intros h.
  apply live_bind; [by apply live_create|]. intros message_obj.
  destruct (msg_tool_calls message_obj).
  - apply live_bind; [apply live_modify|]. intros _. apply live_modify.
  - apply live_bind; [apply live_modify|]. intros _.
    apply live_bind; [|intros _; by apply live_follow_up].
    apply live_for_each. intros tc. by apply live_resolve.
Qed.

Lemma frame_create req : queue_frame (create req).
Proof.
  unfold completions_create. apply frame_bind; [by apply frame_gets|].
  intros []; [|apply frame_raise].
  apply frame_bind; [by apply frame_gets|]. intros n.
  apply frame_bind; [apply frame_emit|]. intros _. apply frame_await.
Qed.

Lemma frame_execute tool_name arguments :
  queue_frame (execute tool_name arguments).
Proof.
  unfold execute_mcp_tool.
  apply frame_try_except; [|intros; apply frame_ret].
  apply frame_bind; [by apply frame_gets|]. intros n.
  eauto 20 with frame.
Qed.

Lemma frame_follow_up : queue_frame follow_up.
Proof.
  unfold final_response. apply frame_bind; [by apply frame_gets|].
  intros h. apply frame_bind; [apply frame_create|].
  intros final. eauto with frame.
Qed.

Lemma frame_resolve tc : queue_frame (resolve tc).
Proof.
  unfold resolve_tool_call. apply frame_bind.
  - destruct (json_loads _); auto with frame.
  - intros arguments. apply frame_bind; [apply frame_response_put|].
    intros _. apply frame_bind; [apply frame_execute|].
    intros r. apply frame_append_history.
Qed.

Lemma frame_chat message : queue_frame (chat message).
Proof.
  unfold chat_with_gpt.
  apply frame_try_except; [|intros; apply frame_response_put].
  unfold chat_with_gpt_body.
  apply frame_bind; [apply frame_append_history|]. intros _.
  apply frame_bind; [by apply frame_gets|]. intros tools.
  apply frame_bind; [by apply frame_gets|]. intros h.
  apply frame_bind; [apply frame_create|]. intros message_obj.
  destruct (msg_tool_calls message_obj).
  - eauto with frame.
  - apply frame_bind; [apply frame_append_history|]. intros _.
    apply frame_bind; [|intros _; apply frame_follow_up].
    apply frame_for_each. apply frame_resolve.
Qed.

(** ** The worker loop *)

Lemma worker_step arrivals schedule s :
  worker (arrivals :: schedule) s =
    match iteration (set_message_queue (message_queue s ++ arrivals) s) with
    | Ret Break s' => Ret Exited s'
    | Ret Continue s' => worker schedule s'
    | Raise e s' => Raise e s'
    | Hang s' => Hang s'
    end.
Proof.
  cbn [async_worker]. unfold enqueue, modify, mbind, M_bind.
  destruct (iteration _) as [[] s'| |]; done.
Qed.

Lemma worker_app schedule1 schedule2 s s1 :
  worker schedule1 s = Ret Running s1 →
  worker (schedule1 ++ schedule2) s = worker schedule2 s1.
Proof.
  revert s. induction schedule1 as [|arrivals schedule1 IH]; intros s.
  - cbn. by intros [= ->].
  - cbn [app]. rewrite !worker_step.
    destruct (iteration _) as [[] s'| |]; try done. apply IH.
Qed.

(** A turn that finds the sentinel leaves the loop and does nothing
    else. *)
Lemma iteration_quit s q :
  message_queue s = QUIT :: q →
  iteration s = Ret Break (set_message_queue q s).
Proof.
  intros Hq. unfold worker_iteration, try_except, try_except_queue_empty,
    mbind, M_bind, get_nowait.
  by rewrite Hq.
Qed.

(** A turn that finds the queue empty only sleeps. *)
Lemma iteration_idle s :
  message_queue s = [] →
  iteration s = Ret Continue (set_trace (trace s ++ [EvSleep]) s).
Proof.
  intros Hq. unfold worker_iteration, try_except, try_except_queue_empty,
    mbind, M_bind, get_nowait.
  by rewrite Hq.
Qed.

(** A turn that finds another message runs one exchange, then sleeps. *)
Lemma iteration_exchange s message q :
  message_queue s = message :: q →
  message ≠ QUIT →
  iteration s =
    match chat message (set_message_queue q s) with
    | Ret _ s' => Ret Continue (set_trace (trace s' ++ [EvSleep]) s')
    | Raise e s' => Raise e s'
    | Hang s' => Hang s'
    end.
Proof.
  intros Hq Hm. apply String.eqb_neq in Hm.
  pose proof (chat_not_raised message (set_message_queue q s)) as Hr.
  unfold worker_iteration, try_except, try_except_queue_empty,
    mbind, M_bind, get_nowait.
  rewrite Hq, Hm.
  by destruct (chat message (set_message_queue q s)) as [[] s'| |].
Qed.

Lemma iteration_not_raised s : raised (iteration s) = false.
Proof.
  unfold worker_iteration, try_except.
  match goal with
  | |- raised (match ?o with _ => _ end) = _ => by destruct o
  end.
Qed.

(** One turn of the loop on a queue free of the sentinel, when the
    collaborators respond: it takes the oldest message, if any, and the
    user entries and the queue together still list the same messages. *)
Lemma iteration_takes_oldest s :
  all_respond →
  Forall (λ m, m ≠ QUIT) (message_queue s) →
  ∃ s', iteration s = Ret Continue s'
    ∧ message_queue s' = tail (message_queue s)
    ∧ user_contents (chat_history s') ++ message_queue s'
      = user_contents (chat_history s) ++ message_queue s.
Proof.
  intros Hr Hq. destruct (message_queue s) as [|message q] eqn:Hs.
  - rewrite iteration_idle by done. eexists. split; [done|]. cbn.
    by rewrite Hs.
  - apply Forall_cons in Hq as [Hm Hq].
    rewrite (iteration_exchange s message q) by done.
    pose proof (live_chat message Hr (set_message_queue q s)) as Hl.
    pose proof (chat_not_raised message (set_message_queue q s)) as Hnr.
    destruct (chat_delta message (set_message_queue q s))
      as (dh & dr & dt & Hd & Hu).
    destruct (chat message (set_message_queue q s)) as [[] s'| |];
      [|done..].
    destruct Hd as (_ & _ & Hq' & Hh & _). cbn in Hq', Hh.
    eexists. split; [done|]. cbn. rewrite Hq', Hh.
    split; [done|].
    rewrite user_contents_app.
    change (user_contents (UserEntry message :: dh))
      with (message :: user_contents dh).
    rewrite Hu. by rewrite <- app_assoc.
Qed.

(** Along any schedule free of the sentinel the loop keeps turning, and
    the user entries followed by the queue list the messages in arrival
    order. *)
Lemma worker_keeps_order schedule s :
  all_respond →
  Forall (λ m, m ≠ QUIT) (message_queue s ++ concat schedule) →
  ∃ s', worker schedule s = Ret Running s'
    ∧ Forall (λ m, m ≠ QUIT) (message_queue s')
    ∧ user_contents (chat_history s') ++ message_queue s'
      = user_contents (chat_history s) ++ message_queue s ++ concat schedule.
Proof.
  intros Hr. revert s.
  induction schedule as [|arrivals schedule IH]; intros s Hq.
  - exists s. cbn in *. rewrite app_nil_r in *. done.
  - rewrite worker_step. cbn [concat] in Hq. rewrite app_assoc in Hq.
    apply Forall_app in Hq as [Hq1 Hq2].
    destruct (iteration_takes_oldest
      (set_message_queue (message_queue s ++ arrivals) s) Hr Hq1)
      as (s1 & -> & Ht & Hu).
    cbn in Ht, Hu.
    destruct (IH s1) as (s' & Hw & Hf & Hu').
    { apply Forall_app. split; [|done]. rewrite Ht.
      destruct (message_queue s ++ arrivals); [done|].
      by apply Forall_cons in Hq1 as [_ ?]. }
    exists s'. split; [done|]. split; [done|].
    rewrite Hu'. cbn [concat]. rewrite (app_assoc _ (message_queue s1)), Hu.
    by rewrite <- !app_assoc.
Qed.

(** Idle turns empty the queue. *)
Lemma worker_empties_queue k s :
  all_respond →
  Forall (λ m, m ≠ QUIT) (message_queue s) →
  (length (message_queue s) ≤ k)%nat →
  ∃ s', worker (replicate k []) s = Ret Running s'
    ∧ message_queue s' = []
    ∧ user_contents (chat_history s')
      = user_contents (chat_history s) ++ message_queue s.
Proof.
  intros Hr. revert s. induction k as [|k IH]; intros s Hq Hk.
  - exists s. cbn. destruct (message_queue s); [|cbn in Hk; lia].
    by rewrite app_nil_r.
  - cbn [replicate]. rewrite worker_step.
    assert (set_message_queue (message_queue s ++ []) s = s) as ->.
    { rewrite app_nil_r. by destruct s. }
    destruct (iteration_takes_oldest s Hr Hq) as (s1 & -> & Ht & Hu).
    destruct (IH s1) as (s' & Hw & He & Hu').
    { rewrite Ht. destruct (message_queue s); [done|].
      by apply Forall_cons in Hq as [_ ?]. }
    { rewrite Ht. destruct (message_queue s); cbn in *; lia. }
    exists s'. split; [done|]. split; [done|]. by rewrite Hu', Hu.
Qed.

Local Abbreviation turn :=
  (exchange_then_sleep completion connect initialize call_tool json_loads
     str_json).

Lemma set_message_queue_same s : set_message_queue (message_queue s) s = s.
Proof. by destruct s. Qed.

Lemma for_each_turn_cons message msgs s :
  for_each (message :: msgs) turn s =
    match chat message s with
    | Ret _ s' => for_each msgs turn (set_trace (trace s' ++ [EvSleep]) s')
    | Raise e s' => Raise e s'
    | Hang s' => Hang s'
    end.
Proof.
  cbn [for_each]. unfold exchange_then_sleep, mbind, M_bind.
  by destruct (chat message s).
Qed.

(** ** Properties of the worker loop *)

(** C1, as amended: an exception that reaches the exchange boundary (the
    [try] block of [chat_with_gpt] raised: a completion call or the
    parsing of tool arguments failed) is caught there and becomes exactly
    one event of kind [error], whose text is [str(e)] behind a fixed
    prefix; the turn of the loop ends normally and the loop goes on with
    the rest of the schedule.  A tool invocation never raises into the
    exchange. *)
Theorem exchange_failure_contained message q schedule s e s1 :
  message_queue s = message :: q →
  message ≠ QUIT →
  body message (set_message_queue q s) = Raise e s1 →
  let s2 := set_response_queue
              (response_queue s1 ++ [("error", Some (chat_error (str_exn e)))])
              s1 in
  chat message (set_message_queue q s) = Ret () s2
  ∧ error_events (response_queue s2)
    = error_events (response_queue s) ++ [Some (chat_error (str_exn e))]
  ∧ worker ([] :: schedule) s
    = worker schedule (set_trace (trace s2 ++ [EvSleep]) s2)
  ∧ ∀ tool_name arguments s0,
      raised (execute tool_name arguments s0) = false.
Proof.
  intros Hq Hm Hb s2.
  assert (chat message (set_message_queue q s) = Ret () s2) as Hc.
  { unfold chat_with_gpt, try_except. by rewrite Hb. }
  split; [done|]. split; [|split].
  - destruct (body_delta message (set_message_queue q s))
      as (dh & dr & dt & Hd & _ & He).
    rewrite Hb in Hd. destruct Hd as (_ & _ & _ & _ & Hr & _).
    cbn in Hr. subst s2. cbn.
    by rewrite error_events_app, Hr, error_events_app, He, app_nil_r.
  - rewrite worker_step, app_nil_r, set_message_queue_same.
    by rewrite (iteration_exchange s message q), Hc.
  - intros. apply execute_mcp_tool_not_raised.
Qed.

(** C3, as amended: messages enqueued in any pattern of arrivals, none of
    them the sentinel, on a client with an empty transcript and an empty
    queue, when every external call returns or raises: once the loop has
    turned as many times more as there are messages, the queue is empty
    and the user entries of the transcript are exactly the messages, in
    arrival order.  The code sets no time bound on an external call, so
    this has to be assumed. *)
Theorem user_entries_in_arrival_order schedule k s :
  all_respond →
  chat_history s = [] →
  message_queue s = [] →
  Forall (λ m, m ≠ QUIT) (concat schedule) →
  (length (concat schedule) ≤ k)%nat →
  ∃ s', worker (schedule ++ replicate k []) s = Ret Running s'
    ∧ message_queue s' = []
    ∧ user_contents (chat_history s') = concat schedule
    ∧ length (user_contents (chat_history s')) = length (concat schedule).
Proof.
  intros Hr Hh Hq Hs Hk.
  destruct (worker_keeps_order schedule s Hr) as (s1 & Hw & Hf & Hu).
  { by rewrite Hq. }
  rewrite Hh, Hq in Hu. cbn in Hu.
  destruct (worker_empties_queue k s1 Hr Hf) as (s' & Hw' & He & Hu').
  { rewrite <- Hu, length_app in Hk. lia. }
  exists s'. rewrite (worker_app _ _ _ _ Hw).
  split; [done|]. split; [done|].
  rewrite Hu', Hu. done.
Qed.

(** The sentinel queued behind [msgs]: the loop runs their exchanges and
    exits at the turn that finds it. *)
Lemma sentinel_queued_behind msgs later schedule s s1 :
  message_queue s = msgs ++ QUIT :: later →
  Forall (λ m, m ≠ QUIT) msgs →
  for_each msgs turn (set_message_queue [] s) = Ret () s1 →
  worker (replicate (S (length msgs)) [] ++ schedule) s
    = Ret Exited (set_message_queue later s1).
Proof.
  revert s. induction msgs as [|message msgs IH]; intros s Hq Hm Hrun.
  - cbn in Hq, Hrun. injection Hrun as <-. cbn [length replicate app].
    rewrite worker_step, app_nil_r, set_message_queue_same.
    by rewrite (iteration_quit s later).
  - apply Forall_cons in Hm as [Hm Hms]. cbn [app] in Hq.
    cbn [length replicate app]. rewrite worker_step, app_nil_r,
      set_message_queue_same.
    rewrite (iteration_exchange s message (msgs ++ QUIT :: later)) by done.
    pose proof (frame_chat message (msgs ++ QUIT :: later)
      (set_message_queue [] s)) as Hf.
    change (set_message_queue (msgs ++ QUIT :: later)
              (set_message_queue [] s))
      with (set_message_queue (msgs ++ QUIT :: later) s) in Hf.
    rewrite Hf. clear Hf.
    rewrite for_each_turn_cons in Hrun.
    destruct (chat_delta message (set_message_queue [] s))
      as (dh & dr & dt & Hd & _).
    destruct (chat message (set_message_queue [] s)) as [[] s2| |];
      [|done..].
    destruct Hd as (_ & _ & Hq2 & _). cbn in Hq2, Hrun |- *.
    apply IH; [done|done|].
    rewrite <- Hrun. f_equal. destruct s2; cbn in *. by subst.
Qed.

Lemma worker_arrivals_first arrivals schedule s :
  worker (arrivals :: schedule) s
    = worker ([] :: schedule)
        (set_message_queue (message_queue s ++ arrivals) s).
Proof.
  rewrite !worker_step. cbn [message_queue set_message_queue].
  by rewrite app_nil_r.
Qed.

(** C8: the sentinel waits its turn.  The messages [msgs] are queued and
    the sentinel is enqueued while the loop is busy with them: after [j]
    of their exchanges, [j] being anything from 0 to their number (no
    message at all for an idle worker, [j = 1] of one message for an
    exchange in flight).  The loop exits at the first turn that follows
    the last of these exchanges, and the state at exit is the one reached
    by running every one of them to its end, each followed by its idle
    wait; only the queue differs, by what the loop took from it. *)
Theorem shutdown_between_exchanges msgs j later schedule s s1 :
  message_queue s = msgs →
  Forall (λ m, m ≠ QUIT) msgs →
  (j ≤ length msgs)%nat →
  for_each msgs turn (set_message_queue [] s) = Ret () s1 →
  worker (replicate j [] ++ (QUIT :: later)
            :: replicate (length msgs - j) [] ++ schedule) s
    = Ret Exited (set_message_queue later s1).
Proof.
  revert j s. induction msgs as [|message msgs IH]; intros j s Hq Hm Hj Hrun.
  - destruct j; [|cbn in Hj; lia]. cbn [replicate app length Nat.sub].
    rewrite worker_arrivals_first.
    apply (sentinel_queued_behind [] later schedule); [|done..].
    cbn. by rewrite Hq.
  - destruct j as [|j].
    + cbn [replicate app]. rewrite worker_arrivals_first, Nat.sub_0_r.
      apply (sentinel_queued_behind (message :: msgs) later schedule);
        [|done..].
      cbn. by rewrite Hq.
    + apply Forall_cons in Hm as [Hm Hms].
      cbn [replicate app length Nat.sub].
      rewrite worker_step, app_nil_r, set_message_queue_same.
      rewrite (iteration_exchange s message msgs) by done.
      pose proof (frame_chat message msgs (set_message_queue [] s)) as Hf.
      change (set_message_queue msgs (set_message_queue [] s))
        with (set_message_queue msgs s) in Hf.
      rewrite Hf. clear Hf.
      rewrite for_each_turn_cons in Hrun.
      destruct (chat_delta message (set_message_queue [] s))
        as (dh & dr & dt & Hd & _).
      destruct (chat message (set_message_queue [] s)) as [[] s2| |];
        [|done..].
      destruct Hd as (_ & _ & Hq2 & _). cbn in Hq2, Hrun |- *.
      apply IH; [done|done|cbn in Hj; lia|].
      rewrite <- Hrun. f_equal. destruct s2; cbn in *. by subst.
Qed.

(** C9: a message whose text is the sentinel ends the loop, whoever sent
    it.  Typing it (with or without blanks around it) puts on the queue
    what closing the window puts there; the turn that finds it leaves the
    loop with the transcript, the outbound queue and the effects as they
    were: no user entry, no event, no exchange. *)
Theorem typed_quit_is_the_sentinel g s s0 later schedule :
  strip (input_entry g) = QUIT →
  openai_client s = true →
  message_queue s0 = QUIT :: later →
  snd (send_message_sync g s) = on_closing s
  ∧ message_queue (on_closing s) = message_queue s ++ [QUIT]
  ∧ worker ([] :: schedule) s0 = Ret Exited (set_message_queue later s0)
  ∧ chat_history (set_message_queue later s0) = chat_history s0
  ∧ response_queue (set_message_queue later s0) = response_queue s0
  ∧ trace (set_message_queue later s0) = trace s0.
Proof.
  intros Hg Hc Hq. split; [|split; [done|split; [|done]]].
  - unfold send_message_sync. by rewrite Hg, Hc.
  - rewrite worker_step, app_nil_r, set_message_queue_same.
    by rewrite (iteration_quit s0 later).
Qed.

(** ** Tool calls *)

Local Abbreviation result_of := (session_result connect initialize call_tool).
Local Abbreviation trace_of := (session_trace connect initialize call_tool).
Local Abbreviation entries_of :=
  (resolved_entries connect initialize call_tool).
Local Abbreviation provider_responds :=
  (provider_responsive connect initialize call_tool).

Lemma completions_app t t' : completions (t ++ t') = completions t ++ completions t'.
Proof. apply omap_app. Qed.

Lemma sessions_app t t' : sessions (t ++ t') = sessions t + sessions t'.
Proof. unfold sessions. by rewrite filter_app, length_app. Qed.

Lemma session_trace_completions n tool_name arguments :
  completions (trace_of n tool_name arguments) = [].
Proof.
  unfold session_trace.
  destruct (connect n); [|done..].
  destruct (initialize n); [|done..].
  by destruct (call_tool n tool_name arguments).
Qed.

Lemma session_trace_sessions n tool_name arguments :
  sessions (trace_of n tool_name arguments) = 1.
Proof.
  unfold session_trace.
  destruct (connect n); [|done..].
  destruct (initialize n); [|done..].
  by destruct (call_tool n tool_name arguments).
Qed.

Lemma session_result_responds n tool_name arguments :
  provider_responds → result_of n tool_name arguments ≠ Stuck.
Proof.
  intros (Hc & Hi & Ht). unfold session_result.
  specialize (Hc n). specialize (Hi n).
  destruct (connect n); [|done..].
  destruct (initialize n); [|done..]. apply Ht.
Qed.

(** One pass of the loop over the tool calls, for a call whose arguments
    parse and whose session answers. *)
Lemma resolve_eq tc arguments s :
  json_loads (tc_arguments tc) = inl arguments →
  result_of (sessions (trace s)) (tc_name tc) arguments ≠ Stuck →
  ∃ s', resolve tc s = Ret () s'
    ∧ step_of s s'
        [ToolEntry (tc_id tc)
           (tool_text (tc_name tc)
              (result_of (sessions (trace s)) (tc_name tc) arguments))]
        [("tool", Some (tool_notification str_json (tc_name tc) arguments))]
        (trace_of (sessions (trace s)) (tc_name tc) arguments).
Proof.
  intros Hj Hr. unfold resolve_tool_call. rewrite Hj.
  unfold mbind, M_bind, mret, M_ret, response_put, modify.
  rewrite execute_mcp_tool_eq. cbn.
  destruct (result_of _ _ _); [| |done];
    (eexists; split; [reflexivity|]; unfold step_of; cbn; done).
Qed.

(** The whole loop: one tool entry per call, in the order of the calls,
    one notification and one provider session per call, and no completion
    call in between. *)
Lemma resolve_all calls s :
  Forall (parsed json_loads) calls →
  provider_responds →
  ∃ s' dt, for_each calls.*1 resolve s = Ret () s'
    ∧ step_of s s' (entries_of (sessions (trace s)) calls)
        (notifications str_json calls) dt
    ∧ completions dt = []
    ∧ sessions dt = length calls.
Proof.
  intros Hp Hr. revert s.
  induction Hp as [|[tc arguments] calls Hj _ IH]; intros s.
  - exists s, []. cbn. split; [done|]. split; [apply step_of_refl|done].
  - cbn [fmap list_fmap for_each fst]. unfold parsed in Hj. cbn in Hj.
    destruct (resolve_eq tc arguments s Hj) as (s1 & Hs1 & Hd1).
    { by apply session_result_responds. }
    destruct (IH s1) as (s' & dt & Hrun & Hd & Hc & Hn).
    exists s', (trace_of (sessions (trace s)) (tc_name tc) arguments ++ dt).
    split; [by rewrite (bind_ret_eq _ _ _ _ _ Hs1)|].
    assert (sessions (trace s1) = S (sessions (trace s))) as Hs.
    { destruct Hd1 as (_ & _ & _ & _ & _ & ->).
      rewrite sessions_app, session_trace_sessions. lia. }
    rewrite Hs in Hd. split; [|split].
    + apply (step_of_trans _ _ _ [_] [_] _ _ _ _ Hd1 Hd).
    + by rewrite completions_app, session_trace_completions, Hc.
    + rewrite sessions_app, session_trace_sessions, Hn. done.
Qed.

Lemma resolved_entries_length n calls :
  length (entries_of n calls) = length calls.
Proof.
  revert n. induction calls as [|call calls IH]; intros n; [done|].
  cbn. by rewrite IH.
Qed.

Lemma resolved_entries_ids n calls :
  (tool_entries (entries_of n calls)).*1 = tc_id <$> calls.*1.
Proof.
  revert n. induction calls as [|call calls IH]; intros n; [done|].
  cbn. by rewrite <- (IH (S n)).
Qed.

Lemma resolved_entries_lookup n calls i tc arguments :
  calls !! i = Some (tc, arguments) →
  entries_of n calls !! i
    = Some (ToolEntry (tc_id tc)
              (tool_text (tc_name tc)
                 (result_of (n + i) (tc_name tc) arguments))).
Proof.
  revert n i. induction calls as [|call calls IH]; intros n i; [done|].
  destruct i as [|i].
  - intros [= ->]. cbn. by rewrite Nat.add_0_r.
  - intros Hi. etrans; [exact (IH (S n) i Hi)|]. do 4 f_equal. lia.
Qed.

Lemma create_eq req s :
  openai_client s = true →
  create req s =
    await (completion (length (completions (trace s))) req)
      (set_trace (trace s ++ [EvCompletion req]) s).
Proof.
  intros Hc. unfold completions_create, mbind, M_bind, gets, emit, modify.
  by rewrite Hc.
Qed.

(** The exchange up to the follow-up call, when the first response
    carries tool calls whose arguments all parse. *)
Lemma body_with_tool_calls message s message_obj calls :
  openai_client s = true →
  completion (length (completions (trace s)))
    (first_request (chat_history s ++ [UserEntry message]) (mcp_tools s))
    = Done message_obj →
  msg_tool_calls message_obj = calls.*1 →
  calls ≠ [] →
  Forall (parsed json_loads) calls →
  provider_responds →
  ∃ s2 dt, body message s = follow_up s2
    ∧ step_of s s2
        ([UserEntry message; AssistantMessage message_obj]
           ++ entries_of (sessions (trace s)) calls)
        (notifications str_json calls)
        (EvCompletion
           (first_request (chat_history s ++ [UserEntry message])
              (mcp_tools s)) :: dt)
    ∧ completions dt = []
    ∧ sessions dt = length calls.
Proof.
  intros Hc Hfirst Hcalls Hne Hp Hr.
  set (req := first_request (chat_history s ++ [UserEntry message])
                (mcp_tools s)) in *.
  set (s_b := set_chat_history
                (chat_history s ++ [UserEntry message]
                   ++ [AssistantMessage message_obj])
                (set_trace (trace s ++ [EvCompletion req]) s)).
  destruct (resolve_all calls s_b Hp Hr) as (s2 & dt & Hrun & Hd & Hcs & Hn).
  exists s2, dt. split; [|split; [|done]].
  - unfold chat_with_gpt_body.
    unfold mbind at 1, M_bind at 1. cbn [append_history modify].
    unfold mbind at 1, M_bind at 1. cbn [gets].
    unfold mbind at 1, M_bind at 1. cbn [gets].
    unfold mbind at 1, M_bind at 1.
    rewrite create_eq by done. cbn [chat_history mcp_tools trace
      set_chat_history set_trace].
    fold req. rewrite Hfirst. cbn [await mret M_ret].
    rewrite Hcalls. destruct calls as [|call calls]; [done|].
    cbn [fmap list_fmap].
    unfold mbind at 1, M_bind at 1. cbn [append_history modify].
    unfold mbind at 1, M_bind at 1.
    match goal with
    | |- match for_each _ _ ?st with _ => _ end = _ =>
        replace st with s_b
    end.
    + change (call.1 :: calls.*1) with ((call :: calls).*1).
      by rewrite Hrun.
    + unfold s_b. cbn. by rewrite <- app_assoc.
  - assert (step_of s s_b [UserEntry message; AssistantMessage message_obj]
              [] [EvCompletion req]) as Hd0.
    { unfold step_of, s_b. cbn. by rewrite app_nil_r. }
    assert (sessions (trace s_b) = sessions (trace s)) as Hs.
    { unfold s_b. cbn [trace set_chat_history set_trace].
      rewrite sessions_app. change (sessions [EvCompletion req]) with 0. lia. }
    rewrite Hs in Hd.
    apply (step_of_trans _ _ _ _ [] [_] _ _ _ Hd0 Hd).
Qed.

Lemma follow_up_completions s :
  openai_client s = true →
  completions (trace (final_state (follow_up s)))
    = completions (trace s)
      ++ [{| req_messages := chat_history s; req_tools := None;
             req_tool_choice := None |}].
Proof.
  intros Hc. unfold final_response.
  unfold mbind at 1, M_bind at 1. cbn [gets].
  unfold mbind at 1, M_bind at 1. rewrite create_eq by done.
  destruct (completion _ _);
    unfold mbind, M_bind, append_history, response_put, modify;
    cbn -[completions]; by rewrite completions_app.
Qed.

Lemma follow_up_done s final :
  openai_client s = true →
  completion (length (completions (trace s)))
    {| req_messages := chat_history s; req_tools := None;
       req_tool_choice := None |} = Done final →
  ∃ s', follow_up s = Ret () s'
    ∧ step_of s s' [AssistantEntry (msg_content final)]
        [("assistant", msg_content final)]
        [EvCompletion {| req_messages := chat_history s; req_tools := None;
                         req_tool_choice := None |}].
Proof.
  intros Hc Hf. unfold final_response.
  unfold mbind at 1, M_bind at 1. cbn [gets].
  unfold mbind at 1, M_bind at 1. rewrite create_eq, Hf by done.
  cbn. eexists. split; [done|]. by unfold step_of.
Qed.

(** ** Properties of tool calls *)

(** C2, as amended: when the first completion response of an exchange
    carries k >= 1 tool calls and the argument string of each of them
    parses, the exchange reaches its follow-up completion call with
    exactly k tool entries appended after the assistant entry, the i-th
    carrying the id of the i-th tool call; the calls were notified and
    resolved one after the other in the order received, one provider
    session each, with no completion call in between; the follow-up call
    is the only other completion call of the exchange, it passes no tools,
    and its messages hold all k tool entries. *)
Theorem tool_calls_resolved_in_order message s message_obj calls :
  openai_client s = true →
  completion (length (completions (trace s)))
    (first_request (chat_history s ++ [UserEntry message]) (mcp_tools s))
    = Done message_obj →
  msg_tool_calls message_obj = calls.*1 →
  calls ≠ [] →
  Forall (parsed json_loads) calls →
  provider_responds →
  ∃ s2, body message s = follow_up s2
    ∧ chat_history s2
      = chat_history s
        ++ [UserEntry message; AssistantMessage message_obj]
        ++ entries_of (sessions (trace s)) calls
    ∧ (tool_entries (chat_history s2)).*1
      = (tool_entries (chat_history s)).*1
        ++ (tc_id <$> msg_tool_calls message_obj)
    ∧ response_queue s2 = response_queue s ++ notifications str_json calls
    ∧ sessions (trace s2)
      = sessions (trace s) + length (msg_tool_calls message_obj)
    ∧ completions (trace s2)
      = completions (trace s)
        ++ [first_request (chat_history s ++ [UserEntry message])
              (mcp_tools s)]
    ∧ completions (trace (final_state (body message s)))
      = completions (trace s)
        ++ [first_request (chat_history s ++ [UserEntry message])
              (mcp_tools s);
            {| req_messages := chat_history s2; req_tools := None;
               req_tool_choice := None |}].
Proof.
  intros Hc Hfirst Hcalls Hne Hp Hr.
  destruct (body_with_tool_calls message s message_obj calls)
    as (s2 & dt & Hb & (Ho & _ & _ & Hh & Hq & Ht) & Hcs & Hn); try done.
  assert (completions (trace s2)
          = completions (trace s)
            ++ [first_request (chat_history s ++ [UserEntry message])
                  (mcp_tools s)]) as Hcomp.
  { rewrite Ht, completions_app.
    change (completions (EvCompletion ?r :: dt)) with (r :: completions dt).
    by rewrite Hcs. }
  exists s2. split; [done|]. split; [done|]. split; [|split; [done|split]].
  - rewrite Hh. unfold tool_entries. rewrite omap_app, fmap_app. f_equal.
    rewrite Hcalls. apply resolved_entries_ids.
  - rewrite Ht, sessions_app. cbn [sessions].
    change (EvCompletion ?r :: dt) with ([EvCompletion r] ++ dt).
    rewrite sessions_app, Hn, Hcalls, length_fmap.
    change (sessions [EvCompletion _]) with 0. lia.
  - split; [done|].
    rewrite Hb, follow_up_completions, Hcomp by congruence.
    by rewrite <- app_assoc.
Qed.

(** C4, as amended: the broker never looks at the catalog.  Whatever the
    tool name and the catalog, the outcome is the one for any other
    catalog: the broker starts a provider session and, once entering the
    session and [session.initialize()] have returned, hands the name and
    the arguments as they are to [call_tool], and makes no other tool
    request.  It never raises: when the session returns it returns the
    text of the provider's answer, when the session raises it returns an
    error string naming the tool, and while the session does not answer
    it does not return. *)
Theorem broker_ignores_catalog tool_name arguments tools s :
  execute tool_name arguments (set_mcp_tools tools s)
    = map_state (set_mcp_tools tools) (execute tool_name arguments s)
  ∧ raised (execute tool_name arguments s) = false
  ∧ (∃ t, trace (final_state (execute tool_name arguments s))
          = trace s ++ EvStdioClient :: t
          ∧ tool_requests t
            = match connect (sessions (trace s)),
                    initialize (sessions (trace s)) with
              | Done _, Done _ => [(tool_name, arguments)]
              | _, _ => []
              end)
  ∧ execute tool_name arguments s
    = match result_of (sessions (trace s)) tool_name arguments with
      | Done content =>
          Ret (format_result content)
            (set_trace
               (trace s ++ trace_of (sessions (trace s)) tool_name arguments)
               s)
      | Fails str_e =>
          Ret ("Error executing tool " +:+ tool_name +:+ ": " +:+ str_e)
            (set_trace
               (trace s ++ trace_of (sessions (trace s)) tool_name arguments)
               s)
      | Stuck =>
          Hang
            (set_trace
               (trace s ++ trace_of (sessions (trace s)) tool_name arguments)
               s)
      end.
Proof.
  split; [|split; [|split]].
  - rewrite !execute_mcp_tool_eq. cbn.
    by destruct (result_of _ _ _).
  - apply execute_mcp_tool_not_raised.
  - rewrite execute_mcp_tool_eq. cbn zeta.
    assert (∃ t, trace_of (sessions (trace s)) tool_name arguments
                 = EvStdioClient :: t
                 ∧ tool_requests t
                   = match connect (sessions (trace s)),
                           initialize (sessions (trace s)) with
                     | Done _, Done _ => [(tool_name, arguments)]
                     | _, _ => []
                     end) as (t & Ht & Hreq).
    { unfold session_trace.
      destruct (connect (sessions (trace s))); [|by eexists..].
      destruct (initialize (sessions (trace s))); [|by eexists..].
      destruct (call_tool (sessions (trace s)) tool_name arguments);
        by eexists. }
    exists t. rewrite Ht. split; [|done].
    by destruct (result_of _ _ _).
  - apply execute_mcp_tool_eq.
Qed.

(** C5, as amended: when the provider session returns content parts, the
    broker returns their texts joined by line feeds, in the order
    returned, a part without text through its [str]; for no part at all
    it returns the fixed no-output string; and that text is the content of
    the tool entry. *)
Theorem tool_result_joined_by_newlines tc arguments content s :
  json_loads (tc_arguments tc) = inl arguments →
  result_of (sessions (trace s)) (tc_name tc) arguments = Done content →
  let text := match content with
              | [] => "Tool executed successfully (no output)"
              | _ => String.concat newline (part_text <$> content)
              end in
  (∃ s', execute (tc_name tc) arguments s = Ret text s')
  ∧ (∃ s', resolve tc s = Ret () s'
       ∧ chat_history s' = chat_history s ++ [ToolEntry (tc_id tc) text]).
Proof.
  intros Hj Hr text. split.
  - rewrite execute_mcp_tool_eq. cbn. rewrite Hr. eauto.
  - destruct (resolve_eq tc arguments s Hj) as (s' & Hs & Hd);
      [by rewrite Hr|].
    exists s'. split; [done|]. rewrite Hr in Hd.
    by destruct Hd as (_ & _ & _ & -> & _).
Qed.

(** C6, as amended: the broker sets no time bound of its own.  When the
    provider session raises, for whatever reason, a timeout raised by the
    transport included, the broker returns an error string that names the
    tool; that string is the content of the tool entry, no error event is
    emitted, and the loop over the tool calls goes on.  While the provider
    session does not answer, the broker does not return. *)
Theorem tool_failure_becomes_tool_entry tc arguments str_e s :
  json_loads (tc_arguments tc) = inl arguments →
  result_of (sessions (trace s)) (tc_name tc) arguments = Fails str_e →
  let text := "Error executing tool " +:+ tc_name tc +:+ ": " +:+ str_e in
  (∃ s', execute (tc_name tc) arguments s = Ret text s')
  ∧ (∃ s', resolve tc s = Ret () s'
       ∧ chat_history s' = chat_history s ++ [ToolEntry (tc_id tc) text]
       ∧ error_events (response_queue s') = error_events (response_queue s))
  ∧ ∀ tool_name arguments0 s0,
      result_of (sessions (trace s0)) tool_name arguments0 = Stuck →
      hung (execute tool_name arguments0 s0) = true.
Proof.
  intros Hj Hr text. split; [|split].
  - rewrite execute_mcp_tool_eq. cbn. rewrite Hr. eauto.
  - destruct (resolve_eq tc arguments s Hj) as (s' & Hs & Hd);
      [by rewrite Hr|].
    exists s'. split; [done|]. rewrite Hr in Hd.
    destruct Hd as (_ & _ & _ & -> & -> & _). split; [done|].
    rewrite error_events_app. cbn. by rewrite app_nil_r.
  - intros tool_name arguments0 s0 Hs.
    rewrite execute_mcp_tool_eq. cbn. by rewrite Hs.
Qed.

Lemma error_events_notifications calls :
  error_events (notifications str_json calls) = [].
Proof. by induction calls. Qed.

(** C7, as amended: the client is connected to the backend, two messages
    that are not the sentinel are queued, and the first completion call
    of the first one returns tool calls.  When the provider fails during
    the session of one of these tool calls, the argument strings of all
    of them parse, every call to the provider returns or raises, and the
    follow-up completion call returns, then no event of kind [error] is
    emitted: the error string naming the tool is the content of that
    call's tool entry, the outbound events of the exchange are the tool
    notifications and then the assistant's reply; the turn of the loop
    ends normally and the next turn runs the exchange of the next queued
    message. *)
Theorem provider_failure_stays_in_transcript
    message next q schedule s message_obj calls i tc arguments str_e final :
  message_queue s = message :: next :: q →
  message ≠ QUIT →
  next ≠ QUIT →
  openai_client s = true →
  completion (length (completions (trace s)))
    (first_request (chat_history s ++ [UserEntry message]) (mcp_tools s))
    = Done message_obj →
  msg_tool_calls message_obj = calls.*1 →
  Forall (parsed json_loads) calls →
  provider_responds →
  calls !! i = Some (tc, arguments) →
  result_of (sessions (trace s) + i) (tc_name tc) arguments = Fails str_e →
  completion (S (length (completions (trace s))))
    {| req_messages :=
         chat_history s
           ++ [UserEntry message; AssistantMessage message_obj]
           ++ entries_of (sessions (trace s)) calls;
       req_tools := None; req_tool_choice := None |} = Done final →
  ∃ s1, iteration s = Ret Continue s1
    ∧ ToolEntry (tc_id tc)
        ("Error executing tool " +:+ tc_name tc +:+ ": " +:+ str_e)
      ∈ chat_history s1
    ∧ response_queue s1
      = response_queue s ++ notifications str_json calls
        ++ [("assistant", msg_content final)]
    ∧ error_events (response_queue s1) = error_events (response_queue s)
    ∧ message_queue s1 = next :: q
    ∧ worker ([] :: [] :: schedule) s
      = match chat next (set_message_queue q s1) with
        | Ret _ s' => worker schedule (set_trace (trace s' ++ [EvSleep]) s')
        | Raise e s' => Raise e s'
        | Hang s' => Hang s'
        end.
Proof.
  intros Hq Hm Hnext Hc Hfirst Hcalls Hp Hr Hi Hfail Hfinal.
  set (s0 := set_message_queue (next :: q) s).
  destruct (body_with_tool_calls message s0 message_obj calls)
    as (s2 & dt & Hb & (Ho & _ & Hq2 & Hh & Hrq & Ht) & Hcs & Hn);
    try done.
  { intros ->. done. }
  cbn [s0 openai_client message_queue chat_history response_queue trace
       set_message_queue] in Ho, Hq2, Hh, Hrq, Ht.
  destruct (follow_up_done s2 final) as (s3 & Hf & Hd3).
  { congruence. }
  { rewrite Hh, Ht, completions_app.
    change (completions (EvCompletion ?r :: dt)) with (r :: completions dt).
    rewrite Hcs, length_app. cbn [length].
    by replace (length (completions (trace s)) + 1) with
      (S (length (completions (trace s)))) by lia. }
  destruct Hd3 as (_ & _ & Hq3 & Hh3 & Hrq3 & Ht3).
  assert (chat message s0 = Ret () s3) as Hchat.
  { unfold chat_with_gpt, try_except. by rewrite Hb, Hf. }
  unfold s0 in Hchat.
  assert (iteration s
          = Ret Continue (set_trace (trace s3 ++ [EvSleep]) s3)) as Hit.
  { by rewrite (iteration_exchange s message (next :: q)), Hchat. }
  exists (set_trace (trace s3 ++ [EvSleep]) s3).
  cbn [chat_history response_queue message_queue set_trace].
  split; [done|]. split; [|split; [|split; [|split]]].
  - rewrite Hh3, Hh. apply elem_of_app. left. apply elem_of_app. right.
    apply elem_of_app. right. apply list_elem_of_lookup. exists i.
    rewrite (resolved_entries_lookup _ _ _ _ _ Hi), Hfail. done.
  - rewrite Hrq3, Hrq. by rewrite <- app_assoc.
  - rewrite Hrq3, Hrq, !error_events_app, error_events_notifications.
    cbn. by rewrite !app_nil_r.
  - congruence.
  - rewrite worker_step, app_nil_r, set_message_queue_same, Hit.
    rewrite worker_step, app_nil_r, set_message_queue_same.
    rewrite (iteration_exchange _ next q); [|cbn; congruence|done].
    by destruct (chat next _).
Qed.

End Exchange.

(** ** The tool provider *)

(** C10: [run_command] is total on command lists: it returns a dictionary
    and never raises; ["success"] is true exactly when the subprocess
    completed within the 30-second timeout with return code 0; on a
    timeout or any other exception the dictionary has ["success"] false
    and an ["error"] string, which a completed run does not have. *)
Theorem run_command_total
    (subprocess_run : list string → bool → Z → WifiDiagnostics.run_outcome)
    (cmd : list string) (shell : bool) :
  ∃ d : gmap string WifiDiagnostics.pyval,
    WifiDiagnostics.run_command subprocess_run cmd shell
      = WifiDiagnostics.Returns d
    ∧ d !! "success"
      = Some (WifiDiagnostics.PyBool
                (WifiDiagnostics.completed_ok (subprocess_run cmd shell 30%Z)))
    ∧ d !! "error"
      = WifiDiagnostics.PyStr
          <$> WifiDiagnostics.failure_of (subprocess_run cmd shell 30%Z)
    ∧ (WifiDiagnostics.completed_ok (subprocess_run cmd shell 30%Z) = true
       ↔ ∃ stdout stderr,
           subprocess_run cmd shell 30%Z
           = WifiDiagnostics.CompletedProcess 0 stdout stderr).
Proof.
  unfold WifiDiagnostics.run_command.
  destruct (subprocess_run cmd shell 30%Z) as [rc out err| |e];
    (eexists; split; [reflexivity|]; split; [by rewrite lookup_insert_eq|];
     split; [by repeat (rewrite lookup_insert_ne by done);
                rewrite ?lookup_insert_eq, ?lookup_empty|]); cbn.
  - rewrite Z.eqb_eq. split; [intros ->; eauto|].
    by intros (o & e' & [= -> _ _]).
  - split; [done|]. by intros (o & e' & ?).
  - split; [done|]. by intros (o & e' & ?).
Qed.

(** ** Closed examples *)

(** C1, counterexample: the provider raises during [call_tool], so an
    exception is raised during the exchange by a tool invocation; the
    exchange still puts no event of kind [error] on the outbound queue,
    only the tool notification and the assistant's reply. *)
Lemma tool_exception_makes_no_error_event :
  let o := chat_with_gpt (demo_completion "{}") goes_through goes_through
             (answering (Fails "Connection closed")) demo_json_loads
             demo_str_json "status?"
             (fresh_client [("get_status", get_status_tool)]) in
  answering (Fails "Connection closed") 0 "get_status" (JObject [])
    = Fails "Connection closed"
  ∧ tool_requests (trace (final_state o)) = [("get_status", JObject [])]
  ∧ error_events (response_queue (final_state o)) = []
  ∧ fst <$> response_queue (final_state o) = ["tool"; "assistant"].
Proof. vm_compute. done. Qed.

(** C2, counterexample: the first response carries one tool call whose
    argument string does not parse; the exchange appends no tool entry
    and issues no follow-up completion call. *)
Lemma unparsable_arguments_leave_no_tool_entry :
  let o := chat_with_gpt (demo_completion "{") goes_through goes_through
             (answering (Done [])) demo_json_loads demo_str_json "status?"
             (fresh_client [("get_status", get_status_tool)]) in
  length (msg_tool_calls (wants_tool "{")) = 1
  ∧ (∃ m, chat_history (final_state o)
          = [UserEntry "status?"; AssistantMessage m]
          ∧ length (msg_tool_calls m) = 1)
  ∧ tool_entries (chat_history (final_state o)) = []
  ∧ length (completions (trace (final_state o))) = 1.
Proof.
  vm_compute. split; [done|].
  split; [eexists; split; reflexivity|done].
Qed.

(** C3, counterexample: two messages are enqueued and the backend never
    answers the first completion call; however long the loop is given,
    the worker stays in the first exchange: the transcript has one user
    entry and the second message is still in the queue. *)
Lemma unanswered_call_keeps_a_message_queued :
  let w := async_worker silent_completion goes_through goes_through
             (answering (Done [])) demo_json_loads demo_str_json
             [["first"; "second"]; []; []; []] (fresh_client []) in
  Forall (λ m, m ≠ QUIT) ["first"; "second"]
  ∧ hung w = true
  ∧ user_contents (chat_history (final_state w)) = ["first"]
  ∧ message_queue (final_state w) = ["second"].
Proof. split; [by repeat constructor|]. vm_compute. done. Qed.

(** C4, counterexample: with an empty catalog the broker is asked for
    ["ping"]; it opens a provider session, forwards the call, and returns
    the provider's answer, which is no error string. *)
Lemma unknown_tool_reaches_the_provider :
  let s := fresh_client [] in
  let o := execute_mcp_tool goes_through goes_through
             (answering (Done [TextContent "pong"])) "ping" (JObject []) s in
  mcp_tools s = []
  ∧ returned o = Some "pong"
  ∧ trace (final_state o)
    = [EvStdioClient; EvInitialize; EvCallTool "ping" (JObject []);
       EvSessionClose].
Proof. vm_compute. done. Qed.

(** C5, counterexample: for two text parts the broker returns them with a
    line feed in between, which is not their concatenation. *)
Lemma two_parts_are_not_concatenated :
  let o := execute_mcp_tool goes_through goes_through
             (answering (Done [TextContent "a"; TextContent "b"]))
             "get_status" (JObject []) (fresh_client []) in
  returned o = Some ("a" +:+ newline +:+ "b")
  ∧ returned o ≠ Some (String.concat "" ["a"; "b"]).
Proof. vm_compute. split; [done|discriminate]. Qed.

(** C6, counterexample: a provider that never answers [call_tool] holds
    the broker forever: the invocation neither returns nor raises, and the
    worker, stuck in that exchange, never takes the second message. *)
Lemma stuck_provider_hangs_the_worker :
  let o := execute_mcp_tool goes_through goes_through (answering Stuck)
             "get_status" (JObject []) (fresh_client []) in
  let w := async_worker (demo_completion "{}") goes_through goes_through
             (answering Stuck) demo_json_loads demo_str_json
             [["status?"; "anyone there?"]; []; []; []]
             (fresh_client [("get_status", get_status_tool)]) in
  hung o = true
  ∧ returned o = None
  ∧ hung w = true
  ∧ user_contents (chat_history (final_state w)) = ["status?"]
  ∧ message_queue (final_state w) = ["anyone there?"]
  ∧ tool_entries (chat_history (final_state w)) = [].
Proof. vm_compute. done. Qed.

(** C7, counterexample: the provider fails during [call_tool] while two
    messages are queued; the worker handles both, and no event of kind
    [error] is ever put on the outbound queue: the text that names the
    tool is in the transcript, as a tool entry. *)
Lemma provider_failure_makes_no_error_event :
  let w := async_worker (demo_completion "{}") goes_through goes_through
             (answering (Fails "Connection closed")) demo_json_loads
             demo_str_json [["status?"; "thanks"]; []]
             (fresh_client [("get_status", get_status_tool)]) in
  returned w = Some Running
  ∧ error_events (response_queue (final_state w)) = []
  ∧ filter (λ ev, ev.1 = "error") (response_queue (final_state w)) = []
  ∧ tool_entries (chat_history (final_state w))
    = [("call_1", "Error executing tool get_status: Connection closed")]
  ∧ user_contents (chat_history (final_state w)) = ["status?"; "thanks"].
Proof. vm_compute. done. Qed.

Lemma answering_responsive x :
  x ≠ Stuck → provider_responsive goes_through goes_through (answering x).
Proof. intros Hx. by repeat split. Qed.

Lemma plain_backend_responsive x :
  x ≠ Stuck →
  responsive plain_completion goes_through goes_through (answering x).
Proof. intros Hx. split; [done|by apply answering_responsive]. Qed.

(** C1, witness: the backend cannot be reached while ["hello"] is
    processed. *)
Lemma exchange_failure_contained_witness :
  ∃ s2,
    chat_with_gpt failing_completion goes_through goes_through
      (answering (Done [])) demo_json_loads demo_str_json "hello"
      (fresh_client []) = Ret () s2
    ∧ error_events (response_queue s2)
      = [Some "Error communicating with ChatGPT: Connection error."].
Proof.
  edestruct (exchange_failure_contained failing_completion goes_through
               goes_through (answering (Done [])) demo_json_loads
               demo_str_json "hello" [] []
               (set_message_queue ["hello"] (fresh_client [])))
    as (Hc & He & _).
  - reflexivity.
  - discriminate.
  - vm_compute. reflexivity.
  - eexists. split; [exact Hc|exact He].
Defined.

(** C2, witness: one [get_status] call with the arguments ["{}"]. *)
Lemma tool_calls_resolved_in_order_witness :
  ∃ s2,
    chat_with_gpt_body (demo_completion "{}") goes_through goes_through
      (answering (Done [])) demo_json_loads demo_str_json "status?"
      (fresh_client [("get_status", get_status_tool)])
    = final_response (demo_completion "{}") s2
    ∧ (tool_entries (chat_history s2)).*1 = ["call_1"].
Proof.
  destruct (tool_calls_resolved_in_order (demo_completion "{}") goes_through
              goes_through (answering (Done [])) demo_json_loads
              demo_str_json "status?"
              (fresh_client [("get_status", get_status_tool)])
              (wants_tool "{}") [(get_status_call "{}", JObject [])])
    as (s2 & Hb & _ & Hids & _).
  - reflexivity.
  - reflexivity.
  - reflexivity.
  - discriminate.
  - repeat constructor.
  - by apply answering_responsive.
  - exists s2. split; [exact Hb|exact Hids].
Defined.

(** C3, witness: ["a"] arrives before the first turn, ["b"] before the
    second. *)
Lemma user_entries_in_arrival_order_witness :
  ∃ s',
    async_worker plain_completion goes_through goes_through
      (answering (Done [])) demo_json_loads demo_str_json
      ([["a"]; ["b"]] ++ replicate 2 []) (fresh_client [])
    = Ret Running s'
    ∧ message_queue s' = []
    ∧ user_contents (chat_history s') = ["a"; "b"].
Proof.
  destruct (user_entries_in_arrival_order plain_completion goes_through
              goes_through (answering (Done [])) demo_json_loads
              demo_str_json [["a"]; ["b"]] 2 (fresh_client []))
    as (s' & Hw & Hq & Hu & _).
  - by apply plain_backend_responsive.
  - reflexivity.
  - reflexivity.
  - repeat constructor; discriminate.
  - cbn. lia.
  - exists s'. split; [exact Hw|]. split; [exact Hq|exact Hu].
Defined.

(** C5, witness: a text part and a part without text. *)
Lemma tool_result_joined_by_newlines_witness :
  returned
    (execute_mcp_tool goes_through goes_through
       (answering (Done [TextContent "a"; OtherContent "<image>"]))
       "get_status" (JObject []) (fresh_client []))
  = Some ("a" +:+ newline +:+ "<image>").
Proof.
  destruct (tool_result_joined_by_newlines goes_through goes_through
              (answering (Done [TextContent "a"; OtherContent "<image>"]))
              demo_json_loads demo_str_json (get_status_call "{}")
              (JObject []) [TextContent "a"; OtherContent "<image>"]
              (fresh_client []))
    as ((s' & He) & _).
  - reflexivity.
  - reflexivity.
  - cbn [tc_name get_status_call] in He. rewrite He. reflexivity.
Defined.

(** C6, witness: the provider closes the connection. *)
Lemma tool_failure_becomes_tool_entry_witness :
  returned
    (execute_mcp_tool goes_through goes_through
       (answering (Fails "Connection closed"))
       "get_status" (JObject []) (fresh_client []))
  = Some "Error executing tool get_status: Connection closed".
Proof.
  destruct (tool_failure_becomes_tool_entry goes_through goes_through
              (answering (Fails "Connection closed"))
              demo_json_loads demo_str_json (get_status_call "{}")
              (JObject []) "Connection closed" (fresh_client []))
    as ((s' & He) & _).
  - reflexivity.
  - reflexivity.
  - cbn [tc_name get_status_call] in He. rewrite He. reflexivity.
Defined.

(** C7, witness: the provider closes the connection while ["thanks"]
    waits in the queue. *)
Lemma provider_failure_stays_in_transcript_witness :
  ∃ s1,
    worker_iteration (demo_completion "{}") goes_through goes_through
      (answering (Fails "Connection closed")) demo_json_loads demo_str_json
      (set_message_queue ["status?"; "thanks"]
         (fresh_client [("get_status", get_status_tool)]))
    = Ret Continue s1
    ∧ ToolEntry "call_1" "Error executing tool get_status: Connection closed"
      ∈ chat_history s1
    ∧ error_events (response_queue s1) = []
    ∧ message_queue s1 = ["thanks"].
Proof.
  destruct (provider_failure_stays_in_transcript (demo_completion "{}")
              goes_through goes_through
              (answering (Fails "Connection closed")) demo_json_loads
              demo_str_json "status?" "thanks" [] []
              (set_message_queue ["status?"; "thanks"]
                 (fresh_client [("get_status", get_status_tool)]))
              (wants_tool "{}") [(get_status_call "{}", JObject [])] 0
              (get_status_call "{}") (JObject []) "Connection closed"
              (says "fine"))
    as (s1 & Hi & Ht & _ & He & Hq & _).
  - reflexivity.
  - discriminate.
  - discriminate.
  - reflexivity.
  - reflexivity.
  - reflexivity.
  - repeat constructor.
  - by apply answering_responsive.
  - reflexivity.
  - reflexivity.
  - reflexivity.
  - exists s1. split; [exact Hi|]. split; [exact Ht|].
    split; [exact He|exact Hq].
Defined.

(** C8, witness: the sentinel is enqueued while the exchange of ["a"] is
    in flight. *)
Lemma shutdown_between_exchanges_witness :
  ∃ s1,
    async_worker plain_completion goes_through goes_through
      (answering (Done [])) demo_json_loads demo_str_json
      [[]; [QUIT]] (set_message_queue ["a"] (fresh_client []))
    = Ret Exited s1
    ∧ chat_history s1 = [UserEntry "a"; AssistantEntry (Some "fine")]
    ∧ response_queue s1 = [("assistant", Some "fine")].
Proof.
  eexists. split.
  - eapply (shutdown_between_exchanges plain_completion goes_through
              goes_through (answering (Done [])) demo_json_loads
              demo_str_json ["a"] 1 [] []).
    + reflexivity.
    + repeat constructor; discriminate.
    + cbn. lia.
    + vm_compute. reflexivity.
  - split; reflexivity.
Defined.

(** C9, witness: the user types the sentinel with blanks around it. *)
Lemma typed_quit_is_the_sentinel_witness :
  let g := {| input_entry := " QUIT "; chat_display := [] |} in
  snd (send_message_sync g (fresh_client [])) = on_closing (fresh_client [])
  ∧ async_worker plain_completion goes_through goes_through
      (answering (Done [])) demo_json_loads demo_str_json [[]]
      (on_closing (fresh_client []))
    = Ret Exited (fresh_client []).
Proof.
  intros g.
  destruct (typed_quit_is_the_sentinel plain_completion goes_through
              goes_through (answering (Done [])) demo_json_loads
              demo_str_json g (fresh_client [])
              (on_closing (fresh_client [])) [] [])
    as (Hs & _ & Hw & _).
  - reflexivity.
  - reflexivity.
  - reflexivity.
  - split; [exact Hs|exact Hw].
Defined.

(** * Further properties of the code *)

(** ** The worker loop and the exchange *)

Section Loop.

Variable completion : nat → request → ext message.
Variable connect : nat → ext unit.
Variable initialize : nat → ext unit.
Variable call_tool : nat → string → json → ext (list content_part).
Variable json_loads : string → json + string.
Variable str_json : json → string.

Local Abbreviation create := (completions_create completion).
Local Abbreviation execute := (execute_mcp_tool connect initialize call_tool).
Local Abbreviation resolve :=
  (resolve_tool_call connect initialize call_tool json_loads str_json).
Local Abbreviation follow_up := (final_response completion).
Local Abbreviation body :=
  (chat_with_gpt_body completion connect initialize call_tool json_loads
     str_json).
Local Abbreviation chat :=
  (chat_with_gpt completion connect initialize call_tool json_loads str_json).
Local Abbreviation iteration :=
  (worker_iteration completion connect initialize call_tool json_loads
     str_json).
Local Abbreviation worker :=
  (async_worker completion connect initialize call_tool json_loads str_json).
Local Abbreviation result_of := (session_result connect initialize call_tool).
Local Abbreviation trace_of := (session_trace connect initialize call_tool).

(** X1: the loop never raises.  Whatever arrives and whatever the
    backend, the provider and the parser do, a run of [async_worker]
    returns or is held by an external call; no exception leaves it. *)
Theorem worker_never_raises schedule s : raised (worker schedule s) = false.
Proof.
  revert s. induction schedule as [|arrivals schedule IH]; intros s; [done|].
  rewrite worker_step.
  pose proof (iteration_not_raised completion connect initialize call_tool
                json_loads str_json
                (set_message_queue (message_queue s ++ arrivals) s)) as Hr.
  destruct (iteration _) as [[] s'| |]; first [done | apply IH].
Qed.

(** One turn of the loop only appends to the transcript, to the outbound
    queue and to the effects, and leaves the backend client and the
    catalog as they are. *)
Lemma iteration_grows s :
  let s' := final_state (iteration s) in
  chat_history s `prefix_of` chat_history s'
  ∧ response_queue s `prefix_of` response_queue s'
  ∧ trace s `prefix_of` trace s'
  ∧ openai_client s' = openai_client s
  ∧ mcp_tools s' = mcp_tools s.
Proof.
  destruct (message_queue s) as [|message q] eqn:Hq.
  - rewrite (iteration_idle _ _ _ _ _ _ s Hq). cbn.
    repeat split; first [done | by apply prefix_app_r].
  - destruct (String.eqb_spec message QUIT) as [->|Hm].
    + by rewrite (iteration_quit _ _ _ _ _ _ s q Hq).
    + rewrite (iteration_exchange _ _ _ _ _ _ s message q Hq Hm).
      destruct (chat_delta completion connect initialize call_tool
                  json_loads str_json message (set_message_queue q s))
        as (dh & dr & dt & (Ho & Hm' & _ & Hh & Hr & Ht) & _).
      destruct (chat message (set_message_queue q s)) as [[] s1|e s1|s1];
        cbn in *; rewrite ?Hh, ?Hr, ?Ht;
        repeat split; try done;
        try (by apply prefix_app_r);
        by rewrite <- app_assoc; apply prefix_app_r.
Qed.

(** X2: the loop is append-only.  Along any run of [async_worker], however
    it ends, the transcript, the outbound queue and the effects at the end
    extend those at the start, and the backend client and the catalog are
    untouched. *)
Theorem worker_append_only schedule s :
  let s' := final_state (worker schedule s) in
  chat_history s `prefix_of` chat_history s'
  ∧ response_queue s `prefix_of` response_queue s'
  ∧ trace s `prefix_of` trace s'
  ∧ openai_client s' = openai_client s
  ∧ mcp_tools s' = mcp_tools s.
Proof.
  revert s. induction schedule as [|arrivals schedule IH]; intros s; [done|].
  rewrite worker_step.
  pose proof (iteration_grows
                (set_message_queue (message_queue s ++ arrivals) s)) as Hg.
  cbn in Hg.
  destruct (iteration _) as [[] s1|e s1|s1]; cbn in Hg |- *; try done.
  destruct Hg as (Hh & Hr & Ht & Ho & Hm).
  destruct (IH s1) as (Hh' & Hr' & Ht' & Ho' & Hm').
  repeat split; try (by etrans); congruence.
Qed.

(** X3: a reply without tool calls.  When the backend answers the first
    request with a message that carries no tool call, the exchange
    appends the user entry and the assistant entry, puts one assistant
    event on the outbound queue (its text is the content, which may be
    absent), makes this one completion call and opens no provider
    session. *)
Theorem plain_reply_exchange message s message_obj :
  openai_client s = true →
  completion (length (completions (trace s)))
    (first_request (chat_history s ++ [UserEntry message]) (mcp_tools s))
    = Done message_obj →
  msg_tool_calls message_obj = [] →
  ∃ s', chat message s = Ret () s'
    ∧ step_of s s'
        [UserEntry message; AssistantEntry (msg_content message_obj)]
        [("assistant", msg_content message_obj)]
        [EvCompletion
           (first_request (chat_history s ++ [UserEntry message])
              (mcp_tools s))]
    ∧ sessions (trace s') = sessions (trace s).
Proof.
  intros Hc Hfirst Hcalls.
  unfold chat_with_gpt, try_except, chat_with_gpt_body.
  unfold mbind at 1, M_bind at 1. cbn [append_history modify].
  unfold mbind at 1, M_bind at 1. cbn [gets].
  unfold mbind at 1, M_bind at 1. cbn [gets].
  unfold mbind at 1, M_bind at 1.
  rewrite create_eq by done.
  cbn [chat_history mcp_tools trace set_chat_history set_trace].
  rewrite Hfirst. cbn [await mret M_ret]. rewrite Hcalls.
  unfold mbind, M_bind, append_history, response_put, modify.
  cbn -[sessions].
  eexists. split; [done|]. split.
  - unfold step_of. cbn. by rewrite <- app_assoc.
  - cbn -[sessions]. rewrite sessions_app. change (sessions [EvCompletion _]) with 0. lia.
Qed.

(** Counting the completion calls and the provider sessions. *)

Import Bounds.

Lemma within_weaken {A} c k c' k' (m : M A) :
  (c ≤ c')%nat → (k ≤ k')%nat → effects_within c k m →
  effects_within c' k' m.
Proof.
  intros Hc Hk Hm s'. destruct (Hm s') as (dt & Ht & H1 & H2).
  exists dt. split; [done|]. lia.
Qed.

Lemma within_silent {A} (m : M A) :
  (∀ s, trace (final_state (m s)) = trace s) → effects_within 0 0 m.
Proof.
  intros Hm s. exists []. rewrite Hm, app_nil_r. by repeat split.
Qed.

Lemma within_ret {A} (a : A) : effects_within 0 0 (mret a : M A).
Proof. by apply within_silent. Qed.

Lemma within_raise {A} e : effects_within 0 0 (raise e : M A).
Proof. by apply within_silent. Qed.

Lemma within_bind {A B} c1 k1 c2 k2 (m : M A) (f : A → M B) :
  effects_within c1 k1 m → (∀ a, effects_within c2 k2 (f a)) →
  effects_within (c1 + c2) (k1 + k2) (m ≫= f).
Proof.
  intros Hm Hf s. unfold mbind, M_bind.
  destruct (Hm s) as (dt & Ht & H1 & H2).
  destruct (m s) as [a s'| |]; cbn in Ht.
  - destruct (Hf a s') as (dt' & Ht' & H1' & H2').
    exists (dt ++ dt'). rewrite Ht', Ht, app_assoc.
    rewrite completions_app, sessions_app, length_app. split; [done|]. lia.
  - exists dt. split; [done|]. lia.
  - exists dt. split; [done|]. lia.
Qed.

Lemma within_then {A B} c k (m : M A) (f : A → M B) :
  effects_within 0 0 m → (∀ a, effects_within c k (f a)) →
  effects_within c k (m ≫= f).
Proof. apply (within_bind 0 0 c k). Qed.

Lemma within_try_except {A} c1 k1 c2 k2 (m : M A) handler :
  effects_within c1 k1 m → (∀ e, effects_within c2 k2 (handler e)) →
  effects_within (c1 + c2) (k1 + k2) (try_except m handler).
Proof.
  intros Hm Hf s. unfold try_except.
  destruct (Hm s) as (dt & Ht & H1 & H2).
  destruct (m s) as [a s'|e s'|]; cbn in Ht.
  - exists dt. split; [done|]. lia.
  - destruct (Hf e s') as (dt' & Ht' & H1' & H2').
    exists (dt ++ dt'). rewrite Ht', Ht, app_assoc.
    rewrite completions_app, sessions_app, length_app. split; [done|]. lia.
  - exists dt. split; [done|]. lia.
Qed.

Lemma within_async_with {A} c k (m : M A) on_exit :
  effects_within c k m → effects_within 0 0 on_exit →
  effects_within c k (async_with m on_exit).
Proof.
  intros Hm Hx s. unfold async_with.
  destruct (Hm s) as (dt & Ht & H1 & H2).
  destruct (m s) as [a s'|e s'|]; cbn in Ht;
    [| |exists dt; split; [done|lia]].
  - destruct (within_then 0 0 on_exit (λ _, mret a) Hx
                (λ _, within_ret a) s')
      as (dt' & Ht' & H1' & H2').
    exists (dt ++ dt'). rewrite Ht', Ht, app_assoc.
    rewrite completions_app, sessions_app, length_app. split; [done|]. lia.
  - destruct (within_then 0 0 on_exit (λ _, raise (A:=A) e) Hx
                (λ _, within_raise e) s')
      as (dt' & Ht' & H1' & H2').
    exists (dt ++ dt'). rewrite Ht', Ht, app_assoc.
    rewrite completions_app, sessions_app, length_app. split; [done|]. lia.
Qed.

Lemma within_for_each {A} k (l : list A) f :
  (∀ x, effects_within 0 k (f x)) →
  effects_within 0 (length l * k) (for_each l f).
Proof.
  intros Hb. induction l as [|x l IH]; cbn [for_each length].
  - by apply within_silent.
  - apply (within_weaken (0 + 0) (k + length l * k)); [lia|lia|].
    apply within_bind; [apply Hb|done].
Qed.

Lemma within_await {A} (x : ext A) : effects_within 0 0 (await x).
Proof. apply within_silent. intros s. by destruct x. Qed.

Lemma within_create req : effects_within 1 0 (create req).
Proof.
  intros s. unfold completions_create, mbind, M_bind, gets, emit, modify.
  destruct (openai_client s).
  - exists [EvCompletion req]. split; [by destruct (completion _ _)|].
    split; [cbn; lia|done].
  - exists []. cbn. rewrite app_nil_r. split; [done|]. split; [lia|done].
Qed.

Lemma within_execute tool_name arguments :
  effects_within 0 1 (execute tool_name arguments).
Proof.
  intros s. rewrite execute_mcp_tool_eq. cbn zeta.
  exists (trace_of (sessions (trace s)) tool_name arguments).
  rewrite session_trace_completions, session_trace_sessions.
  split; [by destruct (result_of _ _ _)|]. split; [cbn; lia|done].
Qed.

Lemma within_resolve tc : effects_within 0 1 (resolve tc).
Proof.
  unfold resolve_tool_call.
  apply within_then.
  { destruct (json_loads _); by apply within_silent. }
  intros arguments. apply within_then; [by apply within_silent|].
  intros _. apply (within_weaken (0 + 0) (1 + 0)); [lia|lia|].
  apply within_bind; [apply within_execute|].
  intros r. by apply within_silent.
Qed.

Lemma within_follow_up : effects_within 1 0 follow_up.
Proof.
  unfold final_response. apply within_then; [by apply within_silent|].
  intros h. apply (within_weaken (1 + 0) (0 + 0)); [lia|lia|].
  apply within_bind; [apply within_create|].
  intros final.
  apply within_then; [by apply within_silent|intros; by apply within_silent].
Qed.

(** What the [try] block does once the first response is there. *)
Lemma within_after_response message_obj :
  effects_within 1 (length (msg_tool_calls message_obj))
    (match msg_tool_calls message_obj with
     | [] =>
         append_history (AssistantEntry (msg_content message_obj));;
         response_put "assistant" (msg_content message_obj)
     | tool_calls =>
         append_history (AssistantMessage message_obj);;
         for_each tool_calls resolve;;
         follow_up
     end).
Proof.
  destruct (msg_tool_calls message_obj) as [|tc tcs] eqn:Hcalls.
  - apply (within_weaken 0 0); [lia|lia|].
    apply within_then;
      [by apply within_silent|intros; by apply within_silent].
  - apply within_then; [by apply within_silent|]. intros _.
    apply (within_weaken (0 + 1) (length (tc :: tcs) * 1 + 0));
      [lia|cbn [length]; lia|].
    apply within_bind; [|intros _; apply within_follow_up].
    apply within_for_each. apply within_resolve.
Qed.

(** X4: the external calls of one exchange.  However an exchange ends, it
    makes at most two completion calls and opens at most one provider
    session per tool call of the first response, none when that response
    never came. *)
Theorem exchange_effects_bounded message s :
  ∃ dt,
    trace (final_state (chat message s)) = trace s ++ dt
    ∧ (length (completions dt) ≤ 2)%nat
    ∧ (sessions dt
       ≤ match completion (length (completions (trace s)))
                 (first_request (chat_history s ++ [UserEntry message])
                    (mcp_tools s)) with
         | Done message_obj => length (msg_tool_calls message_obj)
         | _ => 0
         end)%nat.
Proof.
  set (req := first_request (chat_history s ++ [UserEntry message])
                (mcp_tools s)).
  assert (∃ dt,
    trace (final_state (body message s)) = trace s ++ dt
    ∧ (length (completions dt) ≤ 2)%nat
    ∧ (sessions dt
       ≤ match completion (length (completions (trace s))) req with
         | Done message_obj => length (msg_tool_calls message_obj)
         | _ => 0
         end)%nat) as (dt & Ht & H1 & H2).
  { unfold chat_with_gpt_body.
    unfold mbind at 1, M_bind at 1. cbn [append_history modify].
    unfold mbind at 1, M_bind at 1. cbn [gets].
    unfold mbind at 1, M_bind at 1. cbn [gets].
    unfold mbind at 1, M_bind at 1.
    unfold completions_create at 1.
    unfold mbind at 1, M_bind at 1. cbn [gets openai_client set_chat_history].
    destruct (openai_client s).
    2:{ exists []. cbn. rewrite app_nil_r. split; [done|]. split; lia. }
    unfold mbind, M_bind, gets, emit, modify.
    cbn [trace set_chat_history set_trace chat_history mcp_tools].
    fold req. destruct (completion _ req) as [message_obj| |].
    - cbn [await mret M_ret].
      pose proof (within_after_response message_obj
        (set_trace (trace s ++ [EvCompletion req])
           (set_chat_history (chat_history s ++ [UserEntry message]) s)))
        as (dt & Ht & H1 & H2).
      cbn [trace set_trace] in Ht.
      unfold mbind, M_bind, gets, emit, modify in Ht.
      exists ([EvCompletion req] ++ dt).
      split; [by rewrite Ht, <- app_assoc|].
      rewrite completions_app, sessions_app, length_app.
      change (sessions [EvCompletion req]) with 0.
      change (length (completions [EvCompletion req])) with 1.
      split; [lia|exact H2].
    - exists [EvCompletion req]. split; [done|].
      change (sessions [EvCompletion req]) with 0.
      change (length (completions [EvCompletion req])) with 1. lia.
    - exists [EvCompletion req]. split; [done|].
      change (sessions [EvCompletion req]) with 0.
      change (length (completions [EvCompletion req])) with 1. lia. }
  unfold chat_with_gpt, try_except.
  destruct (body message s) as [| |]; cbn in Ht |- *; eauto.
Qed.

End Loop.

(** ** The tool broker's session *)

Ltac not_among :=
  let Hin := fresh "Hin" in
  intros Hin;
  repeat (apply elem_of_cons in Hin as [Hin|Hin]; [discriminate|]);
  by apply elem_of_nil in Hin.

(** X5: a provider session that was entered is left again.  When entering
    the session succeeds and no call is held, the effects of the broker
    are the opening, the steps inside, and one closing at the very end,
    whether [call_tool] returned or raised or [initialize] raised; and
    the broker changes nothing of the client but its effects. *)
Theorem session_closed_on_every_path
    connect initialize call_tool tool_name arguments s :
  connect (sessions (trace s)) = Done () →
  session_result connect initialize call_tool (sessions (trace s)) tool_name
    arguments ≠ Stuck →
  ∃ inside,
    final_state (execute_mcp_tool connect initialize call_tool tool_name
                   arguments s)
    = set_trace (trace s ++ EvStdioClient :: (inside ++ [EvSessionClose])) s
    ∧ (EvSessionClose ∉ inside)
    ∧ (EvStdioClient ∉ inside).
Proof.
  intros Hc Hr. rewrite execute_mcp_tool_eq. cbn zeta.
  unfold session_result, session_trace in *. rewrite Hc in *.
  destruct (initialize (sessions (trace s))) as [[]|e|]; [| |done].
  - destruct (call_tool (sessions (trace s)) tool_name arguments)
      as [content|e|]; [| |done];
      (exists [EvInitialize; EvCallTool tool_name arguments];
       split; [done|]; split; not_among).
  - exists [EvInitialize]. split; [done|]. split; not_among.
Qed.

(** ** The input field *)

(** Appending, which does not compute by itself, and stripping. *)
Lemma append_nil t : "" +:+ t = t.
Proof. done. Qed.

Lemma append_cons a s t : String a s +:+ t = String a (s +:+ t).
Proof. done. Qed.

Lemma append_nil_r s : s +:+ "" = s.
Proof. induction s as [|a s IH]; [done|]. by rewrite append_cons, IH. Qed.

Lemma append_assoc (a b c : string) : (a +:+ b) +:+ c = a +:+ b +:+ c.
Proof. induction a as [|x a IH]; [done|]. by rewrite !append_cons, IH. Qed.

Lemma space_prefix_app s r t :
  space_prefix s = Some r → space_prefix (s +:+ t) = Some (r +:+ t).
Proof.
  destruct s as [|a [|b [|c s]]]; rewrite ?append_cons, ?append_nil; cbn;
    try done.
  - destruct (space1 a); [by intros [= <-]|done].
  - destruct (space1 a); [by intros [= <-]|].
    destruct (space2 a b); [by intros [= <-]|done].
  - destruct (space1 a); [by intros [= <-]|].
    destruct (space2 a b); [by intros [= <-]|].
    destruct (space3 a b c); [by intros [= <-]|done].
Qed.

Lemma space_prefix_split s r :
  space_prefix s = Some r → ∃ w, s = w +:+ r ∧ w ≠ "".
Proof.
  destruct s as [|a [|b [|c s]]]; cbn; try done.
  - destruct (space1 a); [intros [= <-]|done]. by exists (String a "").
  - destruct (space1 a); [intros [= <-]; by exists (String a "")|].
    destruct (space2 a b); [intros [= <-]|done].
    by exists (String a (String b "")).
  - destruct (space1 a); [intros [= <-]; by exists (String a "")|].
    destruct (space2 a b);
      [intros [= <-]; by exists (String a (String b ""))|].
    destruct (space3 a b c); [intros [= <-]|done].
    by exists (String a (String b (String c ""))).
Qed.

Lemma length_append a b :
  String.length (a +:+ b) = String.length a + String.length b.
Proof.
  induction a as [|x a IH]; [done|]. rewrite append_cons. cbn. by rewrite IH.
Qed.

Lemma space_prefix_length s r :
  space_prefix s = Some r → (String.length r < String.length s)%nat.
Proof.
  intros (w & -> & Hw)%space_prefix_split. rewrite length_append.
  destruct w; [done|cbn; lia].
Qed.

Lemma lstrip_go_enough n s :
  (String.length s ≤ n)%nat → lstrip_go n s = lstrip_go (String.length s) s.
Proof.
  revert s. induction (lt_wf n) as [n _ IH]. intros s Hn.
  destruct n as [|n].
  { destruct s; [done|cbn in Hn; lia]. }
  destruct s as [|a t]; [done|].
  cbn [lstrip_go String.length].
  destruct (space_prefix (String a t)) as [r|] eqn:Hp; [|done].
  apply space_prefix_length in Hp as Hl. cbn in Hl.
  rewrite (IH n) by (cbn in *; lia).
  symmetry. cbn in Hn. apply (IH (String.length t)); lia.
Qed.

Lemma lstrip_eq s :
  lstrip s = match space_prefix s with
             | Some rest => lstrip rest
             | None => s
             end.
Proof.
  unfold lstrip. destruct s as [|a t]; [done|].
  cbn [String.length lstrip_go].
  destruct (space_prefix (String a t)) as [r|] eqn:Hp; [|done].
  apply lstrip_go_enough. apply space_prefix_length in Hp. cbn in Hp. lia.
Qed.

Lemma lstrip_ind (P : string → Prop) :
  (∀ s, space_prefix s = None → P s) →
  (∀ s rest, space_prefix s = Some rest → P rest → P s) →
  ∀ s, P s.
Proof.
  intros Hn Hs s.
  remember (String.length s) as n eqn:Heq.
  revert s Heq. induction (lt_wf n) as [n _ IH]. intros s ->.
  destruct (space_prefix s) as [r|] eqn:Hp; [|by apply Hn].
  apply (Hs _ _ Hp). apply (IH (String.length r)); [|done].
  by apply space_prefix_length.
Qed.

Lemma lstrip_length s : (String.length (lstrip s) ≤ String.length s)%nat.
Proof.
  induction s as [s Hp|s rest Hp IH] using lstrip_ind; rewrite lstrip_eq, Hp;
    [done|].
  apply space_prefix_length in Hp. lia.
Qed.

Lemma lstrip_suffix s : ∃ w, s = w +:+ lstrip s.
Proof.
  induction s as [s Hp|s rest Hp [w IH]] using lstrip_ind;
    rewrite lstrip_eq, Hp; [by exists ""|].
  apply space_prefix_split in Hp as (w0 & -> & _).
  exists (w0 +:+ w). by rewrite append_assoc, <- IH.
Qed.

Lemma lstrip_idem s : lstrip (lstrip s) = lstrip s.
Proof.
  induction s as [s Hp|s rest Hp IH] using lstrip_ind.
  - by rewrite !lstrip_eq, !Hp.
  - by rewrite (lstrip_eq s), Hp.
Qed.

Lemma lstrip_fixed s : lstrip s = s → space_prefix s = None.
Proof.
  intros Hs. destruct (space_prefix s) as [r|] eqn:Hp; [|done].
  rewrite lstrip_eq, Hp in Hs.
  pose proof (lstrip_length r) as Hl. rewrite Hs in Hl.
  apply space_prefix_length in Hp. lia.
Qed.

Lemma blank_append x w :
  lstrip x = "" → lstrip w = "" → lstrip (x +:+ w) = "".
Proof.
  intros Hx Hw.
  induction x as [x Hp|x rest Hp IH] using lstrip_ind.
  - rewrite lstrip_eq, Hp in Hx. by subst x.
  - rewrite lstrip_eq, Hp in Hx.
    by rewrite lstrip_eq, (space_prefix_app _ _ w Hp), IH.
Qed.

Lemma blank_spec s : blank s = true ↔ lstrip s = "".
Proof. unfold blank. by rewrite String.eqb_eq. Qed.

Lemma rstrip_cons a t :
  rstrip (String a t)
  = if blank (String a t) then "" else String a (rstrip t).
Proof. done. Qed.

Lemma rstrip_split s : ∃ w, s = rstrip s +:+ w ∧ lstrip w = "".
Proof.
  induction s as [|a t (w & IH & Hw)]; [by exists ""|].
  rewrite rstrip_cons. destruct (blank (String a t)) eqn:Hb.
  - exists (String a t). split; [done|]. by apply blank_spec.
  - exists w. split; [|done]. by rewrite append_cons, <- IH.
Qed.

Lemma rstrip_idem s : rstrip (rstrip s) = rstrip s.
Proof.
  induction s as [|a t IH]; [done|].
  rewrite rstrip_cons. destruct (blank (String a t)) eqn:Hb; [done|].
  rewrite rstrip_cons, IH.
  destruct (blank (String a (rstrip t))) eqn:Hb'; [|done].
  destruct (rstrip_split t) as (w & Ht & Hw).
  apply blank_spec in Hb'.
  pose proof (blank_append _ _ Hb' Hw) as Hc.
  rewrite append_cons, <- Ht in Hc. apply blank_spec in Hc. congruence.
Qed.

Lemma lstrip_rstrip u : lstrip u = u → lstrip (rstrip u) = rstrip u.
Proof.
  intros Hu%lstrip_fixed. rewrite lstrip_eq.
  destruct (space_prefix (rstrip u)) as [r|] eqn:Hp; [|done].
  destruct (rstrip_split u) as (w & Hs & _).
  apply (space_prefix_app _ _ w) in Hp. rewrite <- Hs in Hp. congruence.
Qed.

Lemma strip_lstrip s : lstrip (strip s) = strip s.
Proof. apply lstrip_rstrip, lstrip_idem. Qed.

Lemma strip_rstrip s : rstrip (strip s) = strip s.
Proof. apply rstrip_idem. Qed.

Lemma strip_idem s : strip (strip s) = strip s.
Proof. unfold strip at 1. rewrite strip_lstrip. apply strip_rstrip. Qed.

Lemma rstrip_empty u : rstrip u = "" → lstrip u = "".
Proof.
  destruct u as [|a t]; [done|]. rewrite rstrip_cons.
  destruct (blank (String a t)) eqn:Hb; [|done]. intros _.
  by apply blank_spec.
Qed.

Lemma strip_empty s : strip s = "" ↔ lstrip s = "".
Proof.
  unfold strip. split.
  - intros H%rstrip_empty. by rewrite lstrip_idem in H.
  - by intros ->.
Qed.

(** X6: what the input field puts on the queue.  [send_message_sync]
    enqueues the stripped text of the field, at the tail, exactly when
    that text is not empty and the backend client is set; the text it
    enqueues has no whitespace left at either end.  A blank field changes
    nothing at all; without a backend client the message is shown, with an
    error, and dropped. *)
Theorem send_message_sync_enqueues_trimmed g s :
  let m := strip (input_entry g) in
  let r := send_message_sync g s in
  snd r = (if negb (String.eqb m "") && openai_client s
           then set_message_queue (message_queue s ++ [m]) s else s)
  ∧ lstrip m = m ∧ rstrip m = m
  ∧ input_entry (fst r) = (if String.eqb m "" then input_entry g else "")
  ∧ chat_display (fst r)
    = chat_display g
      ++ (if String.eqb m "" then []
          else ("user", m)
               :: (if openai_client s then []
                   else [("error", not_connected)])).
Proof.
  intros m r. split; [|split; [apply strip_lstrip|split;
    [apply strip_rstrip|]]]; subst r; unfold send_message_sync; fold m.
  - destruct m; [done|]. cbn. by destruct (openai_client s).
  - destruct m; cbn; [by rewrite app_nil_r|].
    destruct (openai_client s); cbn; split; try done.
    by rewrite <- app_assoc.
Qed.

(** ** Setting the client up *)

Import Setup.

Lemma dict_set_keys {V} k (v : V) d :
  (dict_set k v d).*1 = if decide (k ∈ d.*1) then d.*1 else d.*1 ++ [k].
Proof.
  induction d as [|[k' v'] d IH]; cbn [dict_set fmap list_fmap fst].
  - by rewrite decide_False by apply not_elem_of_nil.
  - destruct (String.eqb_spec k' k) as [->|Hne]; cbn [fmap list_fmap fst].
    + by rewrite decide_True by apply list_elem_of_here.
    + change (list_fmap _ _ fst ?l) with (l.*1). rewrite IH.
      destruct (decide (k ∈ d.*1)).
      * by rewrite decide_True by by apply list_elem_of_further.
      * rewrite decide_False; [done|].
        intros [?|?]%elem_of_cons; congruence.
Qed.

Lemma dict_set_NoDup {V} k (v : V) d :
  NoDup d.*1 → NoDup (dict_set k v d).*1.
Proof.
  intros Hd. rewrite dict_set_keys. destruct (decide (k ∈ d.*1)); [done|].
  apply NoDup_app. split; [done|]. split; [|apply NoDup_singleton].
  intros k' Hk' ->%list_elem_of_singleton. done.
Qed.

Lemma dict_get_set {V} k (v : V) d k' :
  dict_get k' (dict_set k v d)
  = if String.eqb k k' then Some v else dict_get k' d.
Proof.
  induction d as [|[k0 v0] d IH]; cbn [dict_set dict_get].
  - done.
  - destruct (String.eqb_spec k0 k) as [->|Hne]; cbn [dict_get].
    + by destruct (String.eqb_spec k k').
    + destruct (String.eqb_spec k0 k') as [->|Hne']; [|done].
      by destruct (String.eqb_spec k k').
Qed.

Lemma dict_set_elem {V} k (v : V) d k' v' :
  (k', v') ∈ dict_set k v d → (k', v') = (k, v) ∨ (k', v') ∈ d.
Proof.
  induction d as [|[k0 v0] d IH]; cbn [dict_set].
  - intros ->%list_elem_of_singleton. by left.
  - destruct (String.eqb_spec k0 k) as [->|Hne].
    + intros [->|?]%elem_of_cons; [by left|].
      right. by apply list_elem_of_further.
    + intros [->|Hin]%elem_of_cons; [right; apply list_elem_of_here|].
      destruct (IH Hin); [by left|]. right. by apply list_elem_of_further.
Qed.

Lemma tools_by_name_snoc tools t :
  tools_by_name (tools ++ [t])
  = dict_set (tool_name t) t (tools_by_name tools).
Proof. unfold tools_by_name. by rewrite fold_left_app. Qed.

Lemma tools_by_name_NoDup tools : NoDup (tools_by_name tools).*1.
Proof.
  induction tools as [|t tools IH] using rev_ind; [apply NoDup_nil_2|].
  rewrite tools_by_name_snoc. by apply dict_set_NoDup.
Qed.

Lemma tools_by_name_elem tools name t :
  (name, t) ∈ tools_by_name tools → tool_name t = name ∧ t ∈ tools.
Proof.
  induction tools as [|t0 tools IH] using rev_ind.
  - by intros ?%elem_of_nil.
  - rewrite tools_by_name_snoc. intros [[= -> ->]|Hin]%dict_set_elem.
    + split; [done|]. apply elem_of_app. right. apply list_elem_of_here.
    + destruct (IH Hin). split; [done|]. apply elem_of_app. by left.
Qed.

Lemma tools_by_name_get tools name :
  dict_get name (tools_by_name tools)
  = last (filter (λ t, tool_name t = name) tools).
Proof.
  induction tools as [|t tools IH] using rev_ind; [done|].
  rewrite tools_by_name_snoc, dict_get_set, filter_app, IH.
  rewrite filter_cons, filter_nil.
  destruct (String.eqb_spec (tool_name t) name) as [Heq|Hne].
  - rewrite decide_True by done. by rewrite last_snoc.
  - rewrite decide_False by done. by rewrite app_nil_r.
Qed.

Lemma adapter_names catalog :
  fn_name <$> mcp_tools_to_openai_format catalog = catalog.*1.
Proof.
  unfold mcp_tools_to_openai_format. rewrite <- list_fmap_compose.
  apply list_fmap_ext. by intros i [name t] _.
Qed.

(** X7: the catalog after a successful connection.  When the provider
    session goes through and lists [tools], [initialize_mcp] returns true
    with a catalog whose keys are pairwise distinct; every entry is a
    listed tool filed under its own name; looking a name up gives the last
    listed tool of that name, so every listed name is a key; the function
    names that [mcp_tools_to_openai_format] then declares are these keys,
    in order; the status queue gains the connecting message and the list
    of the keys; nothing else of the client changes. *)
Theorem initialize_mcp_builds_catalog tools command args s :
  ∃ s',
    initialize_mcp
      {| stdio_client_enter := Done (); session_enter := Done ();
         session_initialize := Done (); session_list_tools := Done tools;
         session_exit := Done (); stdio_client_exit := Done () |}
      (command :: args) s
    = Finished true s'
    ∧ su_client s' = set_mcp_tools (tools_by_name tools) (su_client s)
    ∧ NoDup (mcp_tools (su_client s')).*1
    ∧ (∀ name t,
         (name, t) ∈ mcp_tools (su_client s') →
         tool_name t = name ∧ t ∈ tools)
    ∧ (∀ name,
         dict_get name (mcp_tools (su_client s'))
         = last (filter (λ t, tool_name t = name) tools))
    ∧ (∀ t, t ∈ tools → tool_name t ∈ (mcp_tools (su_client s')).*1)
    ∧ fn_name <$> mcp_tools_to_openai_format (mcp_tools (su_client s'))
      = (mcp_tools (su_client s')).*1
    ∧ status_queue s'
      = status_queue s
        ++ ["Connecting to MCP server...";
            "MCP connected. Available tools: "
              +:+ String.concat ", " (mcp_tools (su_client s')).*1]
    ∧ mcp_server_params s' = Some (command, args).
Proof.
  eexists. split; [reflexivity|]. cbn.
  split; [done|]. split; [apply tools_by_name_NoDup|].
  split; [apply tools_by_name_elem|].
  split; [apply tools_by_name_get|]. split; [|split; [apply adapter_names|]].
  - intros t Ht.
    assert (is_Some (dict_get (tool_name t) (tools_by_name tools))) as [t' Hg].
    { rewrite tools_by_name_get.
      assert (t ∈ filter (λ t0, tool_name t0 = tool_name t) tools) as Hin
        by by apply list_elem_of_filter.
      destruct (filter _ tools) as [|x l] using rev_ind;
        [by apply elem_of_nil in Hin|].
      rewrite last_snoc. by eexists. }
    clear Ht. revert Hg. generalize (tools_by_name tools) as d.
    induction d as [|[k v] d IH]; [done|]. cbn.
    destruct (String.eqb_spec k (tool_name t)) as [->|Hne].
    + intros _. apply list_elem_of_here.
    + intros Hg. apply list_elem_of_further. by apply IH.
  - split; [|done]. by rewrite <- app_assoc.
Qed.

(** The [try] block of [initialize_mcp], by what the provider does: the
    state it stops in is the state it found with the connecting message,
    then the server parameters, then the catalog, each as far as it
    went. *)
Lemma initialize_mcp_try_cases p command args s :
  let s1 := set_params (command, args)
              (status_put "Connecting to MCP server..." s) in
  (∃ str_e, initialize_mcp_try p (command :: args) s = Raised str_e s1)
  ∨ initialize_mcp_try p (command :: args) s = Held s1
  ∨ ∃ tools,
      session_list_tools p = Done tools
      ∧ let s2 := set_client
                    (set_mcp_tools (tools_by_name tools) (su_client s1)) s1 in
        initialize_mcp_try p (command :: args) s
        = Returned true (status_put (mcp_connected (tools_by_name tools).*1) s2)
        ∨ initialize_mcp_try p (command :: args) s = Held s2
        ∨ (∃ str_e,
             initialize_mcp_try p (command :: args) s = Raised str_e s2
             ∧ (session_exit p = Fails str_e
                ∨ stdio_client_exit p = Fails str_e)).
Proof.
  destruct p as [e1 e2 i l x2 x1].
  unfold initialize_mcp_try, entered, call, update, look, fail_with, mbind,
    Stage_bind, mret, Stage_ret.
  cbn.
  destruct e1 as [[]|e|]; [|left; by eexists|right; by left].
  destruct e2 as [[]|e|];
    [|destruct x1 as [[]|e'|];
        first [by (left; eexists)|by (right; left)]
     |right; by left].
  destruct i as [[]|e|];
    [|destruct x2 as [[]|e2|], x1 as [[]|e1|];
        first [by (left; eexists)|by (right; left)]
     |right; by left].
  destruct l as [tools|e|];
    [|destruct x2 as [[]|e2|], x1 as [[]|e1|];
        first [by (left; eexists)|by (right; left)]
     |right; by left].
  right. right. exists tools. split; [done|]. cbn.
  destruct x2 as [[]|e2|]; [| |right; by left].
  - destruct x1 as [[]|e1|]; [by left|right; right|right; by left].
    exists e1. split; [done|by right].
  - destruct x1 as [[]|e1|]; [right; right|right; right|right; by left].
    + exists e2. split; [done|by left].
    + exists e1. split; [done|by right].
Qed.

(** X8: a failed connection and the catalog.  Whenever [initialize_mcp]
    returns false, the status queue has gained the connecting message and
    one failure message, and nothing of the client has changed but,
    possibly, the catalog: it has been replaced exactly when the tools
    were listed, and then the failure came from leaving the provider
    session, which the code does after it has stored the catalog.  When
    leaving the session does not raise, the catalog fetched earlier is
    kept.  For an empty command list the failure is the index error and
    the provider was not even described. *)
Theorem failed_connection_and_the_catalog p server_command s s' :
  initialize_mcp p server_command s = Finished false s' →
  ∃ str_e,
    status_queue s'
    = status_queue s
      ++ ["Connecting to MCP server..."; "MCP connection failed: " +:+ str_e]
    ∧ su_client s'
      = match server_command, stdio_client_enter p, session_enter p,
              session_initialize p, session_list_tools p with
        | _ :: _, Done _, Done _, Done _, Done tools =>
            set_mcp_tools (tools_by_name tools) (su_client s)
        | _, _, _, _, _ => su_client s
        end
    ∧ (su_client s' ≠ su_client s →
       session_exit p = Fails str_e ∨ stdio_client_exit p = Fails str_e)
    ∧ (session_exit p = Done () → stdio_client_exit p = Done () →
       su_client s' = su_client s)
    ∧ (server_command = [] →
       str_e = "list index out of range"
       ∧ su_client s' = su_client s
       ∧ mcp_server_params s' = mcp_server_params s).
Proof.
  unfold initialize_mcp.
  destruct server_command as [|command args].
  { cbn. intros [= <-]. eexists. cbn.
    split; [by rewrite <- app_assoc|]. by destruct p as [[] [] [] []]. }
  destruct p as [e1 e2 i l x2 x1].
  unfold initialize_mcp_try, entered, call, update, look, fail_with, mbind,
    Stage_bind, mret, Stage_ret.
  cbn.
  destruct e1 as [[]|e|]; [| |done].
  2:{ intros [= <-]. exists e. cbn. by rewrite <- app_assoc. }
  destruct e2 as [[]|e|].
  2:{ destruct x1 as [[]|e1|]; [| |done];
        (intros [= <-]; eexists; cbn; by rewrite <- app_assoc). }
  2:{ done. }
  destruct i as [[]|e|].
  2:{ destruct x2 as [[]|e2|], x1 as [[]|e1|]; try done;
        (intros [= <-]; eexists; cbn; by rewrite <- app_assoc). }
  2:{ done. }
  destruct l as [tools|e|].
  2:{ destruct x2 as [[]|e2|], x1 as [[]|e1|]; try done;
        (intros [= <-]; eexists; cbn; by rewrite <- app_assoc). }
  2:{ done. }
  cbn.
  destruct x2 as [[]|e2|], x1 as [[]|e1|]; try done;
    (intros [= <-]; eexists; cbn;
     split; [by rewrite <- app_assoc|]; split; [done|];
     split; [intros _; first [by left|by right]|done]).
Qed.

Lemma split_go_enough n cur s :
  (String.length s ≤ n)%nat → split_go n cur s = split_from cur s.
Proof.
  unfold split_from.
  revert cur s. induction (lt_wf n) as [n _ IH]. intros cur s Hn.
  destruct s as [|a t]; [by destruct n|].
  destruct n as [|n]; [cbn in Hn; lia|].
  cbn [split_go String.length]. cbn in Hn.
  destruct (space_prefix (String a t)) as [r|] eqn:Hp.
  - apply space_prefix_length in Hp. cbn in Hp.
    rewrite (IH n) by lia. symmetry.
    rewrite (IH (String.length t)) by lia. done.
  - apply IH; lia.
Qed.

Lemma split_from_nil cur : split_from cur "" = piece cur.
Proof. done. Qed.

Lemma split_from_cons cur a t :
  split_from cur (String a t)
  = match space_prefix (String a t) with
    | Some rest => piece cur ++ split_from "" rest
    | None => split_from (cur +:+ String a "") t
    end.
Proof.
  unfold split_from at 1. cbn [String.length split_go].
  destruct (space_prefix (String a t)) as [r|] eqn:Hp; [|done].
  rewrite split_go_enough; [done|].
  apply space_prefix_length in Hp. cbn in Hp. lia.
Qed.

Lemma blank_split s : lstrip s = "" → split s = [].
Proof.
  unfold split.
  induction s as [s Hp|s rest Hp IH] using lstrip_ind; rewrite lstrip_eq, Hp.
  - by intros ->.
  - intros Hr. destruct s as [|a t]; [done|].
    by rewrite split_from_cons, Hp, IH.
Qed.

Lemma unbroken_no_space cur : unbroken cur "" → no_space cur = true.
Proof.
  induction cur as [|a t IH]; [done|]. intros Hc. cbn [no_space].
  pose proof (Hc "" (String a t) eq_refl) as H0.
  rewrite append_nil_r in H0. rewrite H0 by done.
  apply IH. intros x y -> Hy. apply (Hc (String a x)); [done|done].
Qed.

Lemma unbroken_weaken cur s : unbroken cur s → unbroken cur "".
Proof.
  intros Hc x y Hx Hy. rewrite append_nil_r.
  destruct (space_prefix y) as [r|] eqn:Hp; [|done].
  apply (space_prefix_app _ _ s) in Hp. by rewrite (Hc x y) in Hp.
Qed.

Lemma piece_unbroken cur s : unbroken cur s → Forall piece_ok (piece cur).
Proof.
  intros Hc. destruct cur as [|a t]; [constructor|].
  constructor; [|constructor]. split; [done|].
  by eapply unbroken_no_space, unbroken_weaken.
Qed.

Lemma append_snoc_inv cur a x y :
  cur +:+ String a "" = x +:+ y → y ≠ "" →
  ∃ y0, y = y0 +:+ String a "" ∧ cur = x +:+ y0.
Proof.
  revert cur. induction x as [|b x IH]; intros cur.
  - rewrite append_nil. intros <- _. by exists cur.
  - destruct cur as [|c cur].
    + rewrite append_nil, append_cons. intros [= <- Hx] Hy.
      destruct x; [|done]. rewrite append_nil in Hx. congruence.
    + rewrite !append_cons. intros [= <- Hx] Hy.
      destruct (IH _ Hx Hy) as (y0 & -> & ->). by exists y0.
Qed.

Lemma split_from_pieces cur s :
  unbroken cur s → Forall piece_ok (split_from cur s).
Proof.
  remember (String.length s) as n eqn:Hn. revert cur s Hn.
  induction (lt_wf n) as [n _ IH]. intros cur s -> Hc.
  destruct s as [|a t].
  { rewrite split_from_nil. by eapply piece_unbroken. }
  rewrite split_from_cons.
  destruct (space_prefix (String a t)) as [r|] eqn:Hp.
  - apply Forall_app. split; [by eapply piece_unbroken|].
    apply (IH (String.length r)); [by apply space_prefix_length|done|].
    intros x y Hx Hy. by destruct x, y.
  - apply (IH (String.length t)); [cbn; lia|done|].
    intros x y Hx Hy.
    destruct (append_snoc_inv _ _ _ _ Hx Hy) as (y0 & -> & ->).
    rewrite append_assoc, append_cons, append_nil.
    destruct y0 as [|b y0]; [done|]. by apply (Hc x).
Qed.

Lemma split_pieces s : Forall piece_ok (split s).
Proof. apply split_from_pieces. intros x y Hx Hy. by destruct x, y. Qed.


Lemma split_from_nonempty cur s : cur ≠ "" → split_from cur s ≠ [].
Proof.
  revert cur. induction s as [s IH] using (induction_ltof1 _ String.length).
  unfold ltof in IH. intros cur Hcur.
  destruct s as [|a t]; [by destruct cur|].
  rewrite split_from_cons.
  destruct (space_prefix (String a t)) as [r|] eqn:Hp.
  - by destruct cur.
  - apply IH; [cbn; lia|]. by destruct cur.
Qed.

Lemma split_blank s : split s = [] ↔ strip s = "".
Proof.
  rewrite strip_empty. split; [|apply blank_split].
  unfold split.
  induction s as [s Hp|s rest Hp IH] using lstrip_ind; rewrite lstrip_eq, Hp.
  - destruct s as [|a t]; [done|]. rewrite split_from_cons, Hp.
    intros Hs. by apply split_from_nonempty in Hs.
  - destruct s as [|a t]; [done|]. by rewrite split_from_cons, Hp.
Qed.

(** X9: a command of blanks only.  If the command entered for the
    provider is empty once stripped, the provider is not contacted,
    whatever it would have done, and the client and the server parameters
    are untouched.  For the empty string no thread is started, and the
    status queue only says that there are no tools; for a string of
    whitespace the thread fails on the empty list of pieces: the status
    queue reports the connection attempt, the index error, and that the
    tools are unavailable. *)
Theorem blank_command_fails_without_contact p server_command s :
  strip server_command = EmptyString →
  ∃ s',
    get_mcp_command (Done (Some server_command)) p s = Finished () s'
    ∧ su_client s' = su_client s
    ∧ mcp_server_params s' = mcp_server_params s
    ∧ status_queue s'
      = status_queue s
        ++ (if String.eqb server_command ""
            then [warning +:+ " ChatGPT ready (no MCP tools)"]
            else ["Connecting to MCP server...";
                  "MCP connection failed: list index out of range";
                  warning +:+ " ChatGPT ready, but MCP tools unavailable"]).
Proof.
  intros Hb%split_blank. unfold get_mcp_command, init_mcp.
  destruct (String.eqb server_command ""); [by eexists|].
  rewrite Hb. eexists. split; [reflexivity|]. cbn.
  split; [done|]. split; [done|]. by rewrite <- !app_assoc.
Qed.

(** X10: the provider command as the client keeps it.  Whatever the
    provider does, once [get_mcp_command] has run on the text entered,
    the server parameters hold the pieces of that text split on
    whitespace, the first as the program and the others as its arguments,
    and they are as before exactly when there is no piece, which is when
    the text is empty once stripped.  Each piece is non-empty and free of
    whitespace, so that no quoting can keep a blank inside an
    argument. *)
Theorem server_params_are_split_pieces p server_command s :
  let s' := state_of (get_mcp_command (Done (Some server_command)) p s) in
  mcp_server_params s'
  = match split server_command with
    | [] => mcp_server_params s
    | command :: args => Some (command, args)
    end
  ∧ Forall piece_ok (split server_command)
  ∧ (split server_command = [] ↔ strip server_command = EmptyString).
Proof.
  split; [|split; [apply split_pieces|apply split_blank]].
  unfold get_mcp_command, init_mcp, initialize_mcp.
  destruct (String.eqb_spec server_command "") as [->|Hne]; [done|].
  destruct (split server_command) as [|command args]; [done|].
  by destruct (initialize_mcp_try_cases p command args s)
    as [[e ->]|[->|(tools & Hl & [->|[->|(e & -> & Hx)]])]].
Qed.

(** X11: a backend client that failed its test.  When the client object
    can be built and the test call [models.list()] raises,
    [initialize_openai] reports the failure and returns false, but the
    client object stays in place: from then on [send_message_sync]
    puts every non-blank message on the queue. *)
Theorem failed_test_leaves_client_set construct api_key str_e s g :
  construct api_key = Done () →
  strip (input_entry g) ≠ EmptyString →
  ∃ s',
    initialize_openai construct (Fails str_e) api_key s = Finished false s'
    ∧ openai_client (su_client s') = true
    ∧ status_queue s'
      = status_queue s
        ++ ["Connecting to OpenAI API...";
            "OpenAI API connection failed: " +:+ str_e]
    ∧ message_queue (snd (send_message_sync g (su_client s')))
      = message_queue (su_client s) ++ [strip (input_entry g)].
Proof.
  intros Hc Hg. unfold initialize_openai. rewrite Hc.
  eexists. split; [reflexivity|]. cbn. split; [done|].
  split; [by rewrite <- app_assoc|].
  unfold send_message_sync. by destruct (strip (input_entry g)).
Qed.

(** ** The diagnostic tools *)

Import WifiDiagnostics Diagnostics.

(** The dictionary of [run_command]: always a [success] flag, and the
    standard output exactly for a completed process. *)
Lemma run_command_dict subprocess_run cmd shell :
  ∃ d, run_command subprocess_run cmd shell = Returns d
    ∧ d !! "success"
      = Some (PyBool (completed_ok (subprocess_run cmd shell 30%Z)))
    ∧ d !! "stdout" = PyStr <$> stdout_of (subprocess_run cmd shell 30%Z).
Proof.
  unfold run_command.
  destruct (subprocess_run cmd shell 30%Z); eexists;
    (split; [reflexivity|]); split;
    by repeat (rewrite lookup_insert_ne by done);
       rewrite ?lookup_insert_eq, ?lookup_empty.
Qed.

Section ToolFacts.

Variable subprocess_run : nat → list string → bool → Z → run_outcome.

Local Abbreviation run_cmd := (run subprocess_run).
Local Abbreviation run_ps := (powershell subprocess_run).

Lemma run_spec cmd shell log :
  ∃ d, run_cmd cmd shell log
       = (Returns d, log ++ [{| call_cmd := cmd; call_shell := shell |}])
    ∧ d !! "success"
      = Some (PyBool (completed_ok
                        (subprocess_run (length log) cmd shell 30%Z)))
    ∧ d !! "stdout"
      = PyStr <$> stdout_of (subprocess_run (length log) cmd shell 30%Z).
Proof.
  unfold run.
  destruct (run_command_dict (subprocess_run (length log)) cmd shell)
    as (d & -> & Hs & Ho).
  by exists d.
Qed.

Lemma powershell_spec text log :
  let cmd := ["powershell"; "-NoProfile"; "-Command"; text] in
  ∃ d, run_ps text log
       = (Returns d, log ++ [{| call_cmd := cmd; call_shell := false |}])
    ∧ d !! "success"
      = Some (PyBool (completed_ok
                        (subprocess_run (length log) cmd false 30%Z)))
    ∧ d !! "stdout"
      = PyStr <$> stdout_of (subprocess_run (length log) cmd false 30%Z).
Proof.
  intros cmd. subst cmd. unfold powershell, run_powershell.
  destruct (run_command_dict (subprocess_run (length log))
              ["powershell"; "-NoProfile"; "-Command"; text] false)
    as (d & -> & Hs & Ho).
  by exists d.
Qed.

Lemma getitem_success d b log :
  d !! "success" = Some (PyBool b) →
  getitem d "success" log = (Returns (PyBool b), log).
Proof. intros Hd. unfold getitem. by rewrite Hd. Qed.

Lemma length_snoc {A} (l : list A) x : length (l ++ [x]) = S (length l).
Proof. rewrite length_app. cbn. lia. Qed.

(** One more command in a chain of binds. *)
Ltac run_step d Hs :=
  unfold mbind at 1, P_bind at 1;
  lazymatch goal with
  | |- context [run _ ?cmd ?sh ?l] =>
      let Ho := fresh "Ho" in
      destruct (run_spec cmd sh l) as (d & -> & Hs & Ho)
  | |- context [powershell _ ?text ?l] =>
      let Ho := fresh "Ho" in
      destruct (powershell_spec text l) as (d & -> & Hs & Ho)
  end;
  cbv beta iota.

(** The lookup of [success] in the dictionary of a command. *)
Ltac success_step Hs :=
  unfold mbind at 1, P_bind at 1;
  rewrite (getitem_success _ _ _ Hs);
  cbv beta iota.

(** The verdict of [_fix_common_issues] from the five steps that count. *)
Lemma restart_flag b1 b2 b3 b4 b5 :
  let fixes :=
    append_if b5 "Reset Winsock (restart required)"
      (append_if b4 "Reset TCP/IP stack (restart required)"
         (append_if b3 "Renewed IP address"
            (append_if b2 "Flushed DNS cache"
               (append_if b1 "Reset WiFi adapter" [])))) in
  contains "TCP/IP stack" (String.concat " " fixes)
  || contains "Winsock" (String.concat " " fixes)
  = b4 || b5.
Proof. by destruct b1, b2, b3, b4, b5. Qed.

Lemma fixes_list b1 b2 b3 b4 b5 :
  append_if b5 "Reset Winsock (restart required)"
    (append_if b4 "Reset TCP/IP stack (restart required)"
       (append_if b3 "Renewed IP address"
          (append_if b2 "Flushed DNS cache"
             (append_if b1 "Reset WiFi adapter" []))))
  = (if b1 then ["Reset WiFi adapter"] else [])
    ++ (if b2 then ["Flushed DNS cache"] else [])
    ++ (if b3 then ["Renewed IP address"] else [])
    ++ (if b4 then ["Reset TCP/IP stack (restart required)"] else [])
    ++ (if b5 then ["Reset Winsock (restart required)"] else []).
Proof. by destruct b1, b2, b3, b4, b5. Qed.

(** X12: what [_fix_common_issues] reports.  It never raises and always
    runs the same six commands in the same order, the last two through
    the shell; [fixes_applied] names, in that order, the steps whose
    command completed with return code 0, the release of the address not
    being one of them; and [restart_required] is true exactly when the
    reset of the TCP/IP stack or the reset of Winsock succeeded. *)
Theorem fix_common_issues_report log :
  let n := length log in
  let c1 := {| call_cmd := ["powershell"; "-NoProfile"; "-Command";
                            restart_adapter_script];
               call_shell := false |} in
  let c2 := {| call_cmd := ["ipconfig"; "/flushdns"]; call_shell := false |} in
  let c3 := {| call_cmd := ["ipconfig"; "/release"]; call_shell := false |} in
  let c4 := {| call_cmd := ["ipconfig"; "/renew"]; call_shell := false |} in
  let c5 := {| call_cmd := ["netsh"; "int"; "ip"; "reset"];
               call_shell := true |} in
  let c6 := {| call_cmd := ["netsh"; "winsock"; "reset"];
               call_shell := true |} in
  let ok i c :=
    completed_ok (subprocess_run (n + i) (call_cmd c) (call_shell c) 30%Z) in
  ∃ r,
    fix_common_issues subprocess_run log
    = (Returns r, log ++ [c1; c2; c3; c4; c5; c6])
    ∧ fixes_applied r
      = (if ok 0 c1 then ["Reset WiFi adapter"] else [])
        ++ (if ok 1 c2 then ["Flushed DNS cache"] else [])
        ++ (if ok 3 c4 then ["Renewed IP address"] else [])
        ++ (if ok 4 c5 then ["Reset TCP/IP stack (restart required)"] else [])
        ++ (if ok 5 c6 then ["Reset Winsock (restart required)"] else [])
    ∧ restart_required r = ok 4 c5 || ok 5 c6.
Proof.
  intros n c1 c2 c3 c4 c5 c6 ok. unfold fix_common_issues.
  run_step d1 Hs1. success_step Hs1.
  run_step d2 Hs2. success_step Hs2.
  run_step d3 Hs3.
  run_step d4 Hs4. success_step Hs4.
  run_step d5 Hs5. success_step Hs5.
  run_step d6 Hs6. success_step Hs6.
  cbn [mret P_ret truthy].
  rewrite !length_snoc in *.
  replace (length log) with (n + 0) by (unfold n; lia).
  replace (S (n + 0)) with (n + 1) by lia.
  replace (S (n + 1)) with (n + 2) by lia.
  replace (S (n + 2)) with (n + 3) by lia.
  replace (S (n + 3)) with (n + 4) by lia.
  replace (S (n + 4)) with (n + 5) by lia.
  eexists. split; [by rewrite <- !app_assoc|].
  cbn [fixes_applied restart_required]. split.
  - unfold ok. cbn [call_cmd call_shell c1 c2 c4 c5 c6].
    apply fixes_list.
  - rewrite restart_flag. done.
Qed.

(** *** Splitting the profile listing *)

Lemma split_on_without sep s :
  has_char sep s = false → split_on sep s = [s].
Proof.
  induction s as [|c s IH]; [done|]. cbn.
  destruct (Ascii.eqb c sep); [done|]. cbn. intros Hs. by rewrite IH.
Qed.

Lemma split_on_with sep s :
  has_char sep s = true → ∃ a b rest, split_on sep s = a :: b :: rest.
Proof.
  induction s as [|c s IH]; [done|]. cbn.
  destruct (Ascii.eqb c sep); cbn.
  - intros _. destruct (split_on sep s) as [|b rest] eqn:Hs.
    + by destruct s; cbn in Hs; [|destruct (Ascii.eqb _ _), (split_on _ _)].
    + by exists EmptyString, b, rest.
  - intros Hs. destruct (IH Hs) as (a & b & rest & ->).
    by exists (String c a), b, rest.
Qed.

Lemma split_on_pieces sep s :
  Forall (λ piece, has_char sep piece = false) (split_on sep s).
Proof.
  induction s as [|c s IH]; [by apply Forall_singleton|]. cbn.
  destruct (Ascii.eqb c sep) eqn:Hc; [by apply Forall_cons|].
  destruct (split_on sep s) as [|piece pieces]; [|].
  - apply Forall_singleton. cbn. by rewrite Hc.
  - apply Forall_cons in IH as [Hp Hps]. apply Forall_cons.
    split; [|done]. cbn. by rewrite Hc.
Qed.

Lemma has_char_append c x y :
  has_char c (x +:+ y) = has_char c x || has_char c y.
Proof.
  induction x as [|a x IH]; [done|].
  rewrite append_cons. cbn. by rewrite IH, orb_assoc.
Qed.

Lemma has_char_lstrip c s :
  has_char c s = false → has_char c (lstrip s) = false.
Proof.
  destruct (lstrip_suffix s) as (w & Hs). rewrite Hs at 1.
  rewrite has_char_append. by intros [_ ?]%orb_false_iff.
Qed.

Lemma has_char_rstrip c s :
  has_char c s = false → has_char c (rstrip s) = false.
Proof.
  destruct (rstrip_split s) as (w & Hs & _). rewrite Hs at 1.
  rewrite has_char_append. by intros [? _]%orb_false_iff.
Qed.

(** The first piece of a split, and what follows it. *)
Lemma split_on_first sep s b rest :
  split_on sep s = b :: rest →
  ∃ tail, s = b +:+ tail
    ∧ (tail = EmptyString ∨ ∃ tail', tail = String sep tail').
Proof.
  revert b rest. induction s as [|c s IH]; intros b rest.
  - intros [= <- <-]. exists "". split; [done|by left].
  - cbn [split_on]. destruct (Ascii.eqb_spec c sep) as [->|Hne].
    + intros [= <- <-]. exists (String sep s). split; [done|].
      right. by eexists.
    + destruct (split_on sep s) as [|b' rest'] eqn:Hs.
      * intros [= <- <-]. destruct s; [|by cbn in Hs;
          destruct (Ascii.eqb _ _), (split_on _ _)].
        exists "". split; [done|by left].
      * intros [= <- <-]. destruct (IH b' rest' eq_refl) as (tail & -> & Ht).
        by exists tail.
Qed.

(** The second piece of a split stands between the first two
    separators. *)
Lemma split_on_second sep s a b rest :
  split_on sep s = a :: b :: rest →
  ∃ tail, s = a +:+ String sep (b +:+ tail)
    ∧ (tail = EmptyString ∨ ∃ tail', tail = String sep tail').
Proof.
  revert a. induction s as [|c s IH]; intros a; [done|].
  cbn [split_on]. destruct (Ascii.eqb_spec c sep) as [->|Hne].
  - intros [= <- Hs]. destruct (split_on_first _ _ _ _ Hs) as (tail & -> & Ht).
    by exists tail.
  - destruct (split_on sep s) as [|a' rest'] eqn:Hs; [done|].
    intros [= <- ->]. destruct (IH a' eq_refl) as (tail & -> & Ht).
    by exists tail.
Qed.

Lemma strip_clean s : has_char colon s = false → clean_name (strip s).
Proof.
  intros Hs. split; [|split; [apply strip_lstrip|apply strip_rstrip]].
  by apply has_char_rstrip, has_char_lstrip.
Qed.

Lemma profile_name_eq line log :
  profile_name line log
  = match split_on colon line with
    | _ :: name :: _ => (Returns (strip name), log)
    | _ => (Raises index_error, log)
    end.
Proof.
  unfold profile_name. by destruct (split_on colon line) as [|? [|? ?]].
Qed.

(** A line without a colon among those taken for profiles stops the
    parsing with the index error. *)
Lemma profile_names_raises lines log :
  Exists malformed lines →
  profile_names lines log = (Raises index_error, log).
Proof.
  induction lines as [|line lines IH]; intros He; [by inv He|].
  cbn [profile_names].
  destruct (contains "All User Profile" line) eqn:Hm.
  - unfold mbind at 1, P_bind at 1. rewrite profile_name_eq.
    destruct (has_char colon line) eqn:Hc.
    + destruct (split_on_with colon line Hc) as (a & b & rest & ->).
      unfold mbind, P_bind. rewrite IH; [done|].
      inv He; [|done]. destruct H0 as [_ ?]. congruence.
    + by rewrite (split_on_without colon line Hc).
  - apply IH. inv He; [|done]. destruct H0 as [? _]. congruence.
Qed.

(** Otherwise there is one name per line taken for a profile, the text
    after its first colon, and every name comes out clean. *)
Lemma profile_names_returns lines log :
  Forall (λ line, ¬ malformed line) lines →
  ∃ names, profile_names lines log = (Returns names, log)
    ∧ Forall2 name_in
        (filter (λ line, contains "All User Profile" line = true) lines) names
    ∧ Forall clean_name names.
Proof.
  induction lines as [|line lines IH]; intros Hf.
  { exists []. split; [done|]. split; constructor. }
  apply Forall_cons in Hf as [Hline Hf].
  destruct (IH Hf) as (names & Hn & Hin & Hclean).
  cbn [profile_names]. rewrite filter_cons.
  destruct (contains "All User Profile" line) eqn:Hm.
  - rewrite decide_True by done.
    unfold mbind at 1, P_bind at 1. rewrite profile_name_eq.
    destruct (has_char colon line) eqn:Hc.
    + destruct (split_on_with colon line Hc) as (a & b & rest & Hs).
      pose proof (split_on_pieces colon line) as Hp. rewrite Hs in *.
      apply Forall_cons in Hp as [Ha Hp]. apply Forall_cons in Hp as [Hb _].
      unfold mbind, P_bind. rewrite Hn. cbn.
      exists (strip b :: names). split; [done|]. split.
      * constructor; [|done].
        destruct (split_on_second _ _ _ _ _ Hs) as (tail & Hl & Ht).
        by exists a, b, tail.
      * apply Forall_cons. split; [|done]. by apply strip_clean.
    + exfalso. by apply Hline.
  - rewrite decide_False by done. by exists names.
Qed.

(** The loop over the names: one command per name, one entry per
    distinct name. *)
Lemma profile_details_spec names details log :
  NoDup details.*1 →
  ∃ details',
    profile_details_of subprocess_run names details log
    = (Returns details',
       log ++ ((λ name, {| call_cmd := show_profile name;
                           call_shell := false |}) <$> names))
    ∧ NoDup details'.*1
    ∧ (∀ k, k ∈ details'.*1 ↔ k ∈ details.*1 ∨ k ∈ names)
    ∧ (length details' ≤ length details + length names)%nat.
Proof.
  revert details log. induction names as [|name names IH];
    intros details log Hd.
  - exists details. cbn. rewrite app_nil_r. split; [done|]. split; [done|].
    split; [|lia]. intros k. rewrite elem_of_nil. tauto.
  - cbn [profile_details_of].
    run_step d Hs.
    destruct (IH (dict_set name d details)
                (log ++ [{| call_cmd := show_profile name;
                            call_shell := false |}]))
      as (details' & -> & Hnd & Hk & Hlen); [by apply dict_set_NoDup|].
    exists details'. cbn [fmap list_fmap]. rewrite <- app_assoc.
    split; [done|]. split; [done|]. split.
    + intros k. rewrite Hk, dict_set_keys, elem_of_cons.
      destruct (decide (name ∈ details.*1)) as [Hin|Hin].
      * split; [tauto|]. intros [?|[->|?]]; tauto.
      * rewrite elem_of_app, list_elem_of_singleton. tauto.
    + assert (length (dict_set name d details) ≤ S (length details))%nat.
      { rewrite <- (length_fmap fst), dict_set_keys.
        destruct (decide _); rewrite ?length_app, !length_fmap; cbn; lia. }
      cbn [length]. lia.
Qed.

(** *** The authentication check *)

Local Abbreviation check_auth := (check_authentication_issues subprocess_run).

Local Abbreviation auth_call_1 :=
  {| call_cmd := ["powershell"; "-NoProfile"; "-Command"; auth_events_script];
     call_shell := false |}.
Local Abbreviation auth_call_2 :=
  {| call_cmd := ["powershell"; "-NoProfile"; "-Command";
                  certificates_script];
     call_shell := false |}.
Local Abbreviation listing_call :=
  {| call_cmd := ["netsh"; "wlan"; "show"; "profiles"];
     call_shell := false |}.
Local Abbreviation listing log :=
  (subprocess_run (length log + 2) ["netsh"; "wlan"; "show"; "profiles"]
     false 30%Z).

(** The check up to the test on the listing. *)
Lemma check_auth_start log :
  ∃ d1 d2 d3,
    check_auth log
    = (if completed_ok (listing log) then
         stdout ← getitem d3 "stdout";
         text ← as_str "split" stdout;
         names ← profile_names (split_on "010"%char text);
         details ← profile_details_of subprocess_run (take 5 names) [];
         mret {| auth_events := d1; certificates := d2;
                 profile_details := Some details |}
       else
         mret {| auth_events := d1; certificates := d2;
                 profile_details := None |})
        (log ++ [auth_call_1; auth_call_2; listing_call])
    ∧ d3 !! "stdout" = PyStr <$> stdout_of (listing log).
Proof.
  unfold check_authentication_issues.
  run_step d1 Hs1. run_step d2 Hs2. run_step d3 Hs3. success_step Hs3.
  rewrite !length_snoc in *.
  replace (S (S (length log))) with (length log + 2) in * by lia.
  exists d1, d2, d3. rewrite <- !app_assoc. cbn [truthy app]. done.
Qed.

(** X13: the authentication check without a profile listing.  When the
    command that lists the profiles does not complete with return code 0,
    [_check_authentication_issues] returns after its three first commands
    with no [profile_details] at all. *)
Theorem auth_check_without_listing log :
  completed_ok (listing log) = false →
  ∃ r,
    check_auth log = (Returns r, log ++ [auth_call_1; auth_call_2; listing_call])
    ∧ profile_details r = None.
Proof.
  intros Hl. destruct (check_auth_start log) as (d1 & d2 & d3 & -> & _).
  rewrite Hl. by eexists.
Qed.

(** X14: a listing line without a colon.  When the listing succeeds and
    one of its lines contains [All User Profile] but no colon,
    [_check_authentication_issues] raises the index error of
    [line.split(":")[1]], wherever that line stands, before any profile
    is looked at. *)
Theorem auth_check_raises_on_malformed_line log text stderr :
  listing log = CompletedProcess 0 text stderr →
  Exists malformed (split_on "010"%char text) →
  check_auth log
  = (Raises "list index out of range",
     log ++ [auth_call_1; auth_call_2; listing_call]).
Proof.
  intros Hl He. destruct (check_auth_start log) as (d1 & d2 & d3 & -> & Ho).
  rewrite Hl in *. cbn [completed_ok Z.eqb stdout_of fmap option_fmap
    option_map] in *.
  unfold mbind at 1, P_bind at 1. unfold getitem. rewrite Ho.
  cbn [mret P_ret]. unfold mbind at 1, P_bind at 1. cbn [as_str mret P_ret].
  unfold mbind at 1, P_bind at 1.
  by rewrite profile_names_raises.
Qed.

(** X15: the profiles that are looked at.  When the listing succeeds and
    every line that contains [All User Profile] has a colon,
    [_check_authentication_issues] returns.  There is one name for each
    of these lines, in order: the text between the first colon of the
    line and the next, stripped.  After its three first commands the
    check runs one [show profile] command for each of the first five
    names, in order, and no other; the names have no colon and no
    whitespace at either end; [profile_details] has one entry per
    distinct name among these five, so at most five. *)
Theorem auth_check_profile_details log text stderr :
  listing log = CompletedProcess 0 text stderr →
  Forall (λ line, ¬ malformed line) (split_on "010"%char text) →
  ∃ r names details,
    Forall2 name_in
      (filter (λ line, contains "All User Profile" line = true)
         (split_on "010"%char text))
      names
    ∧ check_auth log
      = (Returns r,
         log ++ [auth_call_1; auth_call_2; listing_call]
           ++ ((λ name, {| call_cmd :=
                             ["netsh"; "wlan"; "show"; "profile";
                              "name=" +:+ dquote +:+ name +:+ dquote;
                              "key=clear"];
                           call_shell := false |})
                 <$> take 5 names))
    ∧ profile_details r = Some details
    ∧ Forall clean_name names
    ∧ NoDup details.*1
    ∧ (∀ k, k ∈ details.*1 ↔ k ∈ take 5 names)
    ∧ (length details ≤ 5)%nat.
Proof.
  intros Hl Hf. destruct (check_auth_start log) as (d1 & d2 & d3 & -> & Ho).
  rewrite Hl in *. cbn [completed_ok Z.eqb stdout_of fmap option_fmap
    option_map] in *.
  unfold mbind at 1, P_bind at 1. unfold getitem. rewrite Ho.
  cbn [mret P_ret]. unfold mbind at 1, P_bind at 1. cbn [as_str mret P_ret].
  unfold mbind at 1, P_bind at 1.
  destruct (profile_names_returns (split_on "010"%char text)
              (log ++ [auth_call_1; auth_call_2; listing_call]) Hf)
    as (names & -> & Hin & Hclean).
  unfold mbind at 1, P_bind at 1.
  destruct (profile_details_spec (take 5 names) []
              (log ++ [auth_call_1; auth_call_2; listing_call]))
    as (details & -> & Hnd & Hk & Hlen); [apply NoDup_nil_2|].
  cbn [mret P_ret]. eexists _, names, details.
  split; [done|]. split; [by rewrite <- app_assoc|].
  split; [done|]. split; [done|]. split; [done|]. split.
  - intros k. rewrite Hk. cbn. rewrite elem_of_nil. tauto.
  - cbn [length] in Hlen. rewrite length_take in Hlen. lia.
Qed.

(** *** The report *)

Variable now_isoformat : string.
Variable environ : gmap string string.
Variable path_str : string → list string → string.
Variable json_loads : string → Client.json + string.
Variable number_is_zero : string → bool.

Local Abbreviation generate :=
  (generate_diagnostic_report subprocess_run now_isoformat environ path_str
     json_loads number_is_zero).
Local Abbreviation ping := (ping_failed json_loads number_is_zero).

Lemma stdout_ok_of d o : d !! "stdout" = PyStr <$> stdout_of o → stdout_ok d.
Proof.
  unfold stdout_ok. intros ->.
  destruct o; cbn; [right; by eexists|by left..].
Qed.

Lemma shown_stdout_of d o :
  d !! "stdout" = PyStr <$> stdout_of o →
  shown_stdout d
  = match stdout_of o with
    | Some text => if String.eqb text "" then None else Some text
    | None => None
    end.
Proof. unfold shown_stdout. intros ->. by destruct o. Qed.

(** One more command in a chain of binds, with its standard output. *)
Ltac run_step_out d Ho :=
  unfold mbind at 1, P_bind at 1;
  lazymatch goal with
  | |- context [run _ ?cmd ?sh ?l] =>
      let Hs := fresh "Hs" in
      destruct (run_spec cmd sh l) as (d & -> & Hs & Ho)
  | |- context [powershell _ ?text ?l] =>
      let Hs := fresh "Hs" in
      destruct (powershell_spec text l) as (d & -> & Hs & Ho)
  end;
  cbv beta iota.

Lemma check_wifi_status_spec log :
  ∃ r log', check_wifi_status subprocess_run log = (Returns r, log')
    ∧ length log' = length log + 3
    ∧ interfaces r !! "stdout"
      = PyStr <$> stdout_of
                    (subprocess_run (length log)
                       ["netsh"; "wlan"; "show"; "interfaces"] false 30%Z).
Proof.
  unfold check_wifi_status.
  run_step_out d1 Ho1. run_step_out d2 Ho2. run_step_out d3 Ho3.
  eexists _, _. split; [reflexivity|]. split; [|done].
  rewrite !length_snoc. lia.
Qed.

Lemma diagnose_connection_issues_spec log :
  ∃ r log', diagnose_connection_issues subprocess_run log = (Returns r, log')
    ∧ length log' = length log + 4
    ∧ connectivity r !! "stdout"
      = PyStr <$> stdout_of
                    (subprocess_run (length log + 1)
                       ["powershell"; "-NoProfile"; "-Command";
                        connectivity_script] false 30%Z).
Proof.
  unfold diagnose_connection_issues.
  run_step_out d1 Ho1. run_step_out d2 Ho2. run_step_out d3 Ho3.
  run_step_out d4 Ho4.
  eexists _, _. split; [reflexivity|]. split; [rewrite !length_snoc; lia|].
  rewrite length_snoc in Ho2.
  by replace (length log + 1) with (S (length log)) by lia.
Qed.

Lemma analyze_wifi_environment_spec log :
  ∃ r log', analyze_wifi_environment subprocess_run log = (Returns r, log').
Proof.
  unfold analyze_wifi_environment.
  run_step d1 Hs1. run_step d2 Hs2. run_step d3 Hs3.
  by eexists _, _.
Qed.

Lemma bind_returns {A B} (m : P A) (f : A → P B) log r log' :
  (m ≫= f) log = (Returns r, log') →
  ∃ a log1, m log = (Returns a, log1) ∧ f a log1 = (Returns r, log').
Proof.
  unfold mbind, P_bind. destruct (m log) as [[a|e] log1]; [|done].
  intros Hf. by exists a, log1.
Qed.

Lemma check_auth_events log r log' :
  check_auth log = (Returns r, log') →
  auth_events r !! "stdout"
  = PyStr <$> stdout_of
                (subprocess_run (length log)
                   ["powershell"; "-NoProfile"; "-Command";
                    auth_events_script] false 30%Z).
Proof.
  unfold check_authentication_issues.
  run_step_out d1 Ho1. run_step d2 Hs2. run_step d3 Hs3. success_step Hs3.
  destruct (truthy _); [|by intros [= <- _]].
  intros (stdout & l1 & _ & H1)%bind_returns.
  apply bind_returns in H1 as (text & l2 & _ & H2).
  apply bind_returns in H2 as (names & l3 & _ & H3).
  apply bind_returns in H3 as (details & l4 & _ & H4).
  by injection H4 as <- _.
Qed.

(** A block of the summary that reads the standard output of one
    command. *)
Lemma guarded_text attr d (F : string → list string) dflt log :
  stdout_ok d →
  (if truthy (get_or_empty d "stdout") then
     text ← as_str attr (get_or_empty d "stdout");
     mret (F text)
   else mret dflt) log
  = (Returns (match shown_stdout d with
              | Some text => F text
              | None => dflt
              end), log).
Proof.
  unfold get_or_empty, shown_stdout.
  intros [->|[text ->]]; [done|]. cbn.
  by destruct (String.eqb text "").
Qed.

(** *** What the tests of the summary look for *)

Lemma prefix_occurs word s :
  String.prefix word s = true ↔ ∃ after, s = word +:+ after.
Proof.
  revert s. induction word as [|p word IH]; intros s.
  - split; [by exists s|by destruct s].
  - destruct s as [|c s]; cbn [String.prefix].
    + split; [done|]. by intros (after & ?).
    + destruct (ascii_dec p c) as [->|Hne].
      * rewrite IH. split.
        -- intros (after & ->). by exists after.
        -- intros (after & Heq). rewrite append_cons in Heq.
           injection Heq as ->. by exists after.
      * split; [done|]. intros (after & Heq). rewrite append_cons in Heq.
        by injection Heq as <-.
Qed.

Lemma contains_occurs word text :
  contains word text = true ↔ occurs word text.
Proof.
  unfold occurs. induction text as [|c text IH]; cbn [contains].
  - rewrite orb_false_r, prefix_occurs. split.
    + intros (after & ->). by exists "", after.
    + intros (before & after & Heq). destruct before; [by exists after|done].
  - rewrite orb_true_iff, prefix_occurs, IH. split.
    + intros [(after & ->)|(before & after & ->)].
      * by exists "", after.
      * by exists (String c before), after.
    + intros ([|c' before] & after & Heq).
      * left. by exists after.
      * right. rewrite append_cons in Heq. injection Heq as -> ->.
        by exists before, after.
Qed.

Lemma lower_append a b : lower (a +:+ b) = lower a +:+ lower b.
Proof.
  induction a as [|c a IH]; [done|].
  rewrite append_cons. cbn [lower]. by rewrite IH.
Qed.

Lemma lower_split text x y :
  lower text = x +:+ y →
  ∃ a b, text = a +:+ b ∧ lower a = x ∧ lower b = y.
Proof.
  revert text. induction x as [|c x IH]; intros text.
  - intros Ht. by exists "", text.
  - destruct text as [|c' text]; [done|]. rewrite append_cons.
    cbn [lower]. intros [= Hc Ht].
    destruct (IH text Ht) as (a & b & -> & Ha & Hb).
    exists (String c' a), b. cbn [lower]. by rewrite Hc, Ha.
Qed.

Lemma lower_char_small p c :
  (97 ≤ nat_of_ascii p)%nat → (nat_of_ascii p ≤ 122)%nat →
  lower_char c = p ↔ either_case p c.
Proof.
  intros H1 H2. unfold lower_char, either_case.
  destruct ((65 <=? nat_of_ascii c)%nat && (nat_of_ascii c <=? 90)%nat)
    eqn:Hc.
  - apply andb_true_iff in Hc as [Ha%Nat.leb_le Hb%Nat.leb_le]. split.
    + intros <-. right. rewrite nat_ascii_embedding; lia.
    + intros [->|Heq]; [lia|]. by rewrite Heq, ascii_nat_embedding.
  - split; [intros ->; by left|]. intros [->|Heq]; [done|].
    apply andb_false_iff in Hc as [Ha%Nat.leb_gt|Hb%Nat.leb_gt]; lia.
Qed.

Lemma lower_spells word w :
  small_letters word = true → lower w = word ↔ spells word w.
Proof.
  revert w. induction word as [|p word IH]; intros w Hs.
  - by destruct w.
  - destruct w as [|c w]; [done|]. cbn [small_letters] in Hs.
    apply andb_true_iff in Hs as [Hp Hs].
    apply andb_true_iff in Hp as [H1%Nat.leb_le H2%Nat.leb_le].
    cbn [lower spells]. rewrite <- (IH w Hs), <- (lower_char_small p c H1 H2).
    split; [by intros [= -> ->]|by intros [-> ->]].
Qed.

Lemma contains_lower word text :
  small_letters word = true →
  contains word (lower text) = true ↔ occurs_in_any_case word text.
Proof.
  intros Hs. rewrite contains_occurs. unfold occurs, occurs_in_any_case.
  split.
  - intros (before & after & Ht).
    apply lower_split in Ht as (a & b & -> & _ & Hb).
    apply lower_split in Hb as (w & c & -> & Hw & _).
    exists a, w, c. split; [done|]. by apply lower_spells.
  - intros (before & w & after & -> & Hw%lower_spells); [|done].
    exists (lower before), (lower after). by rewrite !lower_append, Hw.
Qed.

Lemma falsy_spec v :
  json_truthy number_is_zero v = false ↔ falsy number_is_zero v.
Proof.
  unfold falsy.
  destruct v as [|b|literal|text|items|members]; cbn [json_truthy].
  - split; [by left|done].
  - destruct b; split; [done| |by right; left|done].
    intros [?|[?|[?|[?|[?|(? & ? & _)]]]]]; done.
  - rewrite negb_false_iff. split.
    + intros Hz. do 5 right. by exists literal.
    + intros [?|[?|[?|[?|[?|(? & [= <-] & ?)]]]]]; done.
  - rewrite negb_false_iff, String.eqb_eq. split.
    + intros ->. by right; right; left.
    + intros [?|[?|[[= ->]|[?|[?|(? & ? & _)]]]]]; done.
  - destruct items; split; [by right; right; right; left|done|done|].
    intros [?|[?|[?|[?|[?|(? & ? & _)]]]]]; done.
  - destruct members; split; [by right; right; right; right; left|done|done|].
    intros [?|[?|[?|[?|[?|(? & ? & _)]]]]]; done.
Qed.

Lemma ping_failed_spec text :
  default false (ping text) = true
  ↔ ∃ members rest,
      json_loads text = inl (Client.JArray (Client.JObject members :: rest))
      ∧ (dict_get "PingSucceeded" members = None
         ∨ ∃ v, dict_get "PingSucceeded" members = Some v
             ∧ falsy number_is_zero v).
Proof.
  unfold ping_failed.
  destruct (json_loads text) as [v|e];
    [|split; [done|by intros (? & ? & ? & _)]].
  destruct v as [| | | |[|first rest]|];
    try (split; [done|by intros (? & ? & ? & _)]).
  destruct first as [| | | | |members];
    try (split; [done|by intros (? & ? & ? & _)]).
  cbn [default from_option id]. rewrite negb_true_iff.
  destruct (dict_get "PingSucceeded" members) as [v|] eqn:Hg;
    cbn [default from_option id].
  - rewrite falsy_spec. split.
    + intros Hv. exists members, rest. split; [done|]. right.
      by exists v.
    + intros (? & ? & [= <- <-] & [?|(v' & Hv' & ?)]); congruence.
  - split; [|done]. intros _. exists members, rest. split; [done|by left].
Qed.

(** The list of issues, from the outcome of the three tests. *)
Lemma issues_of_tests b1 b2 b3 :
  let issues :=
    append_if b3 "Authentication failures detected"
      (append_if b2 "No internet connectivity detected"
         (append_if b1 "WiFi adapter is disconnected" [])) in
  (length issues ≤ 3)%nat
  ∧ (match issues with
     | [] => "No major issues found"
     | _ => "Issues detected"
     end = "No major issues found" ↔ issues = [])
  ∧ ("WiFi adapter is disconnected" ∈ issues ↔ b1 = true)
  ∧ ("No internet connectivity detected" ∈ issues ↔ b2 = true)
  ∧ ("Authentication failures detected" ∈ issues ↔ b3 = true).
Proof.
  destruct b1, b2, b3; cbn; (split; [lia|]); (split; [done|]);
    repeat split; try done;
    first [ by (intros _;
                repeat first [apply list_elem_of_here
                             | apply list_elem_of_further])
          | intros Hin; exfalso;
            repeat (apply elem_of_cons in Hin as [Hin|Hin]; [discriminate|]);
            by apply elem_of_nil in Hin ].
Qed.

(** X16: the report without [ProgramData].  When the command that
    generates the Windows report completes with return code 0 and the
    environment has no [ProgramData], [_generate_diagnostic_report] raises
    the key error right after that first command: no diagnostic is
    run. *)
Theorem report_needs_program_data log :
  completed_ok
    (subprocess_run (length log) ["netsh"; "wlan"; "show"; "wlanreport"]
       false 30%Z) = true →
  environ !! "ProgramData" = None →
  generate log
  = (Raises "'ProgramData'",
     log ++ [{| call_cmd := ["netsh"; "wlan"; "show"; "wlanreport"];
                call_shell := false |}]).
Proof.
  intros Hok Henv. unfold generate_diagnostic_report.
  run_step d Hs. success_step Hs. rewrite Hok. cbn [truthy].
  unfold mbind at 1, P_bind at 1. by rewrite Henv.
Qed.

(** X17: the summary of the report agrees with the commands.  Whenever
    [_generate_diagnostic_report] returns, [total_issues] is the number of
    issues, at most three, and the status line says that no issue was
    found exactly when there is none.  The report holds the dictionaries
    of the interface command (its second command), of the connectivity
    test (its sixth) and of the event query (its ninth), and each issue
    is listed exactly when the output of its command shows it: the
    interface command completed and its output contains [disconnected] in
    any letter case; the connectivity test completed with an output that
    is not empty and parses to a list whose first element is an object in
    which [PingSucceeded] is absent or false; the event query completed
    and its output contains [8002].  The path of the Windows report is
    given exactly when that report was generated. *)
Theorem report_summary_matches_data log r log' :
  generate log = (Returns r, log') →
  let interfaces_out :=
    stdout_of (subprocess_run (length log + 1)
                 ["netsh"; "wlan"; "show"; "interfaces"] false 30%Z) in
  let connectivity_out :=
    stdout_of (subprocess_run (length log + 5)
                 ["powershell"; "-NoProfile"; "-Command"; connectivity_script]
                 false 30%Z) in
  let events_out :=
    stdout_of (subprocess_run (length log + 8)
                 ["powershell"; "-NoProfile"; "-Command"; auth_events_script]
                 false 30%Z) in
  total_issues r = length (issues_found r)
  ∧ (length (issues_found r) ≤ 3)%nat
  ∧ (summary_status r = "No major issues found" ↔ issues_found r = [])
  ∧ interfaces (diag_status r) !! "stdout" = PyStr <$> interfaces_out
  ∧ connectivity (diag_connection r) !! "stdout" = PyStr <$> connectivity_out
  ∧ auth_events (diag_authentication r) !! "stdout" = PyStr <$> events_out
  ∧ ("WiFi adapter is disconnected" ∈ issues_found r
     ↔ ∃ text, interfaces_out = Some text
         ∧ occurs_in_any_case "disconnected" text)
  ∧ ("No internet connectivity detected" ∈ issues_found r
     ↔ ∃ text members rest,
         connectivity_out = Some text
         ∧ text ≠ EmptyString
         ∧ json_loads text
           = inl (Client.JArray (Client.JObject members :: rest))
         ∧ (dict_get "PingSucceeded" members = None
            ∨ ∃ v, dict_get "PingSucceeded" members = Some v
                ∧ falsy number_is_zero v))
  ∧ ("Authentication failures detected" ∈ issues_found r
     ↔ ∃ text, events_out = Some text ∧ occurs "8002" text)
  ∧ (is_Some (wifi_report_path r)
     ↔ truthy (wifi_report_generated r) = true)
  ∧ timestamp r = now_isoformat.
Proof.
  unfold generate_diagnostic_report.
  run_step d Hs. success_step Hs.
  unfold mbind at 1, P_bind at 1.
  set (generated := completed_ok _). cbn [truthy].
  assert (∃ path,
    (if generated then
       match environ !! "ProgramData" with
       | Some root =>
           mret (Some (path_str root ["Microsoft"; "Windows"; "WlanReport";
                                      "wlan-report-latest.html"]))
       | None => throw (key_error "ProgramData")
       end
     else mret None)
      (log ++ [{| call_cmd := ["netsh"; "wlan"; "show"; "wlanreport"];
                  call_shell := false |}])
    = (Returns path,
       log ++ [{| call_cmd := ["netsh"; "wlan"; "show"; "wlanreport"];
                  call_shell := false |}])
    ∧ (is_Some path ↔ generated = true)
    ∨ ∃ e l,
        (if generated then
           match environ !! "ProgramData" with
           | Some root =>
               mret (Some (path_str root ["Microsoft"; "Windows";
                                          "WlanReport";
                                          "wlan-report-latest.html"]))
           | None => throw (key_error "ProgramData")
           end
         else mret None)
          (log ++ [{| call_cmd := ["netsh"; "wlan"; "show"; "wlanreport"];
                      call_shell := false |}])
        = (Raises e, l)) as Hpath.
  { destruct generated.
    - destruct (environ !! "ProgramData").
      + eexists. left. split; [reflexivity|]. split; [done|by eexists].
      + exists None. right. by eexists _, _.
    - exists None. left. split; [done|]. split; [by intros [? ?]|done]. }
  destruct Hpath as (path & [[-> Hp]|(e & l & ->)]); [|done].
  unfold mbind at 1, P_bind at 1.
  lazymatch goal with
  | |- context [check_wifi_status _ ?l] =>
      destruct (check_wifi_status_spec l) as (st & l1 & -> & Hl1 & Hst)
  end.
  unfold mbind at 1, P_bind at 1.
  destruct (diagnose_connection_issues_spec l1) as (cn & l2 & -> & Hl2 & Hcn).
  unfold mbind at 1, P_bind at 1.
  destruct (check_auth l2) as [[au|e] l3] eqn:Hau; [|done].
  apply check_auth_events in Hau.
  unfold mbind at 1, P_bind at 1.
  destruct (analyze_wifi_environment_spec l3) as (en & l4 & ->).
  rewrite length_snoc in Hst, Hl1.
  replace (S (length log)) with (length log + 1) in Hst by lia.
  replace (length l1 + 1) with (length log + 5) in Hcn by lia.
  replace (length l2) with (length log + 8) in Hau by lia.
  cbv zeta.
  unfold mbind at 1, P_bind at 1.
  rewrite (guarded_text "lower" (interfaces st)
             (λ text, append_if (contains "disconnected" (lower text))
                        "WiFi adapter is disconnected" []) [] l4
             (stdout_ok_of _ _ Hst)).
  unfold mbind at 1, P_bind at 1.
  rewrite (guarded_text "loads" (connectivity cn)
             (λ text, append_if (default false (ping text))
                        "No internet connectivity detected" _) _ l4
             (stdout_ok_of _ _ Hcn)).
  unfold mbind at 1, P_bind at 1.
  rewrite (guarded_text "__contains__" (auth_events au)
             (λ text, append_if (contains "8002" text)
                        "Authentication failures detected" _) _ l4
             (stdout_ok_of _ _ Hau)).
  intros [= <- _].
  cbn [total_issues issues_found summary_status diag_status diag_connection
       diag_authentication wifi_report_path wifi_report_generated timestamp
       truthy interfaces connectivity auth_events].
  rewrite (shown_stdout_of _ _ Hst), (shown_stdout_of _ _ Hcn),
    (shown_stdout_of _ _ Hau).
  set (o1 := stdout_of (subprocess_run (length log + 1) _ _ _)) in *.
  set (o2 := stdout_of (subprocess_run (length log + 5) _ _ _)) in *.
  set (o3 := stdout_of (subprocess_run (length log + 8) _ _ _)) in *.
  set (b1 := match o1 with
             | Some text =>
                 negb (String.eqb text "")
                 && contains "disconnected" (lower text)
             | None => false
             end).
  set (b2 := match o2 with
             | Some text =>
                 negb (String.eqb text "") && default false (ping text)
             | None => false
             end).
  set (b3 := match o3 with
             | Some text => negb (String.eqb text "") && contains "8002" text
             | None => false
             end).
  lazymatch goal with
  | |- context [length ?l] =>
      replace l with
        (append_if b3 "Authentication failures detected"
           (append_if b2 "No internet connectivity detected"
              (append_if b1 "WiFi adapter is disconnected" [])))
  end.
  2:{ unfold b1, b2, b3.
      destruct o1 as [t1|]; [destruct (String.eqb t1 "")|];
        (destruct o2 as [t2|]; [destruct (String.eqb t2 "")|]);
        (destruct o3 as [t3|]; [destruct (String.eqb t3 "")|]); done. }
  destruct (issues_of_tests b1 b2 b3) as (Hlen & Hstatus & H1 & H2 & H3).
  split; [done|]. split; [done|]. split; [done|].
  split; [done|]. split; [done|]. split; [done|].
  split; [|split; [|split; [|done]]].
  - rewrite H1. unfold b1. destruct o1 as [text|];
      [|split; [done|by intros (? & ? & _)]].
    split.
    + intros [_ Hc]%andb_true_iff. exists text. split; [done|].
      by apply contains_lower.
    + intros (? & [= <-] & Hc). apply andb_true_iff. split.
      * destruct Hc as (x & w & y & -> & Hw).
        destruct x; [|done]. by destruct w.
      * by apply contains_lower.
  - rewrite H2. unfold b2. destruct o2 as [text|];
      [|split; [done|by intros (? & ? & ? & ? & _)]].
    rewrite andb_true_iff, negb_true_iff, ping_failed_spec. split.
    + intros [Hne (members & rest & Hj & Hm)].
      exists text, members, rest. split; [done|]. split; [|done].
      intros ->. done.
    + intros (? & members & rest & [= <-] & Hne & Hj & Hm).
      split; [by apply String.eqb_neq|]. by exists members, rest.
  - rewrite H3. unfold b3. destruct o3 as [text|];
      [|split; [done|by intros (? & ? & _)]].
    rewrite andb_true_iff, negb_true_iff, contains_occurs. split.
    + intros [_ Hc]. by exists text.
    + intros (? & [= <-] & Hc). split; [|done].
      apply String.eqb_neq. intros ->.
      destruct Hc as (x & y & Hxy). by destruct x.
Qed.

End ToolFacts.

(** ** Closed examples of the further properties *)

(** X3, witness: a plain answer to ["hello"]. *)
Lemma plain_reply_exchange_witness :
  ∃ s',
    chat_with_gpt plain_completion goes_through goes_through
      (answering (Done [])) demo_json_loads demo_str_json "hello"
      (fresh_client []) = Ret () s'
    ∧ chat_history s' = [UserEntry "hello"; AssistantEntry (Some "fine")]
    ∧ response_queue s' = [("assistant", Some "fine")].
Proof.
  destruct (plain_reply_exchange plain_completion goes_through goes_through
              (answering (Done [])) demo_json_loads demo_str_json "hello"
              (fresh_client []) (says "fine"))
    as (s' & Hc & (_ & _ & _ & Hh & Hr & _) & _).
  - reflexivity.
  - reflexivity.
  - reflexivity.
  - exists s'. split; [exact Hc|]. split; [exact Hh|exact Hr].
Defined.

(** X5, witness: the provider closes the connection inside the
    session. *)
Lemma session_closed_on_every_path_witness :
  ∃ inside,
    trace (final_state
             (execute_mcp_tool goes_through goes_through
                (answering (Fails "Connection closed")) "get_status"
                (JObject []) (fresh_client [])))
    = EvStdioClient :: (inside ++ [EvSessionClose]).
Proof.
  destruct (session_closed_on_every_path goes_through goes_through
              (answering (Fails "Connection closed")) "get_status"
              (JObject []) (fresh_client []))
    as (inside & Hf & _).
  - reflexivity.
  - discriminate.
  - exists inside. rewrite Hf. reflexivity.
Defined.

(** X8, witness: the tools are listed, then leaving the session fails:
    the call reports a failure and the catalog is already the new one. *)
Lemma failed_connection_and_the_catalog_witness :
  ∃ s' str_e,
    initialize_mcp
      (listing_provider [get_status_tool] (Fails "Connection closed"))
      ["python"; "wifi_diagnostics_mcp.py"] fresh_setup
    = Finished false s'
    ∧ status_queue s'
      = ["Connecting to MCP server..."; "MCP connection failed: " +:+ str_e]
    ∧ mcp_tools (su_client s') = [("get_status", get_status_tool)].
Proof.
  destruct (failed_connection_and_the_catalog
              (listing_provider [get_status_tool] (Fails "Connection closed"))
              ["python"; "wifi_diagnostics_mcp.py"] fresh_setup
              (state_of
                 (initialize_mcp
                    (listing_provider [get_status_tool]
                       (Fails "Connection closed"))
                    ["python"; "wifi_diagnostics_mcp.py"] fresh_setup)))
    as (str_e & Hq & _).
  - reflexivity.
  - eexists _, str_e. split; [reflexivity|]. split; [exact Hq|reflexivity].
Defined.

(** X9, witness: a command of three spaces. *)
Lemma blank_command_fails_without_contact_witness :
  ∃ s',
    get_mcp_command (Done (Some "   "))
      (listing_provider [get_status_tool] (Done ())) fresh_setup
    = Finished () s'
    ∧ su_client s' = su_client fresh_setup
    ∧ status_queue s'
      = ["Connecting to MCP server...";
         "MCP connection failed: list index out of range";
         warning +:+ " ChatGPT ready, but MCP tools unavailable"].
Proof.
  destruct (blank_command_fails_without_contact
              (listing_provider [get_status_tool] (Done ())) "   "
              fresh_setup)
    as (s' & Hi & Hc & _ & Hq).
  - reflexivity.
  - exists s'. split; [exact Hi|]. split; [exact Hc|exact Hq].
Defined.

(** X11, witness: the test call is refused. *)
Lemma failed_test_leaves_client_set_witness :
  ∃ s',
    initialize_openai any_key (Fails "Incorrect API key provided") "sk-x"
      fresh_setup = Finished false s'
    ∧ message_queue
        (snd (send_message_sync
                {| input_entry := "hello"; chat_display := [] |}
                (su_client s')))
      = ["hello"].
Proof.
  destruct (failed_test_leaves_client_set any_key "sk-x"
              "Incorrect API key provided" fresh_setup
              {| input_entry := "hello"; chat_display := [] |})
    as (s' & Hi & _ & _ & Hq).
  - reflexivity.
  - discriminate.
  - exists s'. split; [exact Hi|exact Hq].
Defined.

(** X13, witness: every command times out. *)
Lemma auth_check_without_listing_witness :
  ∃ r,
    fst (check_authentication_issues (every_command TimeoutExpired) [])
    = Returns r
    ∧ profile_details r = None.
Proof.
  destruct (auth_check_without_listing (every_command TimeoutExpired) [])
    as (r & Hc & Hp).
  - reflexivity.
  - exists r. split; [by rewrite Hc|exact Hp].
Defined.

(** X14, witness: the listing has one line, without a colon. *)
Lemma auth_check_raises_on_malformed_line_witness :
  fst (check_authentication_issues
         (every_command (CompletedProcess 0 "All User Profile" "")) [])
  = Raises "list index out of range".
Proof.
  rewrite (auth_check_raises_on_malformed_line
             (every_command (CompletedProcess 0 "All User Profile" "")) []
             "All User Profile" "").
  - reflexivity.
  - reflexivity.
  - apply Exists_cons_hd. split; reflexivity.
Defined.

(** X15, witness: the listing names six profiles, one of the first five
    twice: five commands follow the three first, and four profiles are
    described. *)
Lemma auth_check_profile_details_witness :
  ∃ r details,
    fst (check_authentication_issues
           (every_command (CompletedProcess 0 six_profiles "")) [])
    = Returns r
    ∧ profile_details r = Some details
    ∧ details.*1 = ["HomeNet"; "Office"; "Cafe"; "Library"]
    ∧ length (snd (check_authentication_issues
                     (every_command (CompletedProcess 0 six_profiles ""))
                     []))
      = 8.
Proof.
  destruct (auth_check_profile_details
              (every_command (CompletedProcess 0 six_profiles "")) []
              six_profiles "")
    as (r & names & details & _ & Hc & Hp & _).
  - reflexivity.
  - vm_compute.
    repeat (apply Forall_cons_2;
            [intros [Hm Hc]; first [discriminate Hm|discriminate Hc]|]).
    apply Forall_nil_2.
  - assert (match fst (check_authentication_issues
                         (every_command (CompletedProcess 0 six_profiles ""))
                         []) with
            | Returns r0 => fmap (M:=list) fst <$> profile_details r0
            | Raises _ => None
            end = Some ["HomeNet"; "Office"; "Cafe"; "Library"]) as Hk
      by (vm_compute; reflexivity).
    rewrite Hc in Hk. cbn [fst] in Hk. rewrite Hp in Hk.
    injection Hk as Hk.
    exists r, details. split; [by rewrite Hc|]. split; [exact Hp|].
    split; [exact Hk|]. vm_compute. reflexivity.
Defined.

(** X16, witness: the report is generated on a machine without
    [ProgramData]. *)
Lemma report_needs_program_data_witness :
  fst (generate_diagnostic_report (every_command (CompletedProcess 0 "" ""))
         "2025-01-01T00:00:00" ∅ demo_path no_json never_zero [])
  = Raises "'ProgramData'".
Proof.
  rewrite (report_needs_program_data
             (every_command (CompletedProcess 0 "" ""))
             "2025-01-01T00:00:00" ∅ demo_path no_json never_zero []).
  - reflexivity.
  - reflexivity.
  - reflexivity.
Defined.

(** X17, witness: the adapter is disconnected, the connectivity test
    prints a list of one empty object, and the event query lists an event
    8002: the three issues are reported. *)
Lemma report_summary_matches_data_witness :
  ∃ r,
    fst (generate_diagnostic_report disconnected_machine
           "2025-01-01T00:00:00" ∅ demo_path demo_loads never_zero [])
    = Returns r
    ∧ "WiFi adapter is disconnected" ∈ issues_found r
    ∧ "No internet connectivity detected" ∈ issues_found r
    ∧ "Authentication failures detected" ∈ issues_found r
    ∧ total_issues r = length (issues_found r).
Proof.
  destruct (generate_diagnostic_report disconnected_machine
              "2025-01-01T00:00:00" ∅ demo_path demo_loads never_zero [])
    as [[r|e] log'] eqn:Hg.
  - pose proof (report_summary_matches_data disconnected_machine
                  "2025-01-01T00:00:00" ∅ demo_path demo_loads never_zero []
                  r log' Hg) as H.
    cbv zeta in H.
    destruct H as (Ht & _ & _ & _ & _ & _ & H1 & H2 & H3 & _).
    exists r. split; [reflexivity|].
    split; [|split; [|split; [|exact Ht]]].
    + apply H1. eexists. split; [reflexivity|].
      exists "    State                  : ", "Disconnected", "".
      split; [reflexivity|]. cbn. unfold either_case.
      repeat split; first [by left|by right].
    + apply H2. exists "[{}]", [], []. split; [reflexivity|].
      split; [discriminate|]. split; [reflexivity|by left].
    + apply H3. eexists. split; [reflexivity|]. by exists "Id : ", "".
  - exfalso. vm_compute in Hg. discriminate Hg.
Defined.

(** X18: the user entry of an exchange.  However an exchange ends, with a
    reply, with an error event, or held by an external call, the
    transcript it leaves is the one it found, then the user's message as a
    user entry, then entries none of which is a user entry; the inbound
    queue, the backend client and the catalog are as it found them. *)
Theorem exchange_keeps_user_entry
    completion connect initialize call_tool json_loads str_json message s :
  let s' := final_state
              (chat_with_gpt completion connect initialize call_tool
                 json_loads str_json message s) in
  (∃ dh, chat_history s' = chat_history s ++ UserEntry message :: dh
         ∧ user_contents dh = [])
  ∧ message_queue s' = message_queue s
  ∧ openai_client s' = openai_client s
  ∧ mcp_tools s' = mcp_tools s.
Proof.
  destruct (chat_delta completion connect initialize call_tool json_loads
              str_json message s)
    as (dh & dr & dt & (Ho & Hm & Hq & Hh & _) & Hu).
  cbn zeta. split; [by exists dh|done].
Qed.
